(** * vinAgent.js: the VIN / plate enrichment pipeline

    A shallow embedding of [vinAgent.js].  JavaScript strings are sequences
    of UTF-16 code units; a code unit is a [Z], a string a [list Z].  The
    helpers of the source ([normalizeQuery], [isLikelyVIN],
    [vinChecksumValid], the six graph nodes) keep their names.  The
    collaborators (decode registry, search service, language model) are
    oracles of a [World]; a node is a function in a monad of exceptions and
    a trace.  The first part holds the model, the second the properties. *)

From Stdlib Require Import String Ascii ZArith List Bool Lia.
From Stdlib Require Import Numbers.DecimalString.
Import ListNotations.

Open Scope Z_scope.

(** ** Strings *)

Module JsString.

Definition jsstring := list Z.

(** Code unit of an ASCII character. *)
Definition cu (a : ascii) : Z := Z.of_N (N_of_ascii a).

(** An ASCII literal as a JavaScript string. *)
Definition js (s : string) : jsstring := map cu (list_ascii_of_string s).

(** [a === b] on strings *)
Fixpoint str_eqb (a b : jsstring) : bool :=
  match a, b with
  | [], [] => true
  | x :: a', y :: b' => (x =? y) && str_eqb a' b'
  | _, _ => false
  end.

(** [String(n)] for an integer-valued number. *)
Definition String_of_Z (n : Z) : jsstring :=
  js (NilEmpty.string_of_int (Z.to_int n)).

(** [a || b] on strings: the empty string is the one falsy string. *)
Definition str_or (a b : jsstring) : jsstring :=
  match a with [] => b | _ :: _ => a end.

(** [s.startsWith(p)] *)
Fixpoint startsWith (p s : jsstring) : bool :=
  match p, s with
  | [], _ => true
  | _ :: _, [] => false
  | a :: p', b :: s' => (a =? b) && startsWith p' s'
  end.

(** [s.includes(p)] *)
Fixpoint includes (p s : jsstring) : bool :=
  startsWith p s ||
  match s with
  | [] => false
  | _ :: s' => includes p s'
  end.

(** [parts.join(sep)] *)
Fixpoint join (sep : jsstring) (parts : list jsstring) : jsstring :=
  match parts with
  | [] => []
  | [p] => p
  | p :: rest => p ++ sep ++ join sep rest
  end.

End JsString.
Import JsString.

(** ** Regular expressions of the source

    Every pattern of the file is a bracket class repeated between anchors,
    a negated class used with [replace], or an alternation of literal words
    under the [i] flag. *)

Module Regex.

(** A bracket class: the inclusive code-unit ranges it lists. *)
Definition char_class := list (Z * Z).

Definition in_class (cls : char_class) (c : Z) : bool :=
  existsb (fun r => (fst r <=? c) && (c <=? snd r)) cls.

(** [/^[cls]{lo,hi}$/.test(s)].  Without the [m] flag [$] matches at the
    end of input only. *)
Definition test_repeat (cls : char_class) (lo hi : nat) (s : jsstring) : bool :=
  (lo <=? length s)%nat && (length s <=? hi)%nat && forallb (in_class cls) s.

(** [/[^cls]/]: one code unit outside the class. *)
Definition outside (cls : char_class) (c : Z) : bool := negb (in_class cls c).

(** [s.replace(re, '')] for a global pattern [re] of one code unit. *)
Definition remove_all (re : Z -> bool) (s : jsstring) : jsstring :=
  filter (fun c => negb (re c)) s.

End Regex.
Import Regex.

(** ** Unicode: white space, case conversion, UTF-16

    [trim], [toUpperCase], [toLowerCase] and the [i] flag of a pattern are
    defined by ECMAScript through the Unicode character database.  The
    tables below are those of Unicode 14.0: the simple case mappings of
    UnicodeData.txt as runs [(lo, hi, step, delta)] (every [step]-th code
    point from [lo] to [hi] maps to itself plus [delta]), the unconditional
    mappings of SpecialCasing.txt, and the two properties that decide the
    final-sigma rule. *)

Module Unicode.

Definition UPPER_RUNS : list (Z * Z * Z * Z) :=
  [
   (0x61,0x7A,1,(-32)); (0xB5,0xB5,1,743); (0xE0,0xF6,1,(-32));
   (0xF8,0xFE,1,(-32)); (0xFF,0xFF,1,121); (0x101,0x12F,2,(-1));
   (0x131,0x131,1,(-232)); (0x133,0x137,2,(-1)); (0x13A,0x148,2,(-1));
   (0x14B,0x177,2,(-1)); (0x17A,0x17E,2,(-1)); (0x17F,0x17F,1,(-300));
   (0x180,0x180,1,195); (0x183,0x185,2,(-1)); (0x188,0x188,1,(-1));
   (0x18C,0x18C,1,(-1)); (0x192,0x192,1,(-1)); (0x195,0x195,1,97);
   (0x199,0x199,1,(-1)); (0x19A,0x19A,1,163); (0x19E,0x19E,1,130);
   (0x1A1,0x1A5,2,(-1)); (0x1A8,0x1A8,1,(-1)); (0x1AD,0x1AD,1,(-1));
   (0x1B0,0x1B0,1,(-1)); (0x1B4,0x1B6,2,(-1)); (0x1B9,0x1B9,1,(-1));
   (0x1BD,0x1BD,1,(-1)); (0x1BF,0x1BF,1,56); (0x1C5,0x1C5,1,(-1));
   (0x1C6,0x1C6,1,(-2)); (0x1C8,0x1C8,1,(-1)); (0x1C9,0x1C9,1,(-2));
   (0x1CB,0x1CB,1,(-1)); (0x1CC,0x1CC,1,(-2)); (0x1CE,0x1DC,2,(-1));
   (0x1DD,0x1DD,1,(-79)); (0x1DF,0x1EF,2,(-1)); (0x1F2,0x1F2,1,(-1));
   (0x1F3,0x1F3,1,(-2)); (0x1F5,0x1F5,1,(-1)); (0x1F9,0x21F,2,(-1));
   (0x223,0x233,2,(-1)); (0x23C,0x23C,1,(-1)); (0x23F,0x240,1,10815);
   (0x242,0x242,1,(-1)); (0x247,0x24F,2,(-1)); (0x250,0x250,1,10783);
   (0x251,0x251,1,10780); (0x252,0x252,1,10782); (0x253,0x253,1,(-210));
   (0x254,0x254,1,(-206)); (0x256,0x257,1,(-205)); (0x259,0x259,1,(-202));
   (0x25B,0x25B,1,(-203)); (0x25C,0x25C,1,42319); (0x260,0x260,1,(-205));
   (0x261,0x261,1,42315); (0x263,0x263,1,(-207)); (0x265,0x265,1,42280);
   (0x266,0x266,1,42308); (0x268,0x268,1,(-209)); (0x269,0x269,1,(-211));
   (0x26A,0x26A,1,42308); (0x26B,0x26B,1,10743); (0x26C,0x26C,1,42305);
   (0x26F,0x26F,1,(-211)); (0x271,0x271,1,10749); (0x272,0x272,1,(-213));
   (0x275,0x275,1,(-214)); (0x27D,0x27D,1,10727); (0x280,0x280,1,(-218));
   (0x282,0x282,1,42307); (0x283,0x283,1,(-218)); (0x287,0x287,1,42282);
   (0x288,0x288,1,(-218)); (0x289,0x289,1,(-69)); (0x28A,0x28B,1,(-217));
   (0x28C,0x28C,1,(-71)); (0x292,0x292,1,(-219)); (0x29D,0x29D,1,42261);
   (0x29E,0x29E,1,42258); (0x345,0x345,1,84); (0x371,0x373,2,(-1));
   (0x377,0x377,1,(-1)); (0x37B,0x37D,1,130); (0x3AC,0x3AC,1,(-38));
   (0x3AD,0x3AF,1,(-37)); (0x3B1,0x3C1,1,(-32)); (0x3C2,0x3C2,1,(-31));
   (0x3C3,0x3CB,1,(-32)); (0x3CC,0x3CC,1,(-64)); (0x3CD,0x3CE,1,(-63));
   (0x3D0,0x3D0,1,(-62)); (0x3D1,0x3D1,1,(-57)); (0x3D5,0x3D5,1,(-47));
   (0x3D6,0x3D6,1,(-54)); (0x3D7,0x3D7,1,(-8)); (0x3D9,0x3EF,2,(-1));
   (0x3F0,0x3F0,1,(-86)); (0x3F1,0x3F1,1,(-80)); (0x3F2,0x3F2,1,7);
   (0x3F3,0x3F3,1,(-116)); (0x3F5,0x3F5,1,(-96)); (0x3F8,0x3F8,1,(-1));
   (0x3FB,0x3FB,1,(-1)); (0x430,0x44F,1,(-32)); (0x450,0x45F,1,(-80));
   (0x461,0x481,2,(-1)); (0x48B,0x4BF,2,(-1)); (0x4C2,0x4CE,2,(-1));
   (0x4CF,0x4CF,1,(-15)); (0x4D1,0x52F,2,(-1)); (0x561,0x586,1,(-48));
   (0x10D0,0x10FA,1,3008); (0x10FD,0x10FF,1,3008); (0x13F8,0x13FD,1,(-8));
   (0x1C80,0x1C80,1,(-6254)); (0x1C81,0x1C81,1,(-6253));
   (0x1C82,0x1C82,1,(-6244)); (0x1C83,0x1C84,1,(-6242));
   (0x1C85,0x1C85,1,(-6243)); (0x1C86,0x1C86,1,(-6236));
   (0x1C87,0x1C87,1,(-6181)); (0x1C88,0x1C88,1,35266);
   (0x1D79,0x1D79,1,35332); (0x1D7D,0x1D7D,1,3814); (0x1D8E,0x1D8E,1,35384);
   (0x1E01,0x1E95,2,(-1)); (0x1E9B,0x1E9B,1,(-59)); (0x1EA1,0x1EFF,2,(-1));
   (0x1F00,0x1F07,1,8); (0x1F10,0x1F15,1,8); (0x1F20,0x1F27,1,8);
   (0x1F30,0x1F37,1,8); (0x1F40,0x1F45,1,8); (0x1F51,0x1F57,2,8);
   (0x1F60,0x1F67,1,8); (0x1F70,0x1F71,1,74); (0x1F72,0x1F75,1,86);
   (0x1F76,0x1F77,1,100); (0x1F78,0x1F79,1,128); (0x1F7A,0x1F7B,1,112);
   (0x1F7C,0x1F7D,1,126); (0x1FB0,0x1FB1,1,8); (0x1FBE,0x1FBE,1,(-7205));
   (0x1FD0,0x1FD1,1,8); (0x1FE0,0x1FE1,1,8); (0x1FE5,0x1FE5,1,7);
   (0x214E,0x214E,1,(-28)); (0x2170,0x217F,1,(-16)); (0x2184,0x2184,1,(-1));
   (0x24D0,0x24E9,1,(-26)); (0x2C30,0x2C5F,1,(-48)); (0x2C61,0x2C61,1,(-1));
   (0x2C65,0x2C65,1,(-10795)); (0x2C66,0x2C66,1,(-10792));
   (0x2C68,0x2C6C,2,(-1)); (0x2C73,0x2C73,1,(-1)); (0x2C76,0x2C76,1,(-1));
   (0x2C81,0x2CE3,2,(-1)); (0x2CEC,0x2CEE,2,(-1)); (0x2CF3,0x2CF3,1,(-1));
   (0x2D00,0x2D25,1,(-7264)); (0x2D27,0x2D27,1,(-7264));
   (0x2D2D,0x2D2D,1,(-7264)); (0xA641,0xA66D,2,(-1)); (0xA681,0xA69B,2,(-1));
   (0xA723,0xA72F,2,(-1)); (0xA733,0xA76F,2,(-1)); (0xA77A,0xA77C,2,(-1));
   (0xA77F,0xA787,2,(-1)); (0xA78C,0xA78C,1,(-1)); (0xA791,0xA793,2,(-1));
   (0xA794,0xA794,1,48); (0xA797,0xA7A9,2,(-1)); (0xA7B5,0xA7C3,2,(-1));
   (0xA7C8,0xA7CA,2,(-1)); (0xA7D1,0xA7D1,1,(-1)); (0xA7D7,0xA7D9,2,(-1));
   (0xA7F6,0xA7F6,1,(-1)); (0xAB53,0xAB53,1,(-928));
   (0xAB70,0xABBF,1,(-38864)); (0xFF41,0xFF5A,1,(-32));
   (0x10428,0x1044F,1,(-40)); (0x104D8,0x104FB,1,(-40));
   (0x10597,0x105BB,2,(-39)); (0x10598,0x105A1,1,(-39));
   (0x105A4,0x105B1,1,(-39)); (0x105B4,0x105B9,1,(-39));
   (0x105BC,0x105BC,1,(-39)); (0x10CC0,0x10CF2,1,(-64));
   (0x118C0,0x118DF,1,(-32)); (0x16E60,0x16E7F,1,(-32));
   (0x1E922,0x1E943,1,(-34))
  ].

Definition UPPER_SPECIAL : list (Z * list Z) :=
  [
   (0xDF,[0x53;0x53]); (0x149,[0x2BC;0x4E]); (0x1F0,[0x4A;0x30C]);
   (0x390,[0x399;0x308;0x301]); (0x3B0,[0x3A5;0x308;0x301]);
   (0x587,[0x535;0x552]); (0x1E96,[0x48;0x331]); (0x1E97,[0x54;0x308]);
   (0x1E98,[0x57;0x30A]); (0x1E99,[0x59;0x30A]); (0x1E9A,[0x41;0x2BE]);
   (0x1F50,[0x3A5;0x313]); (0x1F52,[0x3A5;0x313;0x300]);
   (0x1F54,[0x3A5;0x313;0x301]); (0x1F56,[0x3A5;0x313;0x342]);
   (0x1F80,[0x1F08;0x399]); (0x1F81,[0x1F09;0x399]); (0x1F82,[0x1F0A;0x399]);
   (0x1F83,[0x1F0B;0x399]); (0x1F84,[0x1F0C;0x399]); (0x1F85,[0x1F0D;0x399]);
   (0x1F86,[0x1F0E;0x399]); (0x1F87,[0x1F0F;0x399]); (0x1F88,[0x1F08;0x399]);
   (0x1F89,[0x1F09;0x399]); (0x1F8A,[0x1F0A;0x399]); (0x1F8B,[0x1F0B;0x399]);
   (0x1F8C,[0x1F0C;0x399]); (0x1F8D,[0x1F0D;0x399]); (0x1F8E,[0x1F0E;0x399]);
   (0x1F8F,[0x1F0F;0x399]); (0x1F90,[0x1F28;0x399]); (0x1F91,[0x1F29;0x399]);
   (0x1F92,[0x1F2A;0x399]); (0x1F93,[0x1F2B;0x399]); (0x1F94,[0x1F2C;0x399]);
   (0x1F95,[0x1F2D;0x399]); (0x1F96,[0x1F2E;0x399]); (0x1F97,[0x1F2F;0x399]);
   (0x1F98,[0x1F28;0x399]); (0x1F99,[0x1F29;0x399]); (0x1F9A,[0x1F2A;0x399]);
   (0x1F9B,[0x1F2B;0x399]); (0x1F9C,[0x1F2C;0x399]); (0x1F9D,[0x1F2D;0x399]);
   (0x1F9E,[0x1F2E;0x399]); (0x1F9F,[0x1F2F;0x399]); (0x1FA0,[0x1F68;0x399]);
   (0x1FA1,[0x1F69;0x399]); (0x1FA2,[0x1F6A;0x399]); (0x1FA3,[0x1F6B;0x399]);
   (0x1FA4,[0x1F6C;0x399]); (0x1FA5,[0x1F6D;0x399]); (0x1FA6,[0x1F6E;0x399]);
   (0x1FA7,[0x1F6F;0x399]); (0x1FA8,[0x1F68;0x399]); (0x1FA9,[0x1F69;0x399]);
   (0x1FAA,[0x1F6A;0x399]); (0x1FAB,[0x1F6B;0x399]); (0x1FAC,[0x1F6C;0x399]);
   (0x1FAD,[0x1F6D;0x399]); (0x1FAE,[0x1F6E;0x399]); (0x1FAF,[0x1F6F;0x399]);
   (0x1FB2,[0x1FBA;0x399]); (0x1FB3,[0x391;0x399]); (0x1FB4,[0x386;0x399]);
   (0x1FB6,[0x391;0x342]); (0x1FB7,[0x391;0x342;0x399]);
   (0x1FBC,[0x391;0x399]); (0x1FC2,[0x1FCA;0x399]); (0x1FC3,[0x397;0x399]);
   (0x1FC4,[0x389;0x399]); (0x1FC6,[0x397;0x342]);
   (0x1FC7,[0x397;0x342;0x399]); (0x1FCC,[0x397;0x399]);
   (0x1FD2,[0x399;0x308;0x300]); (0x1FD3,[0x399;0x308;0x301]);
   (0x1FD6,[0x399;0x342]); (0x1FD7,[0x399;0x308;0x342]);
   (0x1FE2,[0x3A5;0x308;0x300]); (0x1FE3,[0x3A5;0x308;0x301]);
   (0x1FE4,[0x3A1;0x313]); (0x1FE6,[0x3A5;0x342]);
   (0x1FE7,[0x3A5;0x308;0x342]); (0x1FF2,[0x1FFA;0x399]);
   (0x1FF3,[0x3A9;0x399]); (0x1FF4,[0x38F;0x399]); (0x1FF6,[0x3A9;0x342]);
   (0x1FF7,[0x3A9;0x342;0x399]); (0x1FFC,[0x3A9;0x399]);
   (0xFB00,[0x46;0x46]); (0xFB01,[0x46;0x49]); (0xFB02,[0x46;0x4C]);
   (0xFB03,[0x46;0x46;0x49]); (0xFB04,[0x46;0x46;0x4C]);
   (0xFB05,[0x53;0x54]); (0xFB06,[0x53;0x54]); (0xFB13,[0x544;0x546]);
   (0xFB14,[0x544;0x535]); (0xFB15,[0x544;0x53B]); (0xFB16,[0x54E;0x546]);
   (0xFB17,[0x544;0x53D])
  ].

Definition LOWER_RUNS : list (Z * Z * Z * Z) :=
  [
   (0x41,0x5A,1,32); (0xC0,0xD6,1,32); (0xD8,0xDE,1,32); (0x100,0x12E,2,1);
   (0x132,0x136,2,1); (0x139,0x147,2,1); (0x14A,0x176,2,1);
   (0x178,0x178,1,(-121)); (0x179,0x17D,2,1); (0x181,0x181,1,210);
   (0x182,0x184,2,1); (0x186,0x186,1,206); (0x187,0x187,1,1);
   (0x189,0x18A,1,205); (0x18B,0x18B,1,1); (0x18E,0x18E,1,79);
   (0x18F,0x18F,1,202); (0x190,0x190,1,203); (0x191,0x191,1,1);
   (0x193,0x193,1,205); (0x194,0x194,1,207); (0x196,0x196,1,211);
   (0x197,0x197,1,209); (0x198,0x198,1,1); (0x19C,0x19C,1,211);
   (0x19D,0x19D,1,213); (0x19F,0x19F,1,214); (0x1A0,0x1A4,2,1);
   (0x1A6,0x1A6,1,218); (0x1A7,0x1A7,1,1); (0x1A9,0x1A9,1,218);
   (0x1AC,0x1AC,1,1); (0x1AE,0x1AE,1,218); (0x1AF,0x1AF,1,1);
   (0x1B1,0x1B2,1,217); (0x1B3,0x1B5,2,1); (0x1B7,0x1B7,1,219);
   (0x1B8,0x1B8,1,1); (0x1BC,0x1BC,1,1); (0x1C4,0x1C4,1,2);
   (0x1C5,0x1C5,1,1); (0x1C7,0x1C7,1,2); (0x1C8,0x1C8,1,1);
   (0x1CA,0x1CA,1,2); (0x1CB,0x1DB,2,1); (0x1DE,0x1EE,2,1);
   (0x1F1,0x1F1,1,2); (0x1F2,0x1F4,2,1); (0x1F6,0x1F6,1,(-97));
   (0x1F7,0x1F7,1,(-56)); (0x1F8,0x21E,2,1); (0x220,0x220,1,(-130));
   (0x222,0x232,2,1); (0x23A,0x23A,1,10795); (0x23B,0x23B,1,1);
   (0x23D,0x23D,1,(-163)); (0x23E,0x23E,1,10792); (0x241,0x241,1,1);
   (0x243,0x243,1,(-195)); (0x244,0x244,1,69); (0x245,0x245,1,71);
   (0x246,0x24E,2,1); (0x370,0x372,2,1); (0x376,0x376,1,1);
   (0x37F,0x37F,1,116); (0x386,0x386,1,38); (0x388,0x38A,1,37);
   (0x38C,0x38C,1,64); (0x38E,0x38F,1,63); (0x391,0x3A1,1,32);
   (0x3A3,0x3AB,1,32); (0x3CF,0x3CF,1,8); (0x3D8,0x3EE,2,1);
   (0x3F4,0x3F4,1,(-60)); (0x3F7,0x3F7,1,1); (0x3F9,0x3F9,1,(-7));
   (0x3FA,0x3FA,1,1); (0x3FD,0x3FF,1,(-130)); (0x400,0x40F,1,80);
   (0x410,0x42F,1,32); (0x460,0x480,2,1); (0x48A,0x4BE,2,1);
   (0x4C0,0x4C0,1,15); (0x4C1,0x4CD,2,1); (0x4D0,0x52E,2,1);
   (0x531,0x556,1,48); (0x10A0,0x10C5,1,7264); (0x10C7,0x10C7,1,7264);
   (0x10CD,0x10CD,1,7264); (0x13A0,0x13EF,1,38864); (0x13F0,0x13F5,1,8);
   (0x1C90,0x1CBA,1,(-3008)); (0x1CBD,0x1CBF,1,(-3008)); (0x1E00,0x1E94,2,1);
   (0x1E9E,0x1E9E,1,(-7615)); (0x1EA0,0x1EFE,2,1); (0x1F08,0x1F0F,1,(-8));
   (0x1F18,0x1F1D,1,(-8)); (0x1F28,0x1F2F,1,(-8)); (0x1F38,0x1F3F,1,(-8));
   (0x1F48,0x1F4D,1,(-8)); (0x1F59,0x1F5F,2,(-8)); (0x1F68,0x1F6F,1,(-8));
   (0x1F88,0x1F8F,1,(-8)); (0x1F98,0x1F9F,1,(-8)); (0x1FA8,0x1FAF,1,(-8));
   (0x1FB8,0x1FB9,1,(-8)); (0x1FBA,0x1FBB,1,(-74)); (0x1FBC,0x1FBC,1,(-9));
   (0x1FC8,0x1FCB,1,(-86)); (0x1FCC,0x1FCC,1,(-9)); (0x1FD8,0x1FD9,1,(-8));
   (0x1FDA,0x1FDB,1,(-100)); (0x1FE8,0x1FE9,1,(-8));
   (0x1FEA,0x1FEB,1,(-112)); (0x1FEC,0x1FEC,1,(-7));
   (0x1FF8,0x1FF9,1,(-128)); (0x1FFA,0x1FFB,1,(-126));
   (0x1FFC,0x1FFC,1,(-9)); (0x2126,0x2126,1,(-7517));
   (0x212A,0x212A,1,(-8383)); (0x212B,0x212B,1,(-8262));
   (0x2132,0x2132,1,28); (0x2160,0x216F,1,16); (0x2183,0x2183,1,1);
   (0x24B6,0x24CF,1,26); (0x2C00,0x2C2F,1,48); (0x2C60,0x2C60,1,1);
   (0x2C62,0x2C62,1,(-10743)); (0x2C63,0x2C63,1,(-3814));
   (0x2C64,0x2C64,1,(-10727)); (0x2C67,0x2C6B,2,1);
   (0x2C6D,0x2C6D,1,(-10780)); (0x2C6E,0x2C6E,1,(-10749));
   (0x2C6F,0x2C6F,1,(-10783)); (0x2C70,0x2C70,1,(-10782));
   (0x2C72,0x2C72,1,1); (0x2C75,0x2C75,1,1); (0x2C7E,0x2C7F,1,(-10815));
   (0x2C80,0x2CE2,2,1); (0x2CEB,0x2CED,2,1); (0x2CF2,0x2CF2,1,1);
   (0xA640,0xA66C,2,1); (0xA680,0xA69A,2,1); (0xA722,0xA72E,2,1);
   (0xA732,0xA76E,2,1); (0xA779,0xA77B,2,1); (0xA77D,0xA77D,1,(-35332));
   (0xA77E,0xA786,2,1); (0xA78B,0xA78B,1,1); (0xA78D,0xA78D,1,(-42280));
   (0xA790,0xA792,2,1); (0xA796,0xA7A8,2,1); (0xA7AA,0xA7AA,1,(-42308));
   (0xA7AB,0xA7AB,1,(-42319)); (0xA7AC,0xA7AC,1,(-42315));
   (0xA7AD,0xA7AD,1,(-42305)); (0xA7AE,0xA7AE,1,(-42308));
   (0xA7B0,0xA7B0,1,(-42258)); (0xA7B1,0xA7B1,1,(-42282));
   (0xA7B2,0xA7B2,1,(-42261)); (0xA7B3,0xA7B3,1,928); (0xA7B4,0xA7C2,2,1);
   (0xA7C4,0xA7C4,1,(-48)); (0xA7C5,0xA7C5,1,(-42307));
   (0xA7C6,0xA7C6,1,(-35384)); (0xA7C7,0xA7C9,2,1); (0xA7D0,0xA7D0,1,1);
   (0xA7D6,0xA7D8,2,1); (0xA7F5,0xA7F5,1,1); (0xFF21,0xFF3A,1,32);
   (0x10400,0x10427,1,40); (0x104B0,0x104D3,1,40); (0x10570,0x10594,2,39);
   (0x10571,0x1057A,1,39); (0x1057D,0x1058A,1,39); (0x1058D,0x10592,1,39);
   (0x10595,0x10595,1,39); (0x10C80,0x10CB2,1,64); (0x118A0,0x118BF,1,32);
   (0x16E40,0x16E5F,1,32); (0x1E900,0x1E921,1,34)
  ].

Definition LOWER_SPECIAL : list (Z * list Z) :=
  [
   (0x130,[0x69;0x307])
  ].

(** Case_Ignorable code points. *)
Definition CASE_IGNORABLE : char_class :=
  [
   (0x27,0x27); (0x2E,0x2E); (0x3A,0x3A); (0x5E,0x5E); (0x60,0x60);
   (0xA8,0xA8); (0xAD,0xAD); (0xAF,0xAF); (0xB4,0xB4); (0xB7,0xB8);
   (0x2B0,0x36F); (0x374,0x375); (0x37A,0x37A); (0x384,0x385); (0x387,0x387);
   (0x483,0x489); (0x559,0x559); (0x55F,0x55F); (0x591,0x5BD); (0x5BF,0x5BF);
   (0x5C1,0x5C2); (0x5C4,0x5C5); (0x5C7,0x5C7); (0x5F4,0x5F4); (0x600,0x605);
   (0x610,0x61A); (0x61C,0x61C); (0x640,0x640); (0x64B,0x65F); (0x670,0x670);
   (0x6D6,0x6DD); (0x6DF,0x6E8); (0x6EA,0x6ED); (0x70F,0x70F); (0x711,0x711);
   (0x730,0x74A); (0x7A6,0x7B0); (0x7EB,0x7F5); (0x7FA,0x7FA); (0x7FD,0x7FD);
   (0x816,0x82D); (0x859,0x85B); (0x888,0x888); (0x890,0x891); (0x898,0x89F);
   (0x8C9,0x902); (0x93A,0x93A); (0x93C,0x93C); (0x941,0x948); (0x94D,0x94D);
   (0x951,0x957); (0x962,0x963); (0x971,0x971); (0x981,0x981); (0x9BC,0x9BC);
   (0x9C1,0x9C4); (0x9CD,0x9CD); (0x9E2,0x9E3); (0x9FE,0x9FE); (0xA01,0xA02);
   (0xA3C,0xA3C); (0xA41,0xA42); (0xA47,0xA48); (0xA4B,0xA4D); (0xA51,0xA51);
   (0xA70,0xA71); (0xA75,0xA75); (0xA81,0xA82); (0xABC,0xABC); (0xAC1,0xAC5);
   (0xAC7,0xAC8); (0xACD,0xACD); (0xAE2,0xAE3); (0xAFA,0xAFF); (0xB01,0xB01);
   (0xB3C,0xB3C); (0xB3F,0xB3F); (0xB41,0xB44); (0xB4D,0xB4D); (0xB55,0xB56);
   (0xB62,0xB63); (0xB82,0xB82); (0xBC0,0xBC0); (0xBCD,0xBCD); (0xC00,0xC00);
   (0xC04,0xC04); (0xC3C,0xC3C); (0xC3E,0xC40); (0xC46,0xC48); (0xC4A,0xC4D);
   (0xC55,0xC56); (0xC62,0xC63); (0xC81,0xC81); (0xCBC,0xCBC); (0xCBF,0xCBF);
   (0xCC6,0xCC6); (0xCCC,0xCCD); (0xCE2,0xCE3); (0xD00,0xD01); (0xD3B,0xD3C);
   (0xD41,0xD44); (0xD4D,0xD4D); (0xD62,0xD63); (0xD81,0xD81); (0xDCA,0xDCA);
   (0xDD2,0xDD4); (0xDD6,0xDD6); (0xE31,0xE31); (0xE34,0xE3A); (0xE46,0xE4E);
   (0xEB1,0xEB1); (0xEB4,0xEBC); (0xEC6,0xEC6); (0xEC8,0xECD); (0xF18,0xF19);
   (0xF35,0xF35); (0xF37,0xF37); (0xF39,0xF39); (0xF71,0xF7E); (0xF80,0xF84);
   (0xF86,0xF87); (0xF8D,0xF97); (0xF99,0xFBC); (0xFC6,0xFC6);
   (0x102D,0x1030); (0x1032,0x1037); (0x1039,0x103A); (0x103D,0x103E);
   (0x1058,0x1059); (0x105E,0x1060); (0x1071,0x1074); (0x1082,0x1082);
   (0x1085,0x1086); (0x108D,0x108D); (0x109D,0x109D); (0x10FC,0x10FC);
   (0x135D,0x135F); (0x1712,0x1714); (0x1732,0x1733); (0x1752,0x1753);
   (0x1772,0x1773); (0x17B4,0x17B5); (0x17B7,0x17BD); (0x17C6,0x17C6);
   (0x17C9,0x17D3); (0x17D7,0x17D7); (0x17DD,0x17DD); (0x180B,0x180F);
   (0x1843,0x1843); (0x1885,0x1886); (0x18A9,0x18A9); (0x1920,0x1922);
   (0x1927,0x1928); (0x1932,0x1932); (0x1939,0x193B); (0x1A17,0x1A18);
   (0x1A1B,0x1A1B); (0x1A56,0x1A56); (0x1A58,0x1A5E); (0x1A60,0x1A60);
   (0x1A62,0x1A62); (0x1A65,0x1A6C); (0x1A73,0x1A7C); (0x1A7F,0x1A7F);
   (0x1AA7,0x1AA7); (0x1AB0,0x1ACE); (0x1B00,0x1B03); (0x1B34,0x1B34);
   (0x1B36,0x1B3A); (0x1B3C,0x1B3C); (0x1B42,0x1B42); (0x1B6B,0x1B73);
   (0x1B80,0x1B81); (0x1BA2,0x1BA5); (0x1BA8,0x1BA9); (0x1BAB,0x1BAD);
   (0x1BE6,0x1BE6); (0x1BE8,0x1BE9); (0x1BED,0x1BED); (0x1BEF,0x1BF1);
   (0x1C2C,0x1C33); (0x1C36,0x1C37); (0x1C78,0x1C7D); (0x1CD0,0x1CD2);
   (0x1CD4,0x1CE0); (0x1CE2,0x1CE8); (0x1CED,0x1CED); (0x1CF4,0x1CF4);
   (0x1CF8,0x1CF9); (0x1D2C,0x1D6A); (0x1D78,0x1D78); (0x1D9B,0x1DFF);
   (0x1FBD,0x1FBD); (0x1FBF,0x1FC1); (0x1FCD,0x1FCF); (0x1FDD,0x1FDF);
   (0x1FED,0x1FEF); (0x1FFD,0x1FFE); (0x200B,0x200F); (0x2018,0x2019);
   (0x2024,0x2024); (0x2027,0x2027); (0x202A,0x202E); (0x2060,0x2064);
   (0x2066,0x206F); (0x2071,0x2071); (0x207F,0x207F); (0x2090,0x209C);
   (0x20D0,0x20F0); (0x2C7C,0x2C7D); (0x2CEF,0x2CF1); (0x2D6F,0x2D6F);
   (0x2D7F,0x2D7F); (0x2DE0,0x2DFF); (0x2E2F,0x2E2F); (0x3005,0x3005);
   (0x302A,0x302D); (0x3031,0x3035); (0x303B,0x303B); (0x3099,0x309E);
   (0x30FC,0x30FE); (0xA015,0xA015); (0xA4F8,0xA4FD); (0xA60C,0xA60C);
   (0xA66F,0xA672); (0xA674,0xA67D); (0xA67F,0xA67F); (0xA69C,0xA69F);
   (0xA6F0,0xA6F1); (0xA700,0xA721); (0xA770,0xA770); (0xA788,0xA78A);
   (0xA7F2,0xA7F4); (0xA7F8,0xA7F9); (0xA802,0xA802); (0xA806,0xA806);
   (0xA80B,0xA80B); (0xA825,0xA826); (0xA82C,0xA82C); (0xA8C4,0xA8C5);
   (0xA8E0,0xA8F1); (0xA8FF,0xA8FF); (0xA926,0xA92D); (0xA947,0xA951);
   (0xA980,0xA982); (0xA9B3,0xA9B3); (0xA9B6,0xA9B9); (0xA9BC,0xA9BD);
   (0xA9CF,0xA9CF); (0xA9E5,0xA9E6); (0xAA29,0xAA2E); (0xAA31,0xAA32);
   (0xAA35,0xAA36); (0xAA43,0xAA43); (0xAA4C,0xAA4C); (0xAA70,0xAA70);
   (0xAA7C,0xAA7C); (0xAAB0,0xAAB0); (0xAAB2,0xAAB4); (0xAAB7,0xAAB8);
   (0xAABE,0xAABF); (0xAAC1,0xAAC1); (0xAADD,0xAADD); (0xAAEC,0xAAED);
   (0xAAF3,0xAAF4); (0xAAF6,0xAAF6); (0xAB5B,0xAB5F); (0xAB69,0xAB6B);
   (0xABE5,0xABE5); (0xABE8,0xABE8); (0xABED,0xABED); (0xFB1E,0xFB1E);
   (0xFBB2,0xFBC2); (0xFE00,0xFE0F); (0xFE13,0xFE13); (0xFE20,0xFE2F);
   (0xFE52,0xFE52); (0xFE55,0xFE55); (0xFEFF,0xFEFF); (0xFF07,0xFF07);
   (0xFF0E,0xFF0E); (0xFF1A,0xFF1A); (0xFF3E,0xFF3E); (0xFF40,0xFF40);
   (0xFF70,0xFF70); (0xFF9E,0xFF9F); (0xFFE3,0xFFE3); (0xFFF9,0xFFFB);
   (0x101FD,0x101FD); (0x102E0,0x102E0); (0x10376,0x1037A);
   (0x10780,0x10785); (0x10787,0x107B0); (0x107B2,0x107BA);
   (0x10A01,0x10A03); (0x10A05,0x10A06); (0x10A0C,0x10A0F);
   (0x10A38,0x10A3A); (0x10A3F,0x10A3F); (0x10AE5,0x10AE6);
   (0x10D24,0x10D27); (0x10EAB,0x10EAC); (0x10F46,0x10F50);
   (0x10F82,0x10F85); (0x11001,0x11001); (0x11038,0x11046);
   (0x11070,0x11070); (0x11073,0x11074); (0x1107F,0x11081);
   (0x110B3,0x110B6); (0x110B9,0x110BA); (0x110BD,0x110BD);
   (0x110C2,0x110C2); (0x110CD,0x110CD); (0x11100,0x11102);
   (0x11127,0x1112B); (0x1112D,0x11134); (0x11173,0x11173);
   (0x11180,0x11181); (0x111B6,0x111BE); (0x111C9,0x111CC);
   (0x111CF,0x111CF); (0x1122F,0x11231); (0x11234,0x11234);
   (0x11236,0x11237); (0x1123E,0x1123E); (0x112DF,0x112DF);
   (0x112E3,0x112EA); (0x11300,0x11301); (0x1133B,0x1133C);
   (0x11340,0x11340); (0x11366,0x1136C); (0x11370,0x11374);
   (0x11438,0x1143F); (0x11442,0x11444); (0x11446,0x11446);
   (0x1145E,0x1145E); (0x114B3,0x114B8); (0x114BA,0x114BA);
   (0x114BF,0x114C0); (0x114C2,0x114C3); (0x115B2,0x115B5);
   (0x115BC,0x115BD); (0x115BF,0x115C0); (0x115DC,0x115DD);
   (0x11633,0x1163A); (0x1163D,0x1163D); (0x1163F,0x11640);
   (0x116AB,0x116AB); (0x116AD,0x116AD); (0x116B0,0x116B5);
   (0x116B7,0x116B7); (0x1171D,0x1171F); (0x11722,0x11725);
   (0x11727,0x1172B); (0x1182F,0x11837); (0x11839,0x1183A);
   (0x1193B,0x1193C); (0x1193E,0x1193E); (0x11943,0x11943);
   (0x119D4,0x119D7); (0x119DA,0x119DB); (0x119E0,0x119E0);
   (0x11A01,0x11A0A); (0x11A33,0x11A38); (0x11A3B,0x11A3E);
   (0x11A47,0x11A47); (0x11A51,0x11A56); (0x11A59,0x11A5B);
   (0x11A8A,0x11A96); (0x11A98,0x11A99); (0x11C30,0x11C36);
   (0x11C38,0x11C3D); (0x11C3F,0x11C3F); (0x11C92,0x11CA7);
   (0x11CAA,0x11CB0); (0x11CB2,0x11CB3); (0x11CB5,0x11CB6);
   (0x11D31,0x11D36); (0x11D3A,0x11D3A); (0x11D3C,0x11D3D);
   (0x11D3F,0x11D45); (0x11D47,0x11D47); (0x11D90,0x11D91);
   (0x11D95,0x11D95); (0x11D97,0x11D97); (0x11EF3,0x11EF4);
   (0x13430,0x13438); (0x16AF0,0x16AF4); (0x16B30,0x16B36);
   (0x16B40,0x16B43); (0x16F4F,0x16F4F); (0x16F8F,0x16F9F);
   (0x16FE0,0x16FE1); (0x16FE3,0x16FE4); (0x1AFF0,0x1AFF3);
   (0x1AFF5,0x1AFFB); (0x1AFFD,0x1AFFE); (0x1BC9D,0x1BC9E);
   (0x1BCA0,0x1BCA3); (0x1CF00,0x1CF2D); (0x1CF30,0x1CF46);
   (0x1D167,0x1D169); (0x1D173,0x1D182); (0x1D185,0x1D18B);
   (0x1D1AA,0x1D1AD); (0x1D242,0x1D244); (0x1DA00,0x1DA36);
   (0x1DA3B,0x1DA6C); (0x1DA75,0x1DA75); (0x1DA84,0x1DA84);
   (0x1DA9B,0x1DA9F); (0x1DAA1,0x1DAAF); (0x1E000,0x1E006);
   (0x1E008,0x1E018); (0x1E01B,0x1E021); (0x1E023,0x1E024);
   (0x1E026,0x1E02A); (0x1E130,0x1E13D); (0x1E2AE,0x1E2AE);
   (0x1E2EC,0x1E2EF); (0x1E8D0,0x1E8D6); (0x1E944,0x1E94B);
   (0x1F3FB,0x1F3FF); (0xE0001,0xE0001); (0xE0020,0xE007F); (0xE0100,0xE01EF)
  ].

(** Cased code points that are not Case_Ignorable. *)
Definition CASED : char_class :=
  [
   (0x41,0x5A); (0x61,0x7A); (0xAA,0xAA); (0xB5,0xB5); (0xBA,0xBA);
   (0xC0,0xD6); (0xD8,0xF6); (0xF8,0x1BA); (0x1BC,0x1BF); (0x1C4,0x293);
   (0x295,0x2AF); (0x370,0x373); (0x376,0x377); (0x37B,0x37D); (0x37F,0x37F);
   (0x386,0x386); (0x388,0x38A); (0x38C,0x38C); (0x38E,0x3A1); (0x3A3,0x3F5);
   (0x3F7,0x481); (0x48A,0x52F); (0x531,0x556); (0x560,0x588);
   (0x10A0,0x10C5); (0x10C7,0x10C7); (0x10CD,0x10CD); (0x10D0,0x10FA);
   (0x10FD,0x10FF); (0x13A0,0x13F5); (0x13F8,0x13FD); (0x1C80,0x1C88);
   (0x1C90,0x1CBA); (0x1CBD,0x1CBF); (0x1D00,0x1D2B); (0x1D6B,0x1D77);
   (0x1D79,0x1D9A); (0x1E00,0x1F15); (0x1F18,0x1F1D); (0x1F20,0x1F45);
   (0x1F48,0x1F4D); (0x1F50,0x1F57); (0x1F59,0x1F59); (0x1F5B,0x1F5B);
   (0x1F5D,0x1F5D); (0x1F5F,0x1F7D); (0x1F80,0x1FB4); (0x1FB6,0x1FBC);
   (0x1FBE,0x1FBE); (0x1FC2,0x1FC4); (0x1FC6,0x1FCC); (0x1FD0,0x1FD3);
   (0x1FD6,0x1FDB); (0x1FE0,0x1FEC); (0x1FF2,0x1FF4); (0x1FF6,0x1FFC);
   (0x2102,0x2102); (0x2107,0x2107); (0x210A,0x2113); (0x2115,0x2115);
   (0x2119,0x211D); (0x2124,0x2124); (0x2126,0x2126); (0x2128,0x2128);
   (0x212A,0x212D); (0x212F,0x2134); (0x2139,0x2139); (0x213C,0x213F);
   (0x2145,0x2149); (0x214E,0x214E); (0x2160,0x217F); (0x2183,0x2184);
   (0x24B6,0x24E9); (0x2C00,0x2C7B); (0x2C7E,0x2CE4); (0x2CEB,0x2CEE);
   (0x2CF2,0x2CF3); (0x2D00,0x2D25); (0x2D27,0x2D27); (0x2D2D,0x2D2D);
   (0xA640,0xA66D); (0xA680,0xA69B); (0xA722,0xA76F); (0xA771,0xA787);
   (0xA78B,0xA78E); (0xA790,0xA7CA); (0xA7D0,0xA7D1); (0xA7D3,0xA7D3);
   (0xA7D5,0xA7D9); (0xA7F5,0xA7F6); (0xA7FA,0xA7FA); (0xAB30,0xAB5A);
   (0xAB60,0xAB68); (0xAB70,0xABBF); (0xFB00,0xFB06); (0xFB13,0xFB17);
   (0xFF21,0xFF3A); (0xFF41,0xFF5A); (0x10400,0x1044F); (0x104B0,0x104D3);
   (0x104D8,0x104FB); (0x10570,0x1057A); (0x1057C,0x1058A);
   (0x1058C,0x10592); (0x10594,0x10595); (0x10597,0x105A1);
   (0x105A3,0x105B1); (0x105B3,0x105B9); (0x105BB,0x105BC);
   (0x10C80,0x10CB2); (0x10CC0,0x10CF2); (0x118A0,0x118DF);
   (0x16E40,0x16E7F); (0x1D400,0x1D454); (0x1D456,0x1D49C);
   (0x1D49E,0x1D49F); (0x1D4A2,0x1D4A2); (0x1D4A5,0x1D4A6);
   (0x1D4A9,0x1D4AC); (0x1D4AE,0x1D4B9); (0x1D4BB,0x1D4BB);
   (0x1D4BD,0x1D4C3); (0x1D4C5,0x1D505); (0x1D507,0x1D50A);
   (0x1D50D,0x1D514); (0x1D516,0x1D51C); (0x1D51E,0x1D539);
   (0x1D53B,0x1D53E); (0x1D540,0x1D544); (0x1D546,0x1D546);
   (0x1D54A,0x1D550); (0x1D552,0x1D6A5); (0x1D6A8,0x1D6C0);
   (0x1D6C2,0x1D6DA); (0x1D6DC,0x1D6FA); (0x1D6FC,0x1D714);
   (0x1D716,0x1D734); (0x1D736,0x1D74E); (0x1D750,0x1D76E);
   (0x1D770,0x1D788); (0x1D78A,0x1D7A8); (0x1D7AA,0x1D7C2);
   (0x1D7C4,0x1D7CB); (0x1DF00,0x1DF09); (0x1DF0B,0x1DF1E);
   (0x1E900,0x1E943); (0x1F130,0x1F149); (0x1F150,0x1F169); (0x1F170,0x1F189)
  ].

Fixpoint find_special (tbl : list (Z * list Z)) (c : Z) : option (list Z) :=
  match tbl with
  | [] => None
  | (k, v) :: rest => if k =? c then Some v else find_special rest c
  end.

Definition in_run (r : Z * Z * Z * Z) (c : Z) : bool :=
  let '(lo, hi, step, _) := r in
  (lo <=? c) && (c <=? hi) && ((c - lo) mod step =? 0).

Fixpoint find_run (tbl : list (Z * Z * Z * Z)) (c : Z) : option Z :=
  match tbl with
  | [] => None
  | r :: rest =>
      if in_run r c then Some (c + snd r) else find_run rest c
  end.

Definition case_map (special : list (Z * list Z)) (runs : list (Z * Z * Z * Z))
    (c : Z) : list Z :=
  match find_special special c with
  | Some l => l
  | None =>
      match find_run runs c with
      | Some u => [u]
      | None => [c]
      end
  end.

(** Uppercase and lowercase of one code point. *)
Definition upper_cp : Z -> list Z := case_map UPPER_SPECIAL UPPER_RUNS.
Definition lower_cp : Z -> list Z := case_map LOWER_SPECIAL LOWER_RUNS.

(** *** UTF-16 *)

Definition is_lead (c : Z) : bool := (0xD800 <=? c) && (c <=? 0xDBFF).
Definition is_trail (c : Z) : bool := (0xDC00 <=? c) && (c <=? 0xDFFF).

(** The code points of a string; a surrogate without its partner stands for
    itself. *)
Fixpoint code_points (s : jsstring) : list Z :=
  match s with
  | [] => []
  | h :: t =>
      match t with
      | l :: t' =>
          if is_lead h && is_trail l
          then (0x10000 + (h - 0xD800) * 0x400 + (l - 0xDC00)) :: code_points t'
          else h :: code_points t
      | [] => [h]
      end
  end.

Definition utf16_unit (cp : Z) : jsstring :=
  if cp <? 0x10000 then [cp]
  else [0xD800 + (cp - 0x10000) / 0x400; 0xDC00 + (cp - 0x10000) mod 0x400].

Definition utf16 (cps : list Z) : jsstring := flat_map utf16_unit cps.

(** *** [String.prototype.toUpperCase] *)

Definition toUpperCase (s : jsstring) : jsstring :=
  utf16 (flat_map upper_cp (code_points s)).

(** *** [String.prototype.toLowerCase]

    A capital sigma becomes the final form when a cased letter stands
    before it, case-ignorable characters apart, and none stands after it. *)

Fixpoint skip_ignorable (l : list Z) : list Z :=
  match l with
  | [] => []
  | c :: r => if in_class CASE_IGNORABLE c then skip_ignorable r else l
  end.

Definition cased_next (l : list Z) : bool :=
  match skip_ignorable l with
  | [] => false
  | c :: _ => in_class CASED c
  end.

Definition final_sigma (before_rev after : list Z) : bool :=
  cased_next before_rev && negb (cased_next after).

Fixpoint lower_from (before_rev rest : list Z) : list Z :=
  match rest with
  | [] => []
  | c :: r =>
      (if c =? 0x3A3
       then [if final_sigma before_rev r then 0x3C2 else 0x3C3]
       else lower_cp c)
      ++ lower_from (c :: before_rev) r
  end.

Definition toLowerCase (s : jsstring) : jsstring :=
  utf16 (lower_from [] (code_points s)).

(** *** [String.prototype.trim]: WhiteSpace and LineTerminator *)

Definition WHITE_SPACE : char_class :=
  [(0x9,0xD); (0x20,0x20); (0xA0,0xA0); (0x1680,0x1680); (0x2000,0x200A);
   (0x2028,0x2029); (0x202F,0x202F); (0x205F,0x205F); (0x3000,0x3000);
   (0xFEFF,0xFEFF)].

Fixpoint trimStart (s : jsstring) : jsstring :=
  match s with
  | [] => []
  | c :: r => if in_class WHITE_SPACE c then trimStart r else s
  end.

Definition trimEnd (s : jsstring) : jsstring := rev (trimStart (rev s)).

Definition trim (s : jsstring) : jsstring := trimEnd (trimStart s).

(** *** The [i] flag

    Canonicalize of a pattern without the [u] flag: the uppercase of the
    code unit when that is again one code unit, except that a code unit
    from 128 on never folds into ASCII. *)
Definition canonicalize (ch : Z) : Z :=
  match toUpperCase [ch] with
  | [u] => if (128 <=? ch) && (u <? 128) then ch else u
  | _ => ch
  end.

End Unicode.
Import Unicode.
(** ** VIN checksum (ISO 3779) *)

(** [/^[A-HJ-NPR-Z0-9]{17}$/] *)
Definition VIN_CLASS : char_class :=
  [(cu "A", cu "H"); (cu "J", cu "N"); (cu "P", cu "P"); (cu "R", cu "Z");
   (cu "0", cu "9")].

Definition VIN_RE (s : jsstring) : bool := test_repeat VIN_CLASS 17 17 s.

Definition translit : list (Z * Z) :=
  [(cu "A",1); (cu "B",2); (cu "C",3); (cu "D",4); (cu "E",5); (cu "F",6);
   (cu "G",7); (cu "H",8); (cu "J",1); (cu "K",2); (cu "L",3); (cu "M",4);
   (cu "N",5); (cu "P",7); (cu "R",9); (cu "S",2); (cu "T",3); (cu "U",4);
   (cu "V",5); (cu "W",6); (cu "X",7); (cu "Y",8); (cu "Z",9);
   (cu "0",0); (cu "1",1); (cu "2",2); (cu "3",3); (cu "4",4); (cu "5",5);
   (cu "6",6); (cu "7",7); (cu "8",8); (cu "9",9)].

(** [translit[ch]]: [None] is [undefined]. *)
Fixpoint lookup (tbl : list (Z * Z)) (ch : Z) : option Z :=
  match tbl with
  | [] => None
  | (k, v) :: rest => if k =? ch then Some v else lookup rest ch
  end.

(** [x ?? d] *)
Definition nullish {A} (x : option A) (d : A) : A :=
  match x with Some v => v | None => d end.

Definition weights : list Z := [8;7;6;5;4;3;2;10;0;9;8;7;6;5;4;3;2].

(** [arr.reduce((acc, ch, i) => f(acc, ch, i), init)] *)
Fixpoint reduce_from {A} (f : A -> Z -> nat -> A) (i : nat) (l : list Z) (acc : A) : A :=
  match l with
  | [] => acc
  | ch :: rest => reduce_from f (S i) rest (f acc ch i)
  end.

Definition reduce {A} (f : A -> Z -> nat -> A) (init : A) (l : list Z) : A :=
  reduce_from f 0 l init.

(** One step of the sum.  A number is [Some n]; [None] is [NaN], which is
    what [weights[i]] makes of the sum once [i] runs past the vector. *)
Definition checksum_step (acc : option Z) (ch : Z) (i : nat) : option Z :=
  match acc, nth_error weights i with
  | Some a, Some w => Some (a + nullish (lookup translit ch) 0 * w)
  | _, _ => None
  end.

Definition vinChecksumValid (vin : jsstring) : bool :=
  if negb (VIN_RE vin) then false
  else
    match reduce checksum_step (Some 0) vin with
    | None => false            (* String(NaN) is never one character *)
    | Some sum =>
        let remainder := Z.rem sum 11 in
        let check := if remainder =? 10 then js "X" else String_of_Z remainder in
        match nth_error vin 8 with
        | Some c => str_eqb [c] check
        | None => false
        end
    end.

Definition isLikelyVIN (v : jsstring) : bool := VIN_RE v && vinChecksumValid v.

(** ** The checksum as the standard words it

    The alphabet of a VIN, the transliteration of ISO 3779 (digits stand for
    themselves; the letters run in three rows, A-I on 1-9, J-R on 1-9 and
    S-Z on 2-9, with I, O and Q never used), the weighted sum and the check
    character. *)

Definition VIN_ALPHABET : jsstring := js "ABCDEFGHJKLMNPRSTUVWXYZ0123456789".

Definition VinChar (c : Z) : Prop := In c VIN_ALPHABET.

Definition well_formed_vin (s : jsstring) : Prop :=
  length s = 17%nat /\ Forall VinChar s.

Definition iso_translit (c : Z) : Z :=
  if (cu "0" <=? c) && (c <=? cu "9") then c - cu "0"
  else if (cu "A" <=? c) && (c <=? cu "I") then c - cu "A" + 1
  else if (cu "J" <=? c) && (c <=? cu "R") then c - cu "J" + 1
  else c - cu "S" + 2.

Definition weighted_sum (t : Z -> Z) (s : jsstring) : Z :=
  fold_right Z.add 0 (map (fun p => t (fst p) * snd p) (combine s weights)).

Definition iso_remainder (s : jsstring) : Z := (weighted_sum iso_translit s) mod 11.

Definition expected_check (r : Z) : Z :=
  if r =? 10 then cu "X" else cu "0" + r.


(** ** Input normalizer *)

Inductive Kind := KVin | KPlate | KUnknown.

(** The string the source writes for each kind. *)
Definition kind_name (k : Kind) : jsstring :=
  match k with
  | KVin => js "vin"
  | KPlate => js "plate"
  | KUnknown => js "unknown"
  end.

Definition Kind_eqb (a b : Kind) : bool :=
  match a, b with
  | KVin, KVin | KPlate, KPlate | KUnknown, KUnknown => true
  | _, _ => false
  end.

Record Norm := { kind : Kind; value : jsstring }.

Definition ALNUM : char_class :=
  [(cu "A", cu "Z"); (cu "a", cu "z"); (cu "0", cu "9")].

(** [/[^A-Za-z0-9]/g] *)
Definition NON_ALNUM : Z -> bool := outside ALNUM.

(** The class of [/^[A-ZА-ЯІЇЄҐ0-9]{5,10}$/]: A-Z, the Cyrillic capitals
    U+0410..U+042F, U+0406 (І), U+0407 (Ї), U+0404 (Є), U+0490 (Ґ), 0-9. *)
Definition PLATE_CLASS : char_class :=
  [(cu "A", cu "Z"); (0x410, 0x42F); (0x406, 0x406); (0x407, 0x407);
   (0x404, 0x404); (0x490, 0x490); (cu "0", cu "9")].

Definition PLATE_RE (s : jsstring) : bool := test_repeat PLATE_CLASS 5 10 s.

Definition normalizeQuery (q : jsstring) : Norm :=
  let v := remove_all NON_ALNUM (toUpperCase (trim (str_or q (js "")))) in
  if isLikelyVIN v then {| kind := KVin; value := v |}
  else if PLATE_RE v then {| kind := KPlate; value := v |}
  else {| kind := KUnknown; value := v |}.

(** ** JSON values and [JSON.stringify]

    What the decode registry answers is parsed JSON.  Numbers are the
    integers (the counters of the registry's envelope); an object lists its
    properties in enumeration order, each key once.  [None] in an
    [option JSON] is [undefined]. *)

Module Json.

#[warnings="-register-all"] Inductive JSON :=
| JNull
| JBool (b : bool)
| JNum (n : Z)
| JStr (s : jsstring)
| JArr (items : list JSON)
| JObj (props : list (jsstring * JSON)).

(** [!!v] *)
Definition truthy (v : JSON) : bool :=
  match v with
  | JNull => false
  | JBool b => b
  | JNum n => negb (n =? 0)
  | JStr s => match s with [] => false | _ => true end
  | JArr _ | JObj _ => true
  end.

Definition truthy_opt (v : option JSON) : bool :=
  match v with Some j => truthy j | None => false end.

Fixpoint assoc (key : jsstring) (props : list (jsstring * JSON)) : option JSON :=
  match props with
  | [] => None
  | (k, v) :: rest => if str_eqb k key then Some v else assoc key rest
  end.

(** [v?.key] for a key that is neither an index nor a property of the
    built-in prototypes (the source reads Results, Make, Model, ModelYear,
    BodyClass, VehicleType, PlantCountry): only an object can have it. *)
Definition get_prop (key : jsstring) (v : option JSON) : option JSON :=
  match v with
  | Some (JObj props) => assoc key props
  | _ => None
  end.

(** [v?.[0]]: the first element of an array, the first code unit of a
    string, the property "0" of an object. *)
Definition get_index0 (v : option JSON) : option JSON :=
  match v with
  | Some (JArr items) => nth_error items 0
  | Some (JStr (c :: _)) => Some (JStr [c])
  | Some (JObj props) => assoc (js "0") props
  | _ => None
  end.

Definition hex_digit (n : Z) : Z :=
  if n <? 10 then cu "0" + n else cu "a" + (n - 10).

(** [\uXXXX] *)
Definition unicode_escape (c : Z) : jsstring :=
  js "\u" ++ [hex_digit (c / 4096 mod 16); hex_digit (c / 256 mod 16);
              hex_digit (c / 16 mod 16); hex_digit (c mod 16)].

(** One code unit inside a JSON string; a surrogate reaches this function
    only when it is unpaired. *)
Definition escape_unit (c : Z) : jsstring :=
  if c =? 0x08 then js "\b"
  else if c =? 0x09 then js "\t"
  else if c =? 0x0A then js "\n"
  else if c =? 0x0C then js "\f"
  else if c =? 0x0D then js "\r"
  else if c =? 0x22 then [0x5C; 0x22]
  else if c =? 0x5C then [0x5C; 0x5C]
  else if (c <? 0x20) || is_lead c || is_trail c then unicode_escape c
  else [c].

Fixpoint escape (s : jsstring) : jsstring :=
  match s with
  | [] => []
  | h :: t =>
      match t with
      | l :: t' =>
          if is_lead h && is_trail l then h :: l :: escape t'
          else escape_unit h ++ escape t
      | [] => escape_unit h
      end
  end.

(** QuoteJSONString *)
Definition quote (s : jsstring) : jsstring := [0x22] ++ escape s ++ [0x22].

Fixpoint stringify (v : JSON) : jsstring :=
  match v with
  | JNull => js "null"
  | JBool true => js "true"
  | JBool false => js "false"
  | JNum n => String_of_Z n
  | JStr s => quote s
  | JArr items =>
      js "[" ++ join (js ",") (map stringify items) ++ js "]"
  | JObj props =>
      js "{" ++
      join (js ",") (map (fun kv => quote (fst kv) ++ js ":" ++ stringify (snd kv)) props)
      ++ js "}"
  end.

(** An object literal whose [undefined] properties [JSON.stringify] leaves
    out. *)
Definition object_of (props : list (jsstring * option JSON)) : JSON :=
  JObj (flat_map (fun kv => match snd kv with
                            | Some v => [(fst kv, v)]
                            | None => []
                            end) props).

End Json.
Import Json.

(** ** The state of the graph

    [State = Annotation.Root({ input, norm, aggregates })].  A field that
    may be missing from a JavaScript object is an [option]; [None] is
    [undefined]. *)

Record WebHit := {
  title : option jsstring;
  link : option jsstring;
  snippet : option jsstring
}.

Record Facts := {
  Make : option JSON;
  Model : option JSON;
  ModelYear : option JSON;
  BodyClass : option JSON;
  VehicleType : option JSON;
  PlantCountry : option JSON
}.

Record MarkerEntry := { ok : bool; note : option jsstring }.

(** The markers object; its keys are set in this order. *)
Record Markers := {
  input_type : MarkerEntry;
  vin_checksum : option MarkerEntry;
  vin_decoded : option MarkerEntry;
  web_presence : MarkerEntry;
  risk_flags : MarkerEntry
}.

Record Aggregate := {
  vin : option jsstring;
  plate : option jsstring;
  vinValid : option bool;
  nhtsa : option JSON;
  facts : option Facts;
  webHits : option (list WebHit);
  risks : option (list jsstring);
  markers : option Markers;
  report : option jsstring
}.

(** [{}] *)
Definition empty_aggregate : Aggregate :=
  {| vin := None; plate := None; vinValid := None; nhtsa := None;
     facts := None; webHits := None; risks := None; markers := None;
     report := None |}.

Definition empty_facts : Facts :=
  {| Make := None; Model := None; ModelYear := None; BodyClass := None;
     VehicleType := None; PlantCountry := None |}.

(** Assignments and spreads: [a.vin = v], [{ ...a, webHits }] and so on. *)
Definition set_vin (a : Aggregate) (v : jsstring) : Aggregate :=
  {| vin := Some v; plate := plate a; vinValid := vinValid a; nhtsa := nhtsa a;
     facts := facts a; webHits := webHits a; risks := risks a;
     markers := markers a; report := report a |}.

Definition set_vinValid (a : Aggregate) (v : bool) : Aggregate :=
  {| vin := vin a; plate := plate a; vinValid := Some v; nhtsa := nhtsa a;
     facts := facts a; webHits := webHits a; risks := risks a;
     markers := markers a; report := report a |}.

Definition set_plate (a : Aggregate) (v : jsstring) : Aggregate :=
  {| vin := vin a; plate := Some v; vinValid := vinValid a; nhtsa := nhtsa a;
     facts := facts a; webHits := webHits a; risks := risks a;
     markers := markers a; report := report a |}.

Definition with_nhtsa_facts (a : Aggregate) (n : JSON) (f : Facts) : Aggregate :=
  {| vin := vin a; plate := plate a; vinValid := vinValid a; nhtsa := Some n;
     facts := Some f; webHits := webHits a; risks := risks a;
     markers := markers a; report := report a |}.

Definition with_webHits (a : Aggregate) (h : list WebHit) : Aggregate :=
  {| vin := vin a; plate := plate a; vinValid := vinValid a; nhtsa := nhtsa a;
     facts := facts a; webHits := Some h; risks := risks a;
     markers := markers a; report := report a |}.

Definition with_risks (a : Aggregate) (r : list jsstring) : Aggregate :=
  {| vin := vin a; plate := plate a; vinValid := vinValid a; nhtsa := nhtsa a;
     facts := facts a; webHits := webHits a; risks := Some r;
     markers := markers a; report := report a |}.

Definition with_markers (a : Aggregate) (m : Markers) : Aggregate :=
  {| vin := vin a; plate := plate a; vinValid := vinValid a; nhtsa := nhtsa a;
     facts := facts a; webHits := webHits a; risks := risks a;
     markers := Some m; report := report a |}.

Definition with_report (a : Aggregate) (r : jsstring) : Aggregate :=
  {| vin := vin a; plate := plate a; vinValid := vinValid a; nhtsa := nhtsa a;
     facts := facts a; webHits := webHits a; risks := risks a;
     markers := markers a; report := Some r |}.

Record Input := { q : jsstring }.

Record State := {
  input : Input;
  norm : option Norm;
  aggregates : option Aggregate
}.

(** What a node returns: the channels it sets.  [{}] sets none. *)
Record Patch := {
  patch_norm : option Norm;
  patch_aggregates : option Aggregate
}.

Definition empty_patch : Patch :=
  {| patch_norm := None; patch_aggregates := None |}.

(** ** Collaborators, exceptions and the trace *)

Inductive exn :=
| Error (message : jsstring)     (* new Error(message) *)
| TypeError                      (* a property read on undefined *)
| Rejected (reason : JSON)       (* whatever a collaborator rejects with *)
| GraphError.                    (* raised by the graph library itself *)

Record TavilyResult := {
  r_title : option jsstring;
  r_url : option jsstring;
  r_content : option jsstring
}.

Record TavilyResponse := { results : option (list TavilyResult) }.

(** The data handed to the model: the prompt of [nodeReport] is a fixed
    text around [JSON.stringify] of this object. *)
Record ReportData := {
  d_vin : option jsstring;
  d_plate : option jsstring;
  d_facts : option Facts;
  d_markers : option Markers;
  d_hits : list WebHit
}.

(** The world outside: the decode registry ([axios.get(url).data] for a
    VIN), the search service with its key, and the language model. *)
Record World := {
  nhtsa_get : jsstring -> exn + JSON;
  TAVILY_API_KEY : bool;
  tavily_search : option jsstring -> exn + TavilyResponse;
  model_invoke : ReportData -> exn + jsstring
}.

Inductive Event :=
| Enter (node : jsstring)
| Ran (node : jsstring) (patch : Patch)
| CallDecode (vin : jsstring)
| CallSearch (query : option jsstring)
| CallModel (data : ReportData).

(** A computation that may throw and that appends to the trace. *)
Definition M (A : Type) : Type := list Event -> (exn + A) * list Event.

Definition ret {A} (x : A) : M A := fun log => (inr x, log).

Definition throw {A} (e : exn) : M A := fun log => (inl e, log).

Definition bind {A B} (m : M A) (k : A -> M B) : M B :=
  fun log =>
    match m log with
    | (inr x, log') => k x log'
    | (inl e, log') => (inl e, log')
    end.

Definition emit (ev : Event) : M unit := fun log => (inr tt, log ++ [ev]).

Definition lift {A} (r : exn + A) : M A := fun log => (r, log).

Notation "x <- m ;; k" := (bind m (fun x => k))
  (at level 61, m at next level, right associativity).
Notation "m ;;; k" := (bind m (fun _ => k))
  (at level 61, right associativity).

(** [o.p] where [o] may be [undefined]: reading a property of [undefined]
    throws. *)
Definition defined {A} (o : option A) : M A :=
  match o with Some x => ret x | None => throw TypeError end.

(** ** External calls *)

Definition nhtsaDecodeVin (w : World) (v : jsstring) : M JSON :=
  emit (CallDecode v) ;;; lift (nhtsa_get w v).

Definition webSearch (w : World) (query : option jsstring) : M (list WebHit) :=
  if negb (TAVILY_API_KEY w) then throw (Error (js "Set TAVILY_API_KEY"))
  else
    emit (CallSearch query) ;;;
    res <- lift (tavily_search w query) ;;
    let items :=
      map (fun r => {| title := r_title r; link := r_url r; snippet := r_content r |})
          (match results res with Some l => l | None => [] end) in
    ret items.

(** ** Risk keywords *)

Definition RISK_KEYWORDS : list jsstring :=
  [js "salvage"; js "totaled"; js "accident"; js "crash"; js "flood";
   js "hail"; js "fire"; js "theft"; js "stolen";
   js "copart"; js "iaai"; js "auction"; js "odometer rollback";
   js "mileage rollback"; js "write-off"; js "damaged"; js "repairable"].

(** [/w1|w2|.../i.test(s)]: some word occurs in [s], code units compared
    after [canonicalize]. *)
Fixpoint startsWith_i (p s : jsstring) : bool :=
  match p, s with
  | [], _ => true
  | _ :: _, [] => false
  | a :: p', b :: s' => (canonicalize a =? canonicalize b) && startsWith_i p' s'
  end.

Fixpoint includes_i (p s : jsstring) : bool :=
  startsWith_i p s ||
  match s with
  | [] => false
  | _ :: s' => includes_i p s'
  end.

Definition test_words_i (words : list jsstring) (s : jsstring) : bool :=
  existsb (fun w => includes_i w s) words.

(** [/copart|iaai|auction|salvage/i] *)
Definition AUCTION_RE : jsstring -> bool :=
  test_words_i [js "copart"; js "iaai"; js "auction"; js "salvage"].

(** [set.add(x)] on a [Set] kept in insertion order. *)
Definition set_add (x : jsstring) (s : list jsstring) : list jsstring :=
  if existsb (str_eqb x) s then s else s ++ [x].

(** ** Serialization of the hits *)

Definition opt_str (o : option jsstring) : option JSON :=
  match o with Some s => Some (JStr s) | None => None end.

Definition hit_json (h : WebHit) : JSON :=
  object_of [(js "title", opt_str (title h)); (js "link", opt_str (link h));
             (js "snippet", opt_str (snippet h))].

Definition hits_json (hits : list WebHit) : JSON := JArr (map hit_json hits).

(** ** Nodes

    A node receives the world it may call and the state, and returns a
    patch. *)

(** [x || d] for an array or object that may be undefined. *)
Definition or_default {A} (o : option A) (d : A) : A :=
  match o with Some x => x | None => d end.

Definition nodeNormalize (w : World) (state : State) : M Patch :=
  let norm := normalizeQuery (q (input state)) in
  let aggregates := or_default (aggregates state) empty_aggregate in
  let aggregates :=
    match kind norm with
    | KVin => set_vinValid (set_vin aggregates (value norm))
                           (vinChecksumValid (value norm))
    | _ => aggregates
    end in
  let aggregates :=
    match kind norm with
    | KPlate => set_plate aggregates (value norm)
    | _ => aggregates
    end in
  ret {| patch_norm := Some norm; patch_aggregates := Some aggregates |}.

(** A string that may be undefined, when it is truthy. *)
Definition truthy_str (o : option jsstring) : option jsstring :=
  match o with
  | Some (c :: s) => Some (c :: s)
  | _ => None
  end.

(** The reads inside [try] cannot throw: [row] is never null or undefined. *)
Definition nodeVinInfo (w : World) (state : State) : M Patch :=
  norm <- defined (norm state) ;;
  match kind norm with
  | KVin =>
      aggregates <- defined (aggregates state) ;;
      match truthy_str (vin aggregates) with
      | None => ret empty_patch
      | Some v =>
          nhtsa <- nhtsaDecodeVin w v ;;
          let row0 := get_index0 (get_prop (js "Results") (Some nhtsa)) in
          let row := if truthy_opt row0 then row0 else Some (JObj []) in
          (* { ...(aggregates.facts || {}) } with its six keys assigned *)
          let facts :=
            {| Make := get_prop (js "Make") row;
               Model := get_prop (js "Model") row;
               ModelYear := get_prop (js "ModelYear") row;
               BodyClass := get_prop (js "BodyClass") row;
               VehicleType := get_prop (js "VehicleType") row;
               PlantCountry := get_prop (js "PlantCountry") row |} in
          ret {| patch_norm := None;
                 patch_aggregates := Some (with_nhtsa_facts aggregates nhtsa facts) |}
      end
  | _ => ret empty_patch
  end.

Definition nodeWebSearch (w : World) (state : State) : M Patch :=
  norm <- defined (norm state) ;;
  aggregates <- defined (aggregates state) ;;
  let query :=
    match kind norm with
    | KVin => vin aggregates
    | _ =>
        match truthy_str (plate aggregates) with
        | Some p => Some p
        | None => Some (q (input state))
        end
    end in
  webHits <- webSearch w query ;;
  ret {| patch_norm := None;
         patch_aggregates := Some (with_webHits aggregates webHits) |}.

(** [nodeRisks]: the text the keywords are searched in, the count of the
    hits whose link matches the auction pattern, and the labels. *)
Definition risk_text (aggregates : Aggregate) : jsstring :=
  stringify (hits_json (or_default (webHits aggregates) []))
  ++ js " " ++
  stringify (match nhtsa aggregates with
             | Some j => if truthy j then j else JObj []
             | None => JObj []
             end).

Definition auctionCount (aggregates : Aggregate) : nat :=
  length (filter (fun h => AUCTION_RE (or_default (link h) (js "")))
                 (or_default (webHits aggregates) [])).

Definition compute_risks (aggregates : Aggregate) : list jsstring :=
  let text := risk_text aggregates in
  let risks :=
    fold_left (fun risks kw =>
                 if includes kw (toLowerCase text) then set_add kw risks else risks)
              RISK_KEYWORDS [] in
  if (2 <=? auctionCount aggregates)%nat
  then set_add (js "multiple_auctions") risks
  else risks.

Definition nodeRisks (w : World) (state : State) : M Patch :=
  aggregates <- defined (aggregates state) ;;
  ret {| patch_norm := None;
         patch_aggregates := Some (with_risks aggregates (compute_risks aggregates)) |}.

(** [nodeMarkers]: [aggregates.nhtsa?.Results?.[0]?.Model], and the markers
    object. *)
Definition decoded_model (aggregates : Aggregate) : option JSON :=
  get_prop (js "Model") (get_index0 (get_prop (js "Results") (nhtsa aggregates))).

Definition compute_markers (norm : Norm) (aggregates : Aggregate) : Markers :=
  let decodedOk := truthy_opt (decoded_model aggregates) in
  let hasWeb := (0 <? length (or_default (webHits aggregates) []))%nat in
  let risky := (0 <? length (or_default (risks aggregates) []))%nat in
  {| input_type :=
       {| ok := negb (Kind_eqb (kind norm) KUnknown);
          note := Some (kind_name (kind norm)) |};
     vin_checksum :=
       match kind norm with
       | KVin => Some {| ok := or_default (vinValid aggregates) false;
                         note := vin aggregates |}
       | _ => None
       end;
     vin_decoded :=
       match kind norm with
       | KVin => Some {| ok := decodedOk;
                         note := Some (if decodedOk then js "NHTSA decoded"
                                       else js "no decode") |}
       | _ => None
       end;
     web_presence :=
       {| ok := hasWeb;
          note := Some (if hasWeb
                        then String_of_Z (Z.of_nat (length (or_default (webHits aggregates) [])))
                             ++ js " hits"
                        else js "no hits") |};
     risk_flags :=
       {| ok := negb risky;
          note := Some (if risky
                        then join (js ", ") (or_default (risks aggregates) [])
                        else js "none") |} |}.

Definition nodeMarkers (w : World) (state : State) : M Patch :=
  norm <- defined (norm state) ;;
  aggregates <- defined (aggregates state) ;;
  ret {| patch_norm := None;
         patch_aggregates :=
           Some (with_markers aggregates (compute_markers norm aggregates)) |}.

Definition report_data (aggregates : Aggregate) : ReportData :=
  {| d_vin := vin aggregates;
     d_plate := plate aggregates;
     d_facts := facts aggregates;
     d_markers := markers aggregates;
     d_hits := firstn 8 (or_default (webHits aggregates) []) |}.

Definition nodeReport (w : World) (state : State) : M Patch :=
  aggregates <- defined (aggregates state) ;;
  emit (CallModel (report_data aggregates)) ;;;
  content <- lift (model_invoke w (report_data aggregates)) ;;
  ret {| patch_norm := None;
         patch_aggregates := Some (with_report aggregates content) |}.

(** ** The graph

    [new StateGraph(State).addNode(...).addEdge(...).compile()].  The three
    channels are declared without a reducer, so a patch replaces the channels
    it names and leaves the others.  The compiled graph starts at [START],
    follows the edge that leaves the current node, runs the node it reaches
    and applies its patch, and stops at [END]; an exception thrown by a node
    rejects [invoke] with that exception.  The trace records the node
    entered, the patch it returned, and the calls to the collaborators. *)

Definition START : jsstring := js "__start__".
Definition END : jsstring := js "__end__".

Definition NODES : list (jsstring * (World -> State -> M Patch)) :=
  [(js "normalize", nodeNormalize);
   (js "vin_info", nodeVinInfo);
   (js "web_search", nodeWebSearch);
   (js "risks", nodeRisks);
   (js "markers", nodeMarkers);
   (js "report", nodeReport)].

Definition EDGES : list (jsstring * jsstring) :=
  [(START, js "normalize");
   (js "normalize", js "vin_info");
   (js "vin_info", js "web_search");
   (js "web_search", js "risks");
   (js "risks", js "markers");
   (js "markers", js "report");
   (js "report", END)].

Fixpoint find_by_name {A} (name : jsstring) (l : list (jsstring * A)) : option A :=
  match l with
  | [] => None
  | (k, v) :: rest => if str_eqb k name then Some v else find_by_name name rest
  end.

Definition apply_patch (st : State) (p : Patch) : State :=
  {| input := input st;
     norm := match patch_norm p with Some n => Some n | None => norm st end;
     aggregates := match patch_aggregates p with
                   | Some a => Some a
                   | None => aggregates st
                   end |}.

(** The number of steps after which the library gives up (its default). *)
Definition recursionLimit : nat := 25.

Fixpoint run (w : World) (fuel : nat) (current : jsstring) (st : State) : M State :=
  match find_by_name current EDGES with
  | None => ret st
  | Some next =>
      if str_eqb next END then ret st
      else
        match fuel with
        | O => throw GraphError
        | S fuel' =>
            match find_by_name next NODES with
            | None => throw GraphError
            | Some node =>
                emit (Enter next) ;;;
                p <- node w st ;;
                emit (Ran next p) ;;;
                run w fuel' next (apply_patch st p)
            end
        end
  end.

(** [app.invoke({ input: { q } })], from an empty trace. *)
Definition invoke (w : World) (i : Input) : (exn + State) * list Event :=
  run w recursionLimit START {| input := i; norm := None; aggregates := None |} [].

(** ** Words of the specification

    Predicates and functions that state what the specification says, to be
    compared with the functions of the source above. *)

(** A capital Latin letter or a digit. *)
Definition UpperAlnum (c : Z) : Prop := (65 <= c <= 90) \/ (48 <= c <= 57).

(** Trim, uppercase, strip everything outside [A-Za-z0-9]. *)
Definition clean (q : jsstring) : jsstring :=
  remove_all NON_ALNUM (toUpperCase (trim (str_or q (js "")))).


(** The check character at index 8 is the expected one. *)
Definition PassesChecksum (v : jsstring) : Prop :=
  nth_error v 8 = Some (expected_check (iso_remainder v)).

Definition IsVin (v : jsstring) : Prop := well_formed_vin v /\ PassesChecksum v.

(** The Cyrillic capitals of the plate pattern: А-Я, І, Ї, Є, Ґ. *)
Definition CyrillicCapital (c : Z) : Prop :=
  (0x410 <= c <= 0x42F) \/ c = 0x406 \/ c = 0x407 \/ c = 0x404 \/ c = 0x490.

Definition PlateChar (c : Z) : Prop := UpperAlnum c \/ CyrillicCapital c.

(** [^[A-Z0-9]{5,10}$], extended with the Cyrillic capitals. *)
Definition IsPlateShape (v : jsstring) : Prop :=
  (5 <= length v <= 10)%nat /\ Forall PlateChar v.

(** [^[A-Z0-9]{5,10}$] *)
Definition LATIN_PLATE_CLASS : char_class := [(cu "A", cu "Z"); (cu "0", cu "9")].

(** The plate АА1234ВВ written with the Cyrillic letters U+0410 and U+0412. *)
Definition CYRILLIC_PLATE : jsstring :=
  [0x410; 0x410; cu "1"; cu "2"; cu "3"; cu "4"; 0x412; 0x412].

(** *** The aggregate, field by field *)

Inductive Field :=
| F_vin | F_plate | F_vinValid | F_nhtsa | F_facts | F_webHits | F_risks
| F_markers | F_report.

Inductive FieldValue :=
| V_string (s : jsstring)
| V_bool (b : bool)
| V_json (j : JSON)
| V_facts (f : Facts)
| V_hits (h : list WebHit)
| V_labels (l : list jsstring)
| V_markers (m : Markers).

(** [a[f]]: [None] when the aggregate has no such field. *)
Definition field (f : Field) (a : Aggregate) : option FieldValue :=
  match f with
  | F_vin => option_map V_string (vin a)
  | F_plate => option_map V_string (plate a)
  | F_vinValid => option_map V_bool (vinValid a)
  | F_nhtsa => option_map V_json (nhtsa a)
  | F_facts => option_map V_facts (facts a)
  | F_webHits => option_map V_hits (webHits a)
  | F_risks => option_map V_labels (risks a)
  | F_markers => option_map V_markers (markers a)
  | F_report => option_map V_string (report a)
  end.

(** Every field of [a] is in [b] with the same value. *)
Definition extends (a b : Aggregate) : Prop :=
  forall f v, field f a = Some v -> field f b = Some v.

(** The names of the six stages, in the order of the edges. *)
Definition STAGES : list jsstring :=
  [js "normalize"; js "vin_info"; js "web_search"; js "risks"; js "markers";
   js "report"].

(** The nodes the trace shows as entered. *)
Definition entered (log : list Event) : list jsstring :=
  flat_map (fun ev => match ev with Enter n => [n] | _ => [] end) log.

(** The nodes the trace shows as completed. *)
Definition completed (log : list Event) : list jsstring :=
  flat_map (fun ev => match ev with Ran n _ => [n] | _ => [] end) log.

(** The collaborator calls of a trace. *)
Definition calls (log : list Event) : list Event :=
  filter (fun ev => match ev with
                    | CallDecode _ | CallSearch _ | CallModel _ => true
                    | _ => false
                    end) log.

(** The exception carries the name of a stage: in its message, or in the
    serialization of what the collaborator rejected with. *)
Definition names_stage (stage : jsstring) (e : exn) : bool :=
  match e with
  | Error m => includes stage m
  | TypeError | GraphError => false
  | Rejected r => includes stage (stringify r)
  end.

(** *** The risk evaluator as the specification words it *)

(** The decoded facts as an object. *)
Definition facts_json (f : Facts) : JSON :=
  object_of [(js "Make", Make f); (js "Model", Model f);
             (js "ModelYear", ModelYear f); (js "BodyClass", BodyClass f);
             (js "VehicleType", VehicleType f);
             (js "PlantCountry", PlantCountry f)].

(** "A textual serialization of the web hits and the decoded facts". *)
Definition stated_risk_text (a : Aggregate) : jsstring :=
  stringify (hits_json (or_default (webHits a) []))
  ++ js " " ++
  stringify (facts_json (or_default (facts a) empty_facts)).

(** "Each matched keyword becomes a risk label", over that text. *)
Definition keywords_as_stated (a : Aggregate) : Prop :=
  forall kw, In kw RISK_KEYWORDS ->
    (In kw (compute_risks a) <->
     includes kw (toLowerCase (stated_risk_text a)) = true).

Definition ascii_lower (c : Z) : Z :=
  if (65 <=? c) && (c <=? 90) then c + 32 else c.

(** The string holds, in any letter case, one of copart, iaai, auction,
    salvage. *)
Definition mentions_auction (s : jsstring) : bool :=
  existsb (fun w => includes w (map ascii_lower s))
          [js "copart"; js "iaai"; js "auction"; js "salvage"].

(** The part of [s] after the first occurrence of [sep]; empty when there
    is none. *)
Fixpoint after (sep s : jsstring) : jsstring :=
  if startsWith sep s then skipn (length sep) s
  else match s with
       | [] => []
       | _ :: t => after sep t
       end.

Fixpoint take_until (stops : list Z) (s : jsstring) : jsstring :=
  match s with
  | [] => []
  | c :: t => if existsb (Z.eqb c) stops then [] else c :: take_until stops t
  end.

(** The host of a link [scheme://host:port/path?query#fragment]. *)
Definition link_host (l : jsstring) : jsstring :=
  take_until [cu ":"] (take_until [cu "/"; cu "?"; cu "#"] (after (js "://") l)).

(** "Web hits whose link host matches a known auction-domain pattern". *)
Definition host_auction_count (a : Aggregate) : nat :=
  length (filter (fun h => AUCTION_RE (link_host (or_default (link h) (js ""))))
                 (or_default (webHits a) [])).

Definition multiple_auctions_as_stated (a : Aggregate) : Prop :=
  In (js "multiple_auctions") (compute_risks a) <-> (2 <= host_auction_count a)%nat.

(** "vin_decoded: ok = facts contains a non-empty Model; note = decoded or
    no decode". *)
Definition has_model (a : Aggregate) : bool :=
  match facts a with
  | Some f => truthy_opt (Model f)
  | None => false
  end.

Definition stated_vin_decoded (a : Aggregate) : MarkerEntry :=
  {| ok := has_model a;
     note := Some (if has_model a then js "decoded" else js "no decode") |}.

Definition vin_decoded_as_stated (n : Norm) (a : Aggregate) : Prop :=
  kind n = KVin ->
  vin_decoded (compute_markers n a) = Some (stated_vin_decoded a).

(** *** The failure semantics as the specification words it

    "The raised error identifies the vin_info stage": the exception that
    [invoke] rejects with carries the name of the stage. *)
Definition decode_error_as_stated (w : World) (i : Input) : Prop :=
  forall e, fst (invoke w i) = inl e -> names_stage (js "vin_info") e = true.

(** ** Example worlds *)

(** A decode answer: the envelope of the registry with one result row. *)
Definition ACCORD : JSON :=
  JObj [(js "Count", JNum 1);
        (js "Message", JStr (js "Results returned successfully"));
        (js "Results",
         JArr [JObj [(js "Make", JStr (js "HONDA"));
                     (js "Model", JStr (js "Accord"));
                     (js "ModelYear", JStr (js "2003"));
                     (js "Note", JStr (js "Flood"))]])].

Definition COPART_HIT : TavilyResult :=
  {| r_title := Some (js "Lot 1"); r_url := Some (js "https://www.copart.com/x");
     r_content := None |}.

Definition IAAI_HIT : TavilyResult :=
  {| r_title := Some (js "Lot 2"); r_url := Some (js "https://www.iaai.com/y");
     r_content := None |}.

(** Every collaborator answers. *)
Definition world_up : World :=
  {| nhtsa_get := fun _ => inr ACCORD;
     TAVILY_API_KEY := true;
     tavily_search := fun _ => inr {| results := Some [COPART_HIT; IAAI_HIT] |};
     model_invoke := fun _ => inr (js "Summary.") |}.

(** The decode registry times out. *)
Definition world_decode_down : World :=
  {| nhtsa_get := fun _ => inl (Rejected (JStr (js "timeout of 20000ms exceeded")));
     TAVILY_API_KEY := true;
     tavily_search := fun _ => inr {| results := Some [] |};
     model_invoke := fun _ => inr (js "Summary.") |}.

(** The search service times out with the same words. *)
Definition world_search_down : World :=
  {| nhtsa_get := fun _ => inr ACCORD;
     TAVILY_API_KEY := true;
     tavily_search :=
       fun _ => inl (Rejected (JStr (js "timeout of 20000ms exceeded")));
     model_invoke := fun _ => inr (js "Summary.") |}.

Definition REFERENCE_QUERY : Input := {| q := js "1hgcm82633a004352" |}.

(** The decode registry answers; the search finds nothing. *)
Definition world_quiet : World :=
  {| nhtsa_get := fun _ => inr ACCORD;
     TAVILY_API_KEY := true;
     tavily_search := fun _ => inr {| results := Some [] |};
     model_invoke := fun _ => inr (js "Summary.") |}.

(** The aggregate of [REFERENCE_QUERY] in [world_quiet] when the risk
    evaluator receives it. *)
Definition FLOODED : Aggregate :=
  {| vin := Some (js "1HGCM82633A004352");
     plate := None;
     vinValid := Some true;
     nhtsa := Some ACCORD;
     facts := Some {| Make := Some (JStr (js "HONDA"));
                      Model := Some (JStr (js "Accord"));
                      ModelYear := Some (JStr (js "2003"));
                      BodyClass := None; VehicleType := None;
                      PlantCountry := None |};
     webHits := Some [];
     risks := None; markers := None; report := None |}.

(** Two hits that name an auction in the path of the link only. *)
Definition LISTING_1 : TavilyResult :=
  {| r_title := Some (js "Cars"); r_url := Some (js "https://example.com/auction/1");
     r_content := None |}.

Definition LISTING_2 : TavilyResult :=
  {| r_title := Some (js "Cars"); r_url := Some (js "https://example.org/salvage/2");
     r_content := None |}.

Definition world_listings : World :=
  {| nhtsa_get := fun _ => inr ACCORD;
     TAVILY_API_KEY := true;
     tavily_search := fun _ => inr {| results := Some [LISTING_1; LISTING_2] |};
     model_invoke := fun _ => inr (js "Summary.") |}.

Definition PLATE_QUERY : Input := {| q := js "AB1234CD" |}.

(** The aggregate of [PLATE_QUERY] in [world_listings] when the risk
    evaluator receives it. *)
Definition LISTED : Aggregate :=
  {| vin := None;
     plate := Some (js "AB1234CD");
     vinValid := None; nhtsa := None; facts := None;
     webHits := Some [ {| title := Some (js "Cars");
                          link := Some (js "https://example.com/auction/1");
                          snippet := None |};
                       {| title := Some (js "Cars");
                          link := Some (js "https://example.org/salvage/2");
                          snippet := None |} ];
     risks := None; markers := None; report := None |}.

(** An aggregate that holds two hits, at copart.com and at iaai.com, and
    nothing else. *)
Definition AUCTIONED : Aggregate :=
  {| vin := None; plate := None; vinValid := None; nhtsa := None; facts := None;
     webHits := Some [ {| title := None;
                          link := Some (js "https://www.copart.com/x");
                          snippet := None |};
                       {| title := None;
                          link := Some (js "https://www.iaai.com/y");
                          snippet := None |} ];
     risks := None; markers := None; report := None |}.

(** [FLOODED] when the marker computer receives it, and the normalized
    input that goes with it. *)
Definition FLOODED_RISKS : Aggregate := with_risks FLOODED [js "flood"].

Definition REFERENCE_NORM : Norm :=
  {| kind := KVin; value := js "1HGCM82633A004352" |}.

(** ** Further words for the properties below *)

(** The string [s] with the code unit at index [i] replaced by [c]. *)
Fixpoint set_nth (i : nat) (c : Z) (s : jsstring) : jsstring :=
  match s, i with
  | [], _ => []
  | _ :: r, O => c :: r
  | x :: r, S i' => x :: set_nth i' c r
  end.

Definition ascii_upper (c : Z) : Z :=
  if (97 <=? c) && (c <=? 122) then c - 32 else c.

(** A string of ASCII characters. *)
Definition Ascii (s : jsstring) : Prop := Forall (fun c => 0 <= c < 128) s.

(** [p] occurs in [s] as a run of consecutive code units. *)
Definition occurs_in (p s : jsstring) : Prop := exists x y, s = x ++ p ++ y.

(** What the keywords are written with: small letters, the blank and the
    hyphen. *)
Definition KeywordUnit (c : Z) : Prop := (97 <= c <= 122) \/ c = 32 \/ c = 45.

(** A code unit that is one of these once ASCII capitals are folded: a
    letter of either case, a blank or a hyphen. *)
Definition Plain (c : Z) : Prop := KeywordUnit (ascii_lower c).

(** The text of a hit that the keywords are looked for in. *)
Definition hit_texts (h : WebHit) : list jsstring :=
  flat_map (fun o => match o with Some s => [s] | None => [] end)
           [title h; link h; snippet h].

(** ** The run, case by case

    What [invoke] comes to when the binds of the six nodes are carried
    out: the outcome and the trace for each way the collaborators may
    answer. *)

(** The hit [webSearch] makes of a result. *)
Definition hit_of_result (r : TavilyResult) : WebHit :=
  {| title := r_title r; link := r_url r; snippet := r_content r |}.

(** The facts [nodeVinInfo] reads off a decode response. *)
Definition facts_of_response (j : JSON) : Facts :=
  let row0 := get_index0 (get_prop (js "Results") (Some j)) in
  let row := if truthy_opt row0 then row0 else Some (JObj []) in
  {| Make := get_prop (js "Make") row;
     Model := get_prop (js "Model") row;
     ModelYear := get_prop (js "ModelYear") row;
     BodyClass := get_prop (js "BodyClass") row;
     VehicleType := get_prop (js "VehicleType") row;
     PlantCountry := get_prop (js "PlantCountry") row |}.

(** The aggregate [nodeNormalize] builds from [{}]. *)
Definition normalized (n : Norm) : Aggregate :=
  match kind n with
  | KVin => set_vinValid (set_vin empty_aggregate (value n))
                         (vinChecksumValid (value n))
  | KPlate => set_plate empty_aggregate (value n)
  | KUnknown => empty_aggregate
  end.

(** The query of [nodeWebSearch]. *)
Definition search_query (n : Norm) (a : Aggregate) (i : Input) : option jsstring :=
  match kind n with
  | KVin => vin a
  | _ =>
      match truthy_str (plate a) with
      | Some p => Some p
      | None => Some (q i)
      end
  end.

(** From the search on, for the aggregate [a2] that leaves vin_info and the
    trace [t2] so far. *)
Definition search_onwards (w : World) (i : Input) (n : Norm) (a2 : Aggregate)
    (t2 : list Event) : (exn + State) * list Event :=
  if negb (TAVILY_API_KEY w)
  then (inl (Error (js "Set TAVILY_API_KEY")), t2)
  else
    let query := search_query n a2 i in
    match tavily_search w query with
    | inl e => (inl e, t2 ++ [CallSearch query])
    | inr res =>
        let a3 := with_webHits a2 (map hit_of_result
                                       (or_default (results res) [])) in
        let a4 := with_risks a3 (compute_risks a3) in
        let a5 := with_markers a4 (compute_markers n a4) in
        let t5 :=
          t2 ++
          [CallSearch query;
           Ran (js "web_search")
             {| patch_norm := None; patch_aggregates := Some a3 |};
           Enter (js "risks");
           Ran (js "risks")
             {| patch_norm := None; patch_aggregates := Some a4 |};
           Enter (js "markers");
           Ran (js "markers")
             {| patch_norm := None; patch_aggregates := Some a5 |};
           Enter (js "report");
           CallModel (report_data a5)] in
        match model_invoke w (report_data a5) with
        | inl e => (inl e, t5)
        | inr content =>
            let a6 := with_report a5 content in
            (inr {| input := i; norm := Some n; aggregates := Some a6 |},
             t5 ++ [Ran (js "report")
                      {| patch_norm := None; patch_aggregates := Some a6 |}])
        end
    end.

Definition run_summary (w : World) (i : Input) : (exn + State) * list Event :=
  let n := normalizeQuery (q i) in
  let a1 := normalized n in
  let t1 := [Enter (js "normalize");
             Ran (js "normalize")
               {| patch_norm := Some n; patch_aggregates := Some a1 |};
             Enter (js "vin_info")] in
  match kind n, truthy_str (vin a1) with
  | KVin, Some v =>
      match nhtsa_get w v with
      | inl e => (inl e, t1 ++ [CallDecode v])
      | inr j =>
          let a2 := with_nhtsa_facts a1 j (facts_of_response j) in
          search_onwards w i n a2
            (t1 ++ [CallDecode v;
                    Ran (js "vin_info")
                      {| patch_norm := None; patch_aggregates := Some a2 |};
                    Enter (js "web_search")])
      end
  | _, _ =>
      search_onwards w i n a1
        (t1 ++ [Ran (js "vin_info") empty_patch; Enter (js "web_search")])
  end.

(** The text the search is asked for: the cleaned value of a VIN or a
    plate, the raw input otherwise. *)
Definition query_text (n : Norm) (i : Input) : jsstring :=
  match kind n with
  | KUnknown => q i
  | _ => value n
  end.

(** The decode call of a run, when there is one. *)
Definition decode_call (n : Norm) : list Event :=
  match kind n with
  | KVin => [CallDecode (value n)]
  | _ => []
  end.

(** What is known of the aggregate [a2] and the trace [t2] when the search
    stage is entered. *)
Definition at_search (w : World) (i : Input) (a2 : Aggregate) (t2 : list Event) : Prop :=
  let n := normalizeQuery (q i) in
  search_query n a2 i = Some (query_text n i) /\
  (kind n = KVin ->
     vin a2 = Some (value n) /\ vinValid a2 = Some true /\ plate a2 = None /\
     exists j, nhtsa_get w (value n) = inr j /\ nhtsa a2 = Some j /\
               facts a2 = Some (facts_of_response j)) /\
  (kind n = KPlate ->
     plate a2 = Some (value n) /\ vin a2 = None /\ vinValid a2 = None /\
     nhtsa a2 = None /\ facts a2 = None) /\
  (kind n = KUnknown ->
     plate a2 = None /\ vin a2 = None /\ vinValid a2 = None /\
     nhtsa a2 = None /\ facts a2 = None) /\
  webHits a2 = None /\ risks a2 = None /\ markers a2 = None /\ report a2 = None /\
  calls t2 = decode_call n /\
  entered t2 = [js "normalize"; js "vin_info"; js "web_search"] /\
  completed t2 = [js "normalize"; js "vin_info"].


(** The search key is not set. *)
Definition world_no_key : World :=
  {| nhtsa_get := fun _ => inr ACCORD;
     TAVILY_API_KEY := false;
     tavily_search := fun _ => inr {| results := Some [COPART_HIT; IAAI_HIT] |};
     model_invoke := fun _ => inr (js "Summary.") |}.

(** The decode registry knows nothing of the VIN. *)
Definition world_blank : World :=
  {| nhtsa_get := fun _ => inr (JObj [(js "Count", JNum 0); (js "Results", JArr [])]);
     TAVILY_API_KEY := true;
     tavily_search := fun _ => inr {| results := None |};
     model_invoke := fun _ => inr (js "Summary.") |}.

(** ** Command line

    [process.argv.find(a => a.startsWith('--q='))] and [arg.slice(4)];
    [None] is the usage message and exit code 1. *)
Definition cli_q (argv : list jsstring) : option jsstring :=
  match find (startsWith (js "--q=")) argv with
  | None => None
  | Some arg => Some (skipn 4 arg)
  end.

(** ** What the command line prints of the markers

    [Object.entries(ag.markers || {})], in the order the keys were set, and
    the line printed for each entry. *)
Definition marker_entries (m : Markers) : list (jsstring * MarkerEntry) :=
  [(js "input_type", input_type m)] ++
  match vin_checksum m with Some e => [(js "vin_checksum", e)] | None => [] end ++
  match vin_decoded m with Some e => [(js "vin_decoded", e)] | None => [] end ++
  [(js "web_presence", web_presence m); (js "risk_flags", risk_flags m)].

Definition marker_line (kv : jsstring * MarkerEntry) : jsstring :=
  let (k, v) := kv in
  js "- " ++ k ++ js ": " ++ (if ok v then js "OK" else js "WARN") ++
  match truthy_str (note v) with
  | Some text => js " (" ++ text ++ js ")"
  | None => []
  end.

Definition markers_section (out : State) : list jsstring :=
  let ag := or_default (aggregates out) empty_aggregate in
  match markers ag with
  | Some m => map marker_line (marker_entries m)
  | None => []
  end.
(** * Properties

    ** Facts about the checksum *)

Lemma str_eqb_eq a b : str_eqb a b = true <-> a = b.
Proof.
  revert b. induction a as [| x a IH]; intros [| y b]; simpl;
    try (split; [discriminate | discriminate]); [tauto |].
  rewrite andb_true_iff, Z.eqb_eq, IH. split.
  - intros [-> ->]. reflexivity.
  - intros H. injection H as -> ->. tauto.
Qed.

Lemma in_class_ranges cls c :
  in_class cls c = true <-> exists lo hi, In (lo, hi) cls /\ lo <= c <= hi.
Proof.
  unfold in_class. rewrite existsb_exists. split.
  - intros [[lo hi] [Hin H]]. simpl in H.
    apply andb_true_iff in H. destruct H as [H1 H2].
    exists lo, hi. split; [assumption | lia].
  - intros (lo & hi & Hin & H). exists (lo, hi). split; [assumption | simpl].
    apply andb_true_iff. split; lia.
Qed.

Lemma In_existsb (l : list Z) c : existsb (Z.eqb c) l = true -> In c l.
Proof.
  intros H. apply existsb_exists in H. destruct H as (x & Hx & Hxe).
  apply Z.eqb_eq in Hxe. subst x. exact Hx.
Qed.

Lemma VIN_CLASS_alphabet c : in_class VIN_CLASS c = true <-> VinChar c.
Proof.
  split.
  - intros H. apply in_class_ranges in H. destruct H as (lo & hi & Hin & H).
    unfold VIN_CLASS in Hin. simpl in Hin. unfold cu in Hin. simpl in Hin.
    assert (Hc : (65 <= c <= 72) \/ (74 <= c <= 78) \/ c = 80 \/
                 (82 <= c <= 90) \/ (48 <= c <= 57)).
    { repeat (destruct Hin as [Hin | Hin]; [inversion Hin; subst; lia |]).
      contradiction. }
    clear Hin H.
    assert (E :
      c = 65 \/ c = 66 \/ c = 67 \/ c = 68 \/ c = 69 \/ c = 70 \/ c = 71 \/
      c = 72 \/ c = 74 \/ c = 75 \/ c = 76 \/ c = 77 \/ c = 78 \/ c = 80 \/
      c = 82 \/ c = 83 \/ c = 84 \/ c = 85 \/ c = 86 \/ c = 87 \/ c = 88 \/
      c = 89 \/ c = 90 \/ c = 48 \/ c = 49 \/ c = 50 \/ c = 51 \/ c = 52 \/
      c = 53 \/ c = 54 \/ c = 55 \/ c = 56 \/ c = 57) by lia.
    apply In_existsb.
    repeat (destruct E as [E | E]; [subst c; reflexivity |]).
    subst c; reflexivity.
  - unfold VinChar, VIN_ALPHABET. intros H. simpl in H.
    repeat (destruct H as [H | H]; [subst c; reflexivity |]). contradiction.
Qed.

Lemma VIN_RE_well_formed s : VIN_RE s = true <-> well_formed_vin s.
Proof.
  unfold VIN_RE, test_repeat, well_formed_vin.
  rewrite !andb_true_iff, !Nat.leb_le, forallb_forall, Forall_forall.
  split.
  - intros [[H1 H2] H3]. split; [lia |].
    intros c Hc. apply VIN_CLASS_alphabet. auto.
  - intros [H1 H2]. repeat split; try lia.
    intros c Hc. apply VIN_CLASS_alphabet. auto.
Qed.

Lemma vinChecksumValid_guard s : vinChecksumValid s = true -> VIN_RE s = true.
Proof.
  unfold vinChecksumValid. destruct (VIN_RE s); [reflexivity | discriminate].
Qed.

Lemma translit_iso c : VinChar c -> nullish (lookup translit c) 0 = iso_translit c.
Proof.
  unfold VinChar, VIN_ALPHABET. intros H. simpl in H.
  repeat (destruct H as [H | H]; [subst c; reflexivity |]). contradiction.
Qed.

Lemma iso_translit_nonneg c : VinChar c -> 0 <= iso_translit c <= 9.
Proof.
  unfold VinChar, VIN_ALPHABET. intros H. simpl in H.
  repeat (destruct H as [H | H]; [subst c; vm_compute; split; discriminate |]).
  contradiction.
Qed.

Lemma weighted_sum_ext (t1 t2 : Z -> Z) s :
  Forall (fun c => t1 c = t2 c) s -> weighted_sum t1 s = weighted_sum t2 s.
Proof.
  unfold weighted_sum. generalize weights.
  induction s as [| c s IH]; intros ws H; [reflexivity |].
  destruct ws as [| w ws]; [reflexivity |].
  inversion H; subst. simpl. rewrite (IH ws) by assumption. congruence.
Qed.

Lemma weighted_sum_nonneg (t : Z -> Z) s :
  Forall (fun c => 0 <= t c) s -> 0 <= weighted_sum t s.
Proof.
  unfold weighted_sum.
  assert (Hw : Forall (fun w => 0 <= w) weights)
    by (repeat constructor; discriminate).
  revert Hw. generalize weights.
  induction s as [| c s IH]; intros ws Hw H; [simpl; lia |].
  destruct ws as [| w ws]; [simpl; lia |].
  inversion H; subst. inversion Hw; subst. simpl.
  specialize (IH ws H5 H3). simpl in IH. nia.
Qed.

(** The [reduce] of the source is the weighted sum, and never [NaN], on
    a string of seventeen code units. *)
Lemma reduce_weighted_sum s :
  length s = 17%nat ->
  reduce checksum_step (Some 0) s =
  Some (weighted_sum (fun c => nullish (lookup translit c) 0) s).
Proof.
  intros H.
  do 17 (destruct s as [| ? s]; [discriminate H |]).
  destruct s; [| discriminate H].
  unfold reduce, weighted_sum. cbn -[Z.add Z.mul nullish lookup translit].
  f_equal. ring.
Qed.

Lemma String_of_digit r : 0 <= r < 10 -> String_of_Z r = [cu "0" + r].
Proof.
  intros H.
  assert (E : r = 0 \/ r = 1 \/ r = 2 \/ r = 3 \/ r = 4 \/ r = 5 \/ r = 6 \/
              r = 7 \/ r = 8 \/ r = 9) by lia.
  repeat (destruct E as [E | E]; [subst r; reflexivity |]).
  subst r; reflexivity.
Qed.

Lemma vinChecksumValid_spec vin :
  well_formed_vin vin ->
  vinChecksumValid vin = true <->
  nth_error vin 8 = Some (expected_check (iso_remainder vin)).
Proof.
  intros Hwf. pose proof Hwf as [Hlen Hall].
  unfold vinChecksumValid.
  rewrite (proj2 (VIN_RE_well_formed vin) Hwf). simpl negb. cbv iota.
  rewrite (reduce_weighted_sum vin Hlen).
  rewrite (weighted_sum_ext _ iso_translit vin)
    by (eapply Forall_impl; [| exact Hall]; intros c Hc; apply translit_iso; exact Hc).
  assert (Hnn : 0 <= weighted_sum iso_translit vin).
  { apply weighted_sum_nonneg. eapply Forall_impl; [| exact Hall].
    intros c Hc. apply iso_translit_nonneg in Hc. lia. }
  rewrite Z.rem_mod_nonneg by lia.
  unfold iso_remainder, expected_check.
  set (r := weighted_sum iso_translit vin mod 11).
  assert (Hr : 0 <= r < 11) by (apply Z.mod_pos_bound; lia).
  destruct (nth_error vin 8) as [c |]; [| split; discriminate].
  rewrite str_eqb_eq.
  destruct (r =? 10) eqn:E.
  - split; intros H; [injection H as ->; reflexivity | injection H as ->; reflexivity].
  - apply Z.eqb_neq in E. rewrite String_of_digit by lia.
    split; intros H; injection H as ->; reflexivity.
Qed.

Lemma lookup_translit c : VinChar c -> lookup translit c = Some (iso_translit c).
Proof.
  unfold VinChar, VIN_ALPHABET. intros H. simpl in H.
  repeat (destruct H as [H | H]; [subst c; reflexivity |]). contradiction.
Qed.

Lemma check_slot_replaced (r : jsstring) :
  r <> js "3" ->
  vinChecksumValid (js "1HGCM826" ++ r ++ js "3A004352") = false.
Proof.
  intros Hr. destruct r as [| c [| d r]].
  - reflexivity.
  - unfold vinChecksumValid.
    destruct (VIN_RE (js "1HGCM826" ++ [c] ++ js "3A004352")) eqn:Hre;
      [| reflexivity].
    simpl negb. cbv iota.
    rewrite reduce_weighted_sum by reflexivity.
    unfold weighted_sum.
    cbn -[Z.add Z.mul nullish lookup translit Z.rem].
    rewrite Z.mul_0_r.
    replace (nth_error (js "1HGCM826" ++ [c] ++ js "3A004352") 8) with (Some c)
      by reflexivity.
    change (str_eqb [c] (js "3") = false).
    destruct (str_eqb [c] (js "3")) eqn:E; [| reflexivity].
    apply str_eqb_eq in E. contradiction.
  - unfold vinChecksumValid, VIN_RE, test_repeat.
    replace (length (js "1HGCM826" ++ (c :: d :: r) ++ js "3A004352"))
      with (18 + length r)%nat.
    + replace (18 + length r <=? 17)%nat with false; [| symmetry; apply Nat.leb_gt; lia].
      rewrite andb_false_r. reflexivity.
    + rewrite !length_app. simpl. lia.
Qed.

(** C1.  On every well-formed VIN (seventeen code units of the alphabet
    A-H, J-N, P, R-Z, 0-9) [vinChecksumValid] is the ISO 3779 check: the
    table of the source transliterates every such character as the standard
    does, the weight vector has seventeen entries with 0 in slot 8, and the
    result is [true] exactly when the code unit at index 8 is the expected
    check character of the weighted sum mod 11 ('X' for 10, the decimal
    digit otherwise).  The reference VIN 1HGCM82633A004352 is valid, and
    putting anything but "3" in its check slot makes it invalid. *)
Theorem vinChecksumValid_iso3779 :
  (length weights = 17%nat /\ nth_error weights 8 = Some 0) /\
  (forall vin, well_formed_vin vin ->
     (forall c, In c vin -> lookup translit c = Some (iso_translit c)) /\
     (vinChecksumValid vin = true <->
      nth_error vin 8 = Some (expected_check (iso_remainder vin)))) /\
  vinChecksumValid (js "1HGCM82633A004352") = true /\
  (forall r, r <> js "3" ->
     vinChecksumValid (js "1HGCM826" ++ r ++ js "3A004352") = false).
Proof.
  split; [split; reflexivity |].
  split; [| split; [reflexivity | exact check_slot_replaced]].
  intros vin Hwf. split.
  - intros c Hc. apply lookup_translit.
    destruct Hwf as [_ Hall]. rewrite Forall_forall in Hall. auto.
  - apply vinChecksumValid_spec. exact Hwf.
Qed.

Lemma vinChecksumValid_iso3779_witness :
  well_formed_vin (js "1HGCM82633A004352") /\
  (vinChecksumValid (js "1HGCM82633A004352") = true <->
   nth_error (js "1HGCM82633A004352") 8 =
   Some (expected_check (iso_remainder (js "1HGCM82633A004352")))) /\
  js "X" <> js "3" /\
  vinChecksumValid (js "1HGCM826" ++ js "X" ++ js "3A004352") = false.
Proof.
  assert (Hwf : well_formed_vin (js "1HGCM82633A004352"))
    by (apply VIN_RE_well_formed; reflexivity).
  assert (Hne : js "X" <> js "3") by discriminate.
  split; [exact Hwf |].
  split; [exact (proj2 (proj1 (proj2 vinChecksumValid_iso3779) _ Hwf)) |].
  split; [exact Hne |].
  exact (proj2 (proj2 (proj2 vinChecksumValid_iso3779)) (js "X") Hne).
Defined.

(** C2.  A string that is not exactly seventeen characters of the VIN
    alphabet is rejected; so is, in particular, any string of length 16 or
    18 and any string that holds an I, an O or a Q. *)
Theorem vinChecksumValid_rejects_malformed (s : jsstring) :
  ~ well_formed_vin s \/ length s = 16%nat \/ length s = 18%nat \/
  In (cu "I") s \/ In (cu "O") s \/ In (cu "Q") s ->
  vinChecksumValid s = false.
Proof.
  intros H.
  destruct (vinChecksumValid s) eqn:E; [exfalso | reflexivity].
  apply vinChecksumValid_guard in E. apply VIN_RE_well_formed in E.
  destruct E as [Hlen Hall]. rewrite Forall_forall in Hall.
  assert (HI : ~ VinChar (cu "I")).
  { intros Hin. apply VIN_CLASS_alphabet in Hin. discriminate Hin. }
  assert (HO : ~ VinChar (cu "O")).
  { intros Hin. apply VIN_CLASS_alphabet in Hin. discriminate Hin. }
  assert (HQ : ~ VinChar (cu "Q")).
  { intros Hin. apply VIN_CLASS_alphabet in Hin. discriminate Hin. }
  destruct H as [H | [H | [H | [H | [H | H]]]]].
  - apply H. split; [exact Hlen | apply Forall_forall; exact Hall].
  - lia.
  - lia.
  - apply HI, Hall, H.
  - apply HO, Hall, H.
  - apply HQ, Hall, H.
Qed.

Lemma vinChecksumValid_rejects_malformed_witness :
  vinChecksumValid (js "1HGCM82633A00435") = false /\
  vinChecksumValid (js "1HGCM82633A0043521") = false /\
  vinChecksumValid (js "1HGCM8263IA004352") = false /\
  vinChecksumValid (js "1HGCM82633A00435Q") = false /\
  vinChecksumValid (js "1hgcm82633a004352") = false.
Proof.
  split; [apply vinChecksumValid_rejects_malformed; right; left; reflexivity |].
  split; [apply vinChecksumValid_rejects_malformed; right; right; left; reflexivity |].
  split; [apply vinChecksumValid_rejects_malformed; right; right; right; left;
          simpl; tauto |].
  split; [apply vinChecksumValid_rejects_malformed; do 5 right; simpl; tauto |].
  apply vinChecksumValid_rejects_malformed; left.
  intros [_ Hall]. inversion Hall as [| c l Hc Hrest]; subst.
  inversion Hrest as [| c' l' Hc' _]; subst.
  apply VIN_CLASS_alphabet in Hc'. discriminate Hc'.
Defined.

(** ** Facts about the Unicode tables *)

Lemma find_special_In tbl c l : find_special tbl c = Some l -> In (c, l) tbl.
Proof.
  induction tbl as [| [k v] tbl IH]; simpl; [discriminate |].
  destruct (k =? c) eqn:E.
  - intros H. injection H as ->. apply Z.eqb_eq in E. subst. now left.
  - intros H. right. auto.
Qed.

Lemma find_run_In tbl c u :
  find_run tbl c = Some u ->
  exists r, In r tbl /\ in_run r c = true /\ u = c + snd r.
Proof.
  induction tbl as [| r tbl IH]; simpl; [discriminate |].
  destruct (in_run r c) eqn:E.
  - intros H. injection H as <-. exists r. auto.
  - intros H. destruct (IH H) as (r' & Hin & Hr). exists r'. auto.
Qed.

Lemma in_run_bounds lo hi step d c :
  in_run (lo, hi, step, d) c = true -> lo <= c <= hi.
Proof.
  unfold in_run. rewrite !andb_true_iff. lia.
Qed.

Lemma UPPER_SPECIAL_no_lower :
  forallb (fun kv => forallb (fun x => negb ((97 <=? x) && (x <=? 122))) (snd kv))
          UPPER_SPECIAL = true.
Proof. vm_compute. reflexivity. Qed.

Lemma UPPER_RUNS_no_lower :
  forallb (fun r => let '(lo, hi, _, d) := r in (hi + d <? 97) || (122 <? lo + d))
          UPPER_RUNS = true.
Proof. vm_compute. reflexivity. Qed.

(** Whatever the uppercase of a code point holds, apart from the code point
    itself, is no ASCII lowercase letter. *)
Lemma upper_cp_other c x :
  In x (upper_cp c) -> x = c \/ ~ (97 <= x <= 122).
Proof.
  unfold upper_cp, case_map.
  destruct (find_special UPPER_SPECIAL c) as [l |] eqn:Es.
  - intros Hx. right. apply find_special_In in Es.
    pose proof UPPER_SPECIAL_no_lower as H. rewrite forallb_forall in H.
    specialize (H _ Es). simpl in H. rewrite forallb_forall in H.
    specialize (H _ Hx). apply negb_true_iff in H.
    apply andb_false_iff in H. lia.
  - destruct (find_run UPPER_RUNS c) as [u |] eqn:Er.
    + intros [<- | []]. right.
      apply find_run_In in Er. destruct Er as ([[[lo hi] step] d] & Hin & Hr & ->).
      apply in_run_bounds in Hr.
      pose proof UPPER_RUNS_no_lower as H. rewrite forallb_forall in H.
      specialize (H _ Hin). simpl in H. apply orb_true_iff in H. simpl. lia.
    + intros [<- | []]. now left.
Qed.

Lemma upper_cp_lower_letter c : 97 <= c <= 122 -> upper_cp c = [c - 32].
Proof.
  intros H.
  assert (E : exists n, (n < 26)%nat /\ c = 97 + Z.of_nat n)
    by (exists (Z.to_nat (c - 97)); lia).
  destruct E as (n & Hn & ->).
  do 26 (destruct n as [| n]; [vm_compute; reflexivity |]). lia.
Qed.

Lemma upper_cp_no_lower c x : In x (upper_cp c) -> ~ (97 <= x <= 122).
Proof.
  intros Hx Hr. destruct (upper_cp_other c x Hx) as [-> | H]; [| tauto].
  rewrite upper_cp_lower_letter in Hx by assumption.
  destruct Hx as [Hx | []]. lia.
Qed.

Lemma upper_cp_capital_or_digit c :
  (65 <= c <= 90) \/ (48 <= c <= 57) -> upper_cp c = [c].
Proof.
  intros [H | H].
  - assert (E : exists n, (n < 26)%nat /\ c = 65 + Z.of_nat n)
      by (exists (Z.to_nat (c - 65)); lia).
    destruct E as (n & Hn & ->).
    do 26 (destruct n as [| n]; [vm_compute; reflexivity |]). lia.
  - assert (E : exists n, (n < 10)%nat /\ c = 48 + Z.of_nat n)
      by (exists (Z.to_nat (c - 48)); lia).
    destruct E as (n & Hn & ->).
    do 10 (destruct n as [| n]; [vm_compute; reflexivity |]). lia.
Qed.

Lemma utf16_In y cps :
  In y (utf16 cps) -> In y cps \/ 0xD800 <= y.
Proof.
  unfold utf16. rewrite in_flat_map. intros (cp & Hcp & Hy).
  unfold utf16_unit in Hy. destruct (cp <? 0x10000) eqn:E.
  - destruct Hy as [<- | []]. now left.
  - apply Z.ltb_ge in E. right.
    assert (0 <= (cp - 0x10000) / 0x400) by (apply Z.div_pos; lia).
    assert (0 <= (cp - 0x10000) mod 0x400) by (apply Z.mod_pos_bound; lia).
    destruct Hy as [<- | [<- | []]]; lia.
Qed.

Lemma utf16_bmp cps : Forall (fun c => c < 0x10000) cps -> utf16 cps = cps.
Proof.
  induction 1 as [| c cps Hc _ IH]; [reflexivity |].
  unfold utf16 in *. simpl. rewrite IH. unfold utf16_unit.
  apply Z.ltb_lt in Hc. rewrite Hc. reflexivity.
Qed.

Lemma code_points_cons h l t :
  code_points (h :: l :: t) =
  if is_lead h && is_trail l
  then (0x10000 + (h - 0xD800) * 0x400 + (l - 0xDC00)) :: code_points t
  else h :: code_points (l :: t).
Proof. reflexivity. Qed.

Lemma code_points_no_surrogate s :
  Forall (fun c => c < 0xD800) s -> code_points s = s.
Proof.
  induction 1 as [| h t Hh Ht IH]; [reflexivity |].
  destruct t as [| l t]; [reflexivity |].
  rewrite code_points_cons.
  replace (is_lead h) with false by (unfold is_lead; symmetry; apply andb_false_iff; lia).
  change (false && is_trail l) with false. cbv iota.
  rewrite IH. reflexivity.
Qed.

(** [toUpperCase] never yields an ASCII lowercase letter. *)
Lemma toUpperCase_no_lower s x : In x (toUpperCase s) -> ~ (97 <= x <= 122).
Proof.
  unfold toUpperCase. intros H. apply utf16_In in H. destruct H as [H | H]; [| lia].
  apply in_flat_map in H. destruct H as (c & _ & Hx).
  eapply upper_cp_no_lower; eassumption.
Qed.

(** [toUpperCase] leaves a string of capitals and digits alone. *)
Lemma toUpperCase_fix s : Forall UpperAlnum s -> toUpperCase s = s.
Proof.
  intros H. unfold toUpperCase.
  rewrite code_points_no_surrogate
    by (eapply Forall_impl; [| exact H]; unfold UpperAlnum; simpl; lia).
  assert (E : flat_map upper_cp s = s).
  { induction H as [| c s Hc _ IH]; [reflexivity |].
    simpl. rewrite IH, upper_cp_capital_or_digit by exact Hc. reflexivity. }
  rewrite E. apply utf16_bmp.
  eapply Forall_impl; [| exact H]. unfold UpperAlnum. simpl. lia.
Qed.

Lemma trimStart_fix s :
  Forall (fun c => in_class WHITE_SPACE c = false) s -> trimStart s = s.
Proof.
  intros H. destruct H as [| c s Hc _]; [reflexivity |].
  cbn [trimStart]. rewrite Hc. reflexivity.
Qed.

Lemma trim_fix s :
  Forall (fun c => in_class WHITE_SPACE c = false) s -> trim s = s.
Proof.
  intros H. unfold trim, trimEnd.
  rewrite (trimStart_fix s H).
  rewrite trimStart_fix by (apply Forall_rev; exact H).
  apply rev_involutive.
Qed.

Lemma in_class_ALNUM c :
  in_class ALNUM c = true <-> (65 <= c <= 90) \/ (97 <= c <= 122) \/ (48 <= c <= 57).
Proof.
  unfold in_class, ALNUM, cu. simpl.
  rewrite !orb_true_iff, !andb_true_iff, !Z.leb_le. intuition lia.
Qed.

Lemma UpperAlnum_not_space c : UpperAlnum c -> in_class WHITE_SPACE c = false.
Proof.
  unfold UpperAlnum, in_class, WHITE_SPACE. simpl. intros H.
  rewrite !orb_false_iff, !andb_false_iff, !Z.leb_gt. intuition lia.
Qed.

Lemma UpperAlnum_ALNUM c : UpperAlnum c -> in_class ALNUM c = true.
Proof. intros H. apply in_class_ALNUM. unfold UpperAlnum in H. tauto. Qed.

(** ** The cleaned value *)

Lemma clean_UpperAlnum q : Forall UpperAlnum (clean q).
Proof.
  unfold clean, remove_all, NON_ALNUM, outside. apply Forall_forall. intros c Hc.
  apply filter_In in Hc. destruct Hc as [Hin Hc].
  rewrite negb_involutive in Hc.
  apply toUpperCase_no_lower in Hin. apply in_class_ALNUM in Hc.
  unfold UpperAlnum. lia.
Qed.

Lemma clean_fix v : Forall UpperAlnum v -> clean v = v.
Proof.
  intros H. unfold clean.
  replace (str_or v (js "")) with v by (destruct v; reflexivity).
  rewrite trim_fix
    by (eapply Forall_impl; [| exact H]; exact UpperAlnum_not_space).
  rewrite toUpperCase_fix by exact H.
  unfold remove_all, NON_ALNUM, outside. apply forallb_filter_id.
  apply forallb_forall. rewrite Forall_forall in H.
  intros c Hc. rewrite negb_involutive. apply UpperAlnum_ALNUM. auto.
Qed.

Lemma normalizeQuery_value q : value (normalizeQuery q) = clean q.
Proof.
  unfold normalizeQuery. fold (clean q).
  destruct (isLikelyVIN (clean q)); [reflexivity |].
  destruct (PLATE_RE (clean q)); reflexivity.
Qed.

Lemma in_class_PLATE c : in_class PLATE_CLASS c = true <-> PlateChar c.
Proof.
  unfold in_class, PLATE_CLASS, PlateChar, UpperAlnum, CyrillicCapital, cu. simpl.
  rewrite !orb_true_iff, !andb_true_iff, !Z.leb_le. intuition lia.
Qed.

Lemma in_class_LATIN_PLATE c : in_class LATIN_PLATE_CLASS c = true <-> UpperAlnum c.
Proof.
  unfold in_class, LATIN_PLATE_CLASS, UpperAlnum, cu. simpl.
  rewrite !orb_true_iff, !andb_true_iff, !Z.leb_le. intuition lia.
Qed.

Lemma test_repeat_spec cls (P : Z -> Prop) lo hi s :
  (forall c, in_class cls c = true <-> P c) ->
  test_repeat cls lo hi s = true <-> (lo <= length s <= hi)%nat /\ Forall P s.
Proof.
  intros HP. unfold test_repeat.
  rewrite !andb_true_iff, !Nat.leb_le, forallb_forall, Forall_forall.
  split.
  - intros [[H1 H2] H3]. split; [lia |]. intros c Hc. apply HP. auto.
  - intros [H1 H2]. repeat split; try lia. intros c Hc. apply HP. auto.
Qed.

Lemma PLATE_RE_shape v : PLATE_RE v = true <-> IsPlateShape v.
Proof. apply test_repeat_spec. exact in_class_PLATE. Qed.

Lemma isLikelyVIN_IsVin v : isLikelyVIN v = true <-> IsVin v.
Proof.
  unfold isLikelyVIN, IsVin, PassesChecksum. rewrite andb_true_iff. split.
  - intros [H1 H2]. apply VIN_RE_well_formed in H1. split; [exact H1 |].
    apply vinChecksumValid_spec; assumption.
  - intros [H1 H2]. split; [apply VIN_RE_well_formed; exact H1 |].
    apply vinChecksumValid_spec; assumption.
Qed.

Lemma str_or_empty q : str_or q (js "") = q.
Proof. destruct q; reflexivity. Qed.


(** C4.  Normalizing the value of a normalized input changes nothing. *)
Theorem normalizeQuery_idempotent (q : jsstring) :
  normalizeQuery (value (normalizeQuery q)) = normalizeQuery q.
Proof.
  rewrite normalizeQuery_value.
  unfold normalizeQuery. fold (clean q). fold (clean (clean q)).
  rewrite (clean_fix (clean q) (clean_UpperAlnum q)). reflexivity.
Qed.

Lemma UpperAlnum_not_cyrillic c : UpperAlnum c -> ~ CyrillicCapital c.
Proof. unfold UpperAlnum, CyrillicCapital. lia. Qed.

(** C10.  The cleaned value holds capital Latin letters and digits only, so
    the Cyrillic part of the plate pattern never takes part in a match: the
    plate test is the Latin one, the kind is decided by the cleaned value
    alone, and fewer than five remaining characters give kind unknown.  The
    plate АА1234ВВ, written with Cyrillic letters, keeps "1234" and is
    unknown. *)
Theorem cyrillic_plate_class_unreachable (q : jsstring) :
  let n := normalizeQuery q in
  Forall UpperAlnum (value n) /\
  Forall (fun c => ~ CyrillicCapital c) (value n) /\
  PLATE_RE (value n) = test_repeat LATIN_PLATE_CLASS 5 10 (value n) /\
  kind n = (if isLikelyVIN (value n) then KVin
            else if test_repeat LATIN_PLATE_CLASS 5 10 (value n) then KPlate
            else KUnknown) /\
  ((length (value n) < 5)%nat -> kind n = KUnknown) /\
  normalizeQuery CYRILLIC_PLATE =
    {| kind := KUnknown; value := js "1234" |}.
Proof.
  cbv zeta. rewrite normalizeQuery_value.
  pose proof (clean_UpperAlnum q) as Hc.
  assert (Hp : PLATE_RE (clean q) = test_repeat LATIN_PLATE_CLASS 5 10 (clean q)).
  { unfold PLATE_RE, test_repeat. f_equal.
    transitivity true; [| symmetry]; apply forallb_forall; intros c Hin;
      rewrite Forall_forall in Hc; specialize (Hc c Hin).
    - apply in_class_PLATE. left. exact Hc.
    - apply in_class_LATIN_PLATE. exact Hc. }
  assert (Hk : kind (normalizeQuery q) =
               if isLikelyVIN (clean q) then KVin
               else if PLATE_RE (clean q) then KPlate else KUnknown).
  { unfold normalizeQuery. fold (clean q).
    destruct (isLikelyVIN (clean q)); [reflexivity |].
    destruct (PLATE_RE (clean q)); reflexivity. }
  split; [exact Hc |].
  split; [eapply Forall_impl; [| exact Hc]; exact UpperAlnum_not_cyrillic |].
  split; [exact Hp |].
  split; [rewrite Hk, Hp; reflexivity |].
  split; [| vm_compute; reflexivity].
  intros Hlen. rewrite Hk, Hp.
  assert (Hv : isLikelyVIN (clean q) = false).
  { unfold isLikelyVIN, VIN_RE, test_repeat.
    replace (17 <=? length (clean q))%nat with false
      by (symmetry; apply Nat.leb_gt; lia).
    reflexivity. }
  rewrite Hv. unfold test_repeat.
  replace (5 <=? length (clean q))%nat with false
    by (symmetry; apply Nat.leb_gt; lia).
  reflexivity.
Qed.

Lemma cyrillic_plate_class_unreachable_witness :
  (length (value (normalizeQuery CYRILLIC_PLATE)) < 5)%nat /\
  kind (normalizeQuery CYRILLIC_PLATE) = KUnknown.
Proof.
  assert (H : (length (value (normalizeQuery
                 CYRILLIC_PLATE)) < 5)%nat)
    by (vm_compute; lia).
  split; [exact H |].
  exact (proj1 (proj2 (proj2 (proj2 (proj2
           (cyrillic_plate_class_unreachable
              CYRILLIC_PLATE)))))
         H).
Defined.

(** *** Inputs of the command line *)

Example normalizeQuery_copied_vin :
  normalizeQuery (js " 1hgcm826-33a004352 ") =
  {| kind := KVin; value := js "1HGCM82633A004352" |}.
Proof. vm_compute. reflexivity. Qed.

Example normalizeQuery_plate :
  normalizeQuery (js "AB1234CD") = {| kind := KPlate; value := js "AB1234CD" |}.
Proof. vm_compute. reflexivity. Qed.

(** The identifier of the usage line is cleaned to seventeen characters of
    the VIN alphabet; its ninth character is not the check character of the
    other sixteen, and seventeen characters are too many for a plate. *)
Example normalizeQuery_usage_line :
  normalizeQuery (js "wvwzzz1jzxw-000001") =
    {| kind := KUnknown; value := js "WVWZZZ1JZXW000001" |} /\
  expected_check (iso_remainder (js "WVWZZZ1JZXW000001")) = cu "0".
Proof. vm_compute. split; reflexivity. Qed.

(** ** The risk evaluator *)

Lemma existsb_str_eqb x s : existsb (str_eqb x) s = true <-> In x s.
Proof.
  rewrite existsb_exists. split.
  - intros (y & Hy & E). apply str_eqb_eq in E. subst. exact Hy.
  - intros H. exists x. split; [exact H | apply str_eqb_eq; reflexivity].
Qed.

Lemma set_add_new x s : ~ In x s -> set_add x s = s ++ [x].
Proof.
  intros H. unfold set_add.
  destruct (existsb (str_eqb x) s) eqn:E; [| reflexivity].
  apply existsb_str_eqb in E. contradiction.
Qed.

(** Adding the matching elements of a duplicate-free list one by one to a
    set that holds none of them appends them in order. *)
Lemma fold_set_add (P : jsstring -> bool) l acc :
  NoDup l -> (forall x, In x l -> ~ In x acc) ->
  fold_left (fun r kw => if P kw then set_add kw r else r) l acc =
  acc ++ filter P l.
Proof.
  revert acc. induction l as [| x l IH]; intros acc Hnd Hdis.
  - simpl. rewrite app_nil_r. reflexivity.
  - inversion Hnd as [| ? ? Hx Hnd']; subst. simpl.
    destruct (P x).
    + rewrite set_add_new by (apply Hdis; now left).
      rewrite IH; [rewrite <- app_assoc; reflexivity | exact Hnd' |].
      intros y Hy Hin. apply in_app_or in Hin. destruct Hin as [Hin | [-> | []]].
      * apply (Hdis y); [now right | exact Hin].
      * contradiction.
    + apply IH; [exact Hnd' |]. intros y Hy. apply Hdis. now right.
Qed.

Lemma RISK_KEYWORDS_NoDup : NoDup RISK_KEYWORDS.
Proof.
  unfold RISK_KEYWORDS.
  repeat (constructor;
          [let H := fresh in
           intros H; simpl in H;
           repeat (destruct H as [H | H]; [discriminate H |]); exact H |]).
  constructor.
Qed.

Lemma multiple_auctions_no_keyword : ~ In (js "multiple_auctions") RISK_KEYWORDS.
Proof.
  intros H. unfold RISK_KEYWORDS in H. simpl in H.
  repeat (destruct H as [H | H]; [discriminate H |]). exact H.
Qed.

(** The labels are the matching keywords in the order of the list, followed
    by multiple_auctions when two hits or more are counted. *)
Lemma compute_risks_eq a :
  compute_risks a =
  filter (fun kw => includes kw (toLowerCase (risk_text a))) RISK_KEYWORDS ++
  (if (2 <=? auctionCount a)%nat then [js "multiple_auctions"] else []).
Proof.
  unfold compute_risks. cbv zeta.
  rewrite (fold_set_add _ RISK_KEYWORDS [] RISK_KEYWORDS_NoDup)
    by (intros x _ []).
  cbn [app].
  destruct (2 <=? auctionCount a)%nat; [| rewrite app_nil_r; reflexivity].
  apply set_add_new. intros H. apply filter_In in H.
  exact (multiple_auctions_no_keyword (proj1 H)).
Qed.

(** C7, as the code has it.  The text searched is the serialization of the
    hits, a blank, and the serialization of the raw decode response
    ([aggregates.nhtsa], not the extracted facts), lower-cased.  A keyword
    of the list is a label exactly when the text includes it; every label is
    a keyword or multiple_auctions; no label occurs twice; the node makes no
    call and its result depends on the state alone. *)
Theorem risk_keywords_from_text (a : Aggregate) :
  risk_text a =
    stringify (hits_json (or_default (webHits a) [])) ++ js " " ++
    stringify (match nhtsa a with
               | Some j => if truthy j then j else JObj []
               | None => JObj []
               end) /\
  (forall kw, In kw RISK_KEYWORDS ->
     (In kw (compute_risks a) <->
      includes kw (toLowerCase (risk_text a)) = true)) /\
  (forall l, In l (compute_risks a) ->
     In l RISK_KEYWORDS \/ l = js "multiple_auctions") /\
  NoDup (compute_risks a) /\
  (forall w w' st log log',
     snd (nodeRisks w st log) = log /\
     fst (nodeRisks w st log) = fst (nodeRisks w' st log')).
Proof.
  split; [reflexivity |].
  rewrite compute_risks_eq.
  split; [| split; [| split]].
  - intros kw Hkw. rewrite in_app_iff, filter_In. split.
    + intros [[_ H] | H]; [exact H |].
      destruct (2 <=? auctionCount a)%nat; [| destruct H].
      destruct H as [<- | []]. destruct (multiple_auctions_no_keyword Hkw).
    + intros H. left. split; assumption.
  - intros l Hl. apply in_app_or in Hl. destruct Hl as [Hl | Hl].
    + left. apply filter_In in Hl. tauto.
    + right. destruct (2 <=? auctionCount a)%nat; [| destruct Hl].
      destruct Hl as [<- | []]. reflexivity.
  - apply NoDup_app.
    + apply NoDup_filter. exact RISK_KEYWORDS_NoDup.
    + destruct (2 <=? auctionCount a)%nat; repeat constructor. intros [].
    + intros x Hx Hm. apply filter_In in Hx.
      destruct (2 <=? auctionCount a)%nat; [| destruct Hm].
      destruct Hm as [<- | []]. exact (multiple_auctions_no_keyword (proj1 Hx)).
  - intros w w' st log log'. unfold nodeRisks, bind, defined, ret, throw.
    destruct (aggregates st); split; reflexivity.
Qed.

Lemma risk_keywords_from_text_witness :
  In (js "flood") (compute_risks FLOODED) <->
  includes (js "flood") (toLowerCase (risk_text FLOODED)) = true.
Proof.
  refine (proj1 (proj2 (risk_keywords_from_text FLOODED)) (js "flood") _).
  unfold RISK_KEYWORDS. simpl. tauto.
Defined.

Lemma FLOODED_reached :
  nth_error (snd (invoke world_quiet REFERENCE_QUERY)) 7 =
  Some (Ran (js "web_search")
          {| patch_norm := None; patch_aggregates := Some FLOODED |}).
Proof. vm_compute. reflexivity. Qed.

(** C7, as the specification words it, fails: the registry's answer for the
    reference VIN mentions a flood in a field that is not among the six
    decoded facts; with no hits at all the label flood is raised, yet the
    serialization of the hits and the facts does not hold the word. *)
Lemma risks_read_raw_response : ~ keywords_as_stated FLOODED.
Proof.
  intros H. specialize (H (js "flood")).
  assert (Hk : In (js "flood") RISK_KEYWORDS)
    by (unfold RISK_KEYWORDS; simpl; tauto).
  assert (Hr : In (js "flood") (compute_risks FLOODED))
    by (vm_compute; left; reflexivity).
  apply (proj1 (H Hk)) in Hr. vm_compute in Hr. discriminate Hr.
Qed.

(** *** The [i] flag on ASCII words *)

Lemma UPPER_tables_nonneg :
  forallb (fun kv => 0 <=? fst kv) UPPER_SPECIAL = true /\
  forallb (fun r => let '(lo, _, _, _) := r in 0 <=? lo) UPPER_RUNS = true.
Proof. split; vm_compute; reflexivity. Qed.

Lemma upper_cp_negative b : b < 0 -> upper_cp b = [b].
Proof.
  intros Hb. unfold upper_cp, case_map.
  destruct UPPER_tables_nonneg as [Hs Hr].
  rewrite forallb_forall in Hs, Hr.
  destruct (find_special UPPER_SPECIAL b) as [l |] eqn:Es.
  - apply find_special_In in Es. apply Hs in Es. simpl in Es.
    apply Z.leb_le in Es. lia.
  - destruct (find_run UPPER_RUNS b) as [u |] eqn:Er; [| reflexivity].
    apply find_run_In in Er. destruct Er as ([[[lo hi] step] d] & Hin & Hrun & _).
    apply in_run_bounds in Hrun. apply Hr in Hin. apply Z.leb_le in Hin. lia.
Qed.

Lemma canonicalize_negative b : b < 0 -> canonicalize b = b.
Proof.
  intros Hb. unfold canonicalize, toUpperCase. cbn [code_points flat_map].
  rewrite app_nil_r, upper_cp_negative by exact Hb.
  unfold utf16. cbn [flat_map]. unfold utf16_unit.
  replace (b <? 0x10000) with true by (symmetry; apply Z.ltb_lt; lia).
  cbn [app]. destruct ((128 <=? b) && (b <? 128)); reflexivity.
Qed.

Lemma canonicalize_ascii b :
  0 <= b < 128 ->
  canonicalize b = if (97 <=? b) && (b <=? 122) then b - 32 else b.
Proof.
  intros H.
  assert (E : exists n, (n < 128)%nat /\ b = Z.of_nat n)
    by (exists (Z.to_nat b); lia).
  destruct E as (n & Hn & ->).
  do 128 (destruct n as [| n]; [vm_compute; reflexivity |]). lia.
Qed.

Lemma canonicalize_high b : 128 <= b -> 128 <= canonicalize b.
Proof.
  intros H. unfold canonicalize.
  destruct (toUpperCase [b]) as [| u [| ? ?]]; try exact H.
  destruct (128 <=? b) eqn:E1; destruct (u <? 128) eqn:E2; cbn [andb];
    try exact H.
  - apply Z.ltb_ge in E2. exact E2.
  - apply Z.leb_gt in E1. lia.
  - apply Z.leb_gt in E1. lia.
Qed.

(** A lowercase ASCII letter of a pattern under the [i] flag matches the
    letter itself and its capital, and nothing else. *)
Lemma canonicalize_letter p b :
  97 <= p <= 122 ->
  (canonicalize p =? canonicalize b) = (p =? ascii_lower b).
Proof.
  intros Hp.
  rewrite (canonicalize_ascii p) by lia.
  replace ((97 <=? p) && (p <=? 122)) with true
    by (symmetry; apply andb_true_iff; lia).
  unfold ascii_lower.
  destruct (Z_lt_le_dec b 0) as [Hneg | Hnn].
  - rewrite canonicalize_negative by exact Hneg.
    replace ((65 <=? b) && (b <=? 90)) with false
      by (symmetry; apply andb_false_iff; lia).
    transitivity false; [| symmetry]; apply Z.eqb_neq; lia.
  - destruct (Z_lt_le_dec b 128) as [Hlo | Hhi].
    + rewrite (canonicalize_ascii b) by lia.
      destruct ((97 <=? b) && (b <=? 122)) eqn:E1;
        destruct ((65 <=? b) && (b <=? 90)) eqn:E2;
        rewrite ?andb_true_iff, ?andb_false_iff, ?Z.leb_le, ?Z.leb_gt in E1, E2;
        destruct (Z.eqb_spec (p - 32) (b - 32));
        destruct (Z.eqb_spec (p - 32) b);
        destruct (Z.eqb_spec p (b + 32));
        destruct (Z.eqb_spec p b); try reflexivity; lia.
    + pose proof (canonicalize_high b Hhi).
      replace ((65 <=? b) && (b <=? 90)) with false
        by (symmetry; apply andb_false_iff; lia).
      transitivity false; [| symmetry]; apply Z.eqb_neq; lia.
Qed.

Lemma startsWith_i_ascii w s :
  Forall (fun p => 97 <= p <= 122) w ->
  startsWith_i w s = startsWith w (map ascii_lower s).
Proof.
  intros Hw. revert s. induction Hw as [| p w Hp _ IH]; intros s.
  - destruct s; reflexivity.
  - destruct s as [| b s]; [reflexivity |].
    cbn [startsWith_i startsWith map].
    rewrite canonicalize_letter by exact Hp. rewrite IH. reflexivity.
Qed.

Lemma includes_i_ascii w s :
  Forall (fun p => 97 <= p <= 122) w ->
  includes_i w s = includes w (map ascii_lower s).
Proof.
  intros Hw. induction s as [| b s IH].
  - cbn [includes_i includes map]. rewrite startsWith_i_ascii by exact Hw.
    reflexivity.
  - cbn [includes_i includes map]. rewrite IH.
    rewrite (startsWith_i_ascii w (b :: s)) by exact Hw. reflexivity.
Qed.

Lemma lowercase_word (w : jsstring) :
  forallb (fun p => (97 <=? p) && (p <=? 122)) w = true ->
  Forall (fun p => 97 <= p <= 122) w.
Proof.
  intros H. apply Forall_forall. intros p Hp.
  rewrite forallb_forall in H. specialize (H p Hp).
  apply andb_true_iff in H. lia.
Qed.

(** The auction pattern is a search for the four words with the ASCII
    capitals folded. *)
Lemma AUCTION_RE_mentions s : AUCTION_RE s = mentions_auction s.
Proof.
  unfold AUCTION_RE, test_words_i, mentions_auction. cbn [existsb].
  rewrite !includes_i_ascii by (apply lowercase_word; reflexivity).
  reflexivity.
Qed.

(** C8, as the code has it.  multiple_auctions is a label exactly when at
    least two hits are counted, and a hit is counted when its link (the
    whole string, the empty string when the hit has none) holds copart,
    iaai, auction or salvage in any letter case.  Two hits at copart.com and
    iaai.com give the labels copart, iaai and multiple_auctions. *)
Theorem multiple_auctions_rule (a : Aggregate) :
  (In (js "multiple_auctions") (compute_risks a) <-> (2 <= auctionCount a)%nat) /\
  auctionCount a =
    length (filter (fun h => mentions_auction (or_default (link h) (js "")))
                   (or_default (webHits a) [])) /\
  compute_risks AUCTIONED = [js "copart"; js "iaai"; js "multiple_auctions"].
Proof.
  split; [| split; [| vm_compute; reflexivity]].
  - rewrite compute_risks_eq, in_app_iff, filter_In.
    destruct (2 <=? auctionCount a)%nat eqn:E.
    + apply Nat.leb_le in E. split; [intros _; exact E | intros _; right; now left].
    + apply Nat.leb_gt in E. split.
      * intros [[H _] | []]. destruct (multiple_auctions_no_keyword H).
      * lia.
  - unfold auctionCount. f_equal. apply filter_ext.
    intros h. apply AUCTION_RE_mentions.
Qed.

Lemma LISTED_reached :
  nth_error (snd (invoke world_listings PLATE_QUERY)) 6 =
  Some (Ran (js "web_search")
          {| patch_norm := None; patch_aggregates := Some LISTED |}).
Proof. vm_compute. reflexivity. Qed.

Lemma LISTED_hosts :
  map (fun h => link_host (or_default (link h) (js "")))
      (or_default (webHits LISTED) []) =
  [js "example.com"; js "example.org"].
Proof. vm_compute. reflexivity. Qed.

(** C8, as the specification words it, fails: the pattern is tried on the
    whole link, not on its host.  Two hits at example.com and example.org
    whose paths say auction and salvage raise multiple_auctions although no
    host matches. *)
Lemma path_match_is_counted : ~ multiple_auctions_as_stated LISTED.
Proof.
  intros H.
  assert (Hr : In (js "multiple_auctions") (compute_risks LISTED))
    by (vm_compute; right; right; left; reflexivity).
  apply (proj1 H) in Hr. vm_compute in Hr. lia.
Qed.

(** ** The executor *)

Section Runs.

Context {A B : Type}.

Lemma bind_inr (m : M A) (k : A -> M B) log y log' :
  bind m k log = (inr y, log') ->
  exists x l1, m log = (inr x, l1) /\ k x l1 = (inr y, log').
Proof.
  unfold bind. destruct (m log) as [[e | x] l1]; [discriminate |].
  intros H. exists x, l1. split; [reflexivity | exact H].
Qed.

Lemma bind_inl (m : M A) (k : A -> M B) log e l1 :
  m log = (inl e, l1) -> bind m k log = (inl e, l1).
Proof. unfold bind. intros ->. reflexivity. Qed.

Lemma bind_step (m : M A) (k : A -> M B) log x l1 :
  m log = (inr x, l1) -> bind m k log = k x l1.
Proof. unfold bind. intros ->. reflexivity. Qed.

End Runs.

Lemma defined_inr {A} (o : option A) log x log' :
  defined o log = (inr x, log') -> o = Some x /\ log' = log.
Proof.
  destruct o as [y |]; simpl; [| discriminate].
  unfold ret. intros H. injection H as -> ->. split; reflexivity.
Qed.

(** The compiled graph is the six nodes in the order of the edges. *)
Lemma invoke_unfold w i :
  invoke w i =
  (let st0 := {| input := i; norm := None; aggregates := None |} in
   emit (Enter (js "normalize")) ;;;
   p1 <- nodeNormalize w st0 ;;
   emit (Ran (js "normalize") p1) ;;;
   let st1 := apply_patch st0 p1 in
   emit (Enter (js "vin_info")) ;;;
   p2 <- nodeVinInfo w st1 ;;
   emit (Ran (js "vin_info") p2) ;;;
   let st2 := apply_patch st1 p2 in
   emit (Enter (js "web_search")) ;;;
   p3 <- nodeWebSearch w st2 ;;
   emit (Ran (js "web_search") p3) ;;;
   let st3 := apply_patch st2 p3 in
   emit (Enter (js "risks")) ;;;
   p4 <- nodeRisks w st3 ;;
   emit (Ran (js "risks") p4) ;;;
   let st4 := apply_patch st3 p4 in
   emit (Enter (js "markers")) ;;;
   p5 <- nodeMarkers w st4 ;;
   emit (Ran (js "markers") p5) ;;;
   let st5 := apply_patch st4 p5 in
   emit (Enter (js "report")) ;;;
   p6 <- nodeReport w st5 ;;
   emit (Ran (js "report") p6) ;;;
   ret (apply_patch st5 p6)) [].
Proof. reflexivity. Qed.

Lemma emit_run ev log : emit ev log = (inr tt, log ++ [ev]).
Proof. reflexivity. Qed.

(** *** What each node returns when it returns *)

Lemma nodeNormalize_initial w i log :
  let n := normalizeQuery (q i) in
  exists a1,
    nodeNormalize w {| input := i; norm := None; aggregates := None |} log =
      (inr {| patch_norm := Some n; patch_aggregates := Some a1 |}, log) /\
    (nhtsa a1 = None /\ facts a1 = None /\ webHits a1 = None /\
     risks a1 = None /\ markers a1 = None /\ report a1 = None) /\
    (kind n = KVin ->
       vin a1 = Some (value n) /\
       vinValid a1 = Some (vinChecksumValid (value n)) /\ plate a1 = None) /\
    (kind n = KPlate ->
       plate a1 = Some (value n) /\ vin a1 = None /\ vinValid a1 = None) /\
    (kind n = KUnknown -> vin a1 = None /\ plate a1 = None /\ vinValid a1 = None).
Proof.
  intros n. unfold nodeNormalize, ret.
  cbn [input aggregates or_default]. fold n.
  destruct (kind n) eqn:E; eexists; (split; [reflexivity |]);
    unfold set_vinValid, set_vin, set_plate, empty_aggregate;
    cbn [vin plate vinValid nhtsa facts webHits risks markers report];
    repeat split; intros; try discriminate; reflexivity.
Qed.

Lemma nodeVinInfo_inr w st log p log' :
  nodeVinInfo w st log = (inr p, log') ->
  (p = empty_patch /\ log' = log) \/
  (exists a v j f,
     aggregates st = Some a /\ truthy_str (vin a) = Some v /\
     nhtsa_get w v = inr j /\ log' = log ++ [CallDecode v] /\
     p = {| patch_norm := None;
            patch_aggregates := Some (with_nhtsa_facts a j f) |}).
Proof.
  unfold nodeVinInfo. intros H.
  apply bind_inr in H. destruct H as (n & l1 & Hn & H).
  apply defined_inr in Hn. destruct Hn as [Hn ->].
  destruct (kind n).
  - apply bind_inr in H. destruct H as (a & l2 & Ha & H).
    apply defined_inr in Ha. destruct Ha as [Ha ->].
    destruct (truthy_str (vin a)) as [v |] eqn:Ev.
    + apply bind_inr in H. destruct H as (j & l3 & Hj & H).
      unfold nhtsaDecodeVin in Hj.
      apply bind_inr in Hj. destruct Hj as ([] & l4 & He & Hj).
      rewrite emit_run in He. injection He as <-.
      unfold lift in Hj. injection Hj as Hj <-.
      unfold ret in H. injection H as <- <-.
      right. do 4 eexists. repeat split; try eassumption; reflexivity.
    + unfold ret in H. injection H as <- <-. left. split; reflexivity.
  - unfold ret in H. injection H as <- <-. left. split; reflexivity.
  - unfold ret in H. injection H as <- <-. left. split; reflexivity.
Qed.

Lemma nodeWebSearch_inr w st log p log' :
  nodeWebSearch w st log = (inr p, log') ->
  exists a query h,
    aggregates st = Some a /\ log' = log ++ [CallSearch query] /\
    p = {| patch_norm := None; patch_aggregates := Some (with_webHits a h) |}.
Proof.
  unfold nodeWebSearch. intros H.
  apply bind_inr in H. destruct H as (n & l1 & Hn & H).
  apply defined_inr in Hn. destruct Hn as [Hn ->].
  apply bind_inr in H. destruct H as (a & l2 & Ha & H).
  apply defined_inr in Ha. destruct Ha as [Ha ->].
  apply bind_inr in H. destruct H as (h & l3 & Hh & H).
  unfold ret in H. injection H as <- <-.
  unfold webSearch in Hh.
  destruct (negb (TAVILY_API_KEY w)); [discriminate Hh |].
  apply bind_inr in Hh. destruct Hh as ([] & l4 & He & Hh).
  rewrite emit_run in He. injection He as <-.
  apply bind_inr in Hh. destruct Hh as (res & l5 & Hres & Hh).
  unfold lift in Hres. injection Hres as Hres <-.
  unfold ret in Hh. injection Hh as <- <-.
  do 3 eexists. repeat split; try eassumption; reflexivity.
Qed.

Lemma nodeRisks_inr w st log p log' :
  nodeRisks w st log = (inr p, log') ->
  exists a,
    aggregates st = Some a /\ log' = log /\
    p = {| patch_norm := None;
           patch_aggregates := Some (with_risks a (compute_risks a)) |}.
Proof.
  unfold nodeRisks. intros H.
  apply bind_inr in H. destruct H as (a & l1 & Ha & H).
  apply defined_inr in Ha. destruct Ha as [Ha ->].
  unfold ret in H. injection H as <- <-.
  exists a. repeat split; assumption.
Qed.

Lemma nodeMarkers_inr w st log p log' :
  nodeMarkers w st log = (inr p, log') ->
  exists n a,
    norm st = Some n /\ aggregates st = Some a /\ log' = log /\
    p = {| patch_norm := None;
           patch_aggregates := Some (with_markers a (compute_markers n a)) |}.
Proof.
  unfold nodeMarkers. intros H.
  apply bind_inr in H. destruct H as (n & l1 & Hn & H).
  apply defined_inr in Hn. destruct Hn as [Hn ->].
  apply bind_inr in H. destruct H as (a & l2 & Ha & H).
  apply defined_inr in Ha. destruct Ha as [Ha ->].
  unfold ret in H. injection H as <- <-.
  exists n, a. repeat split; assumption.
Qed.

Lemma nodeReport_inr w st log p log' :
  nodeReport w st log = (inr p, log') ->
  exists a content,
    aggregates st = Some a /\ model_invoke w (report_data a) = inr content /\
    log' = log ++ [CallModel (report_data a)] /\
    p = {| patch_norm := None; patch_aggregates := Some (with_report a content) |}.
Proof.
  unfold nodeReport. intros H.
  apply bind_inr in H. destruct H as (a & l1 & Ha & H).
  apply defined_inr in Ha. destruct Ha as [Ha ->].
  apply bind_inr in H. destruct H as ([] & l2 & He & H).
  rewrite emit_run in He. injection He as <-.
  apply bind_inr in H. destruct H as (c & l3 & Hc & H).
  unfold lift in Hc. injection Hc as Hc <-.
  unfold ret in H. injection H as <- <-.
  exists a, c. repeat split; assumption.
Qed.

(** *** Spreads keep what was there *)

Lemma extends_refl a : extends a a.
Proof. intros f v H. exact H. Qed.

Lemma extends_trans a b c : extends a b -> extends b c -> extends a c.
Proof. intros H1 H2 f v H. apply H2, H1, H. Qed.

Lemma extends_with_nhtsa_facts a j f :
  nhtsa a = None -> facts a = None -> extends a (with_nhtsa_facts a j f).
Proof.
  intros H1 H2 fl v. destruct fl; cbn; try tauto; rewrite ?H1, ?H2; discriminate.
Qed.

Lemma extends_with_webHits a h : webHits a = None -> extends a (with_webHits a h).
Proof. intros H1 fl v. destruct fl; cbn; try tauto; rewrite H1; discriminate. Qed.

Lemma extends_with_risks a r : risks a = None -> extends a (with_risks a r).
Proof. intros H1 fl v. destruct fl; cbn; try tauto; rewrite H1; discriminate. Qed.

Lemma extends_with_markers a m : markers a = None -> extends a (with_markers a m).
Proof. intros H1 fl v. destruct fl; cbn; try tauto; rewrite H1; discriminate. Qed.

Lemma extends_with_report a r : report a = None -> extends a (with_report a r).
Proof. intros H1 fl v. destruct fl; cbn; try tauto; rewrite H1; discriminate. Qed.

Ltac step_emit H :=
  let l := fresh "l" in
  let He := fresh "He" in
  apply bind_inr in H; destruct H as ([] & l & He & H);
  rewrite emit_run in He; injection He as <-.

Ltac step_node H p lg Hp :=
  apply bind_inr in H; destruct H as (p & lg & Hp & H).

(** A run that completes, taken apart: the patches of the six stages, the
    aggregate after each of them and the trace. *)
Lemma invoke_inr w i final log :
  invoke w i = (inr final, log) ->
  exists a1 a2 a3 a4 a5 a6 p2 c2 c3 c6,
    extends a1 a2 /\ extends a2 a3 /\ extends a3 a4 /\ extends a4 a5 /\
    extends a5 a6 /\
    (patch_aggregates p2 = None \/ patch_aggregates p2 = Some a2) /\
    aggregates final = Some a6 /\
    log =
      [Enter (js "normalize");
       Ran (js "normalize")
         {| patch_norm := Some (normalizeQuery (q i)); patch_aggregates := Some a1 |};
       Enter (js "vin_info")] ++ c2 ++
      [Ran (js "vin_info") p2; Enter (js "web_search")] ++ c3 ++
      [Ran (js "web_search") {| patch_norm := None; patch_aggregates := Some a3 |};
       Enter (js "risks");
       Ran (js "risks") {| patch_norm := None; patch_aggregates := Some a4 |};
       Enter (js "markers");
       Ran (js "markers") {| patch_norm := None; patch_aggregates := Some a5 |};
       Enter (js "report")] ++ c6 ++
      [Ran (js "report") {| patch_norm := None; patch_aggregates := Some a6 |}] /\
    calls c2 = c2 /\ calls c3 = c3 /\ calls c6 = c6.
Proof.
  intros H. rewrite invoke_unfold in H. cbv zeta in H.
  step_emit H. step_node H p1 g1 Hp1.
  destruct (nodeNormalize_initial w i [Enter (js "normalize")])
    as (a1 & E1 & (U1 & U2 & U3 & U4 & U5 & U6) & _).
  cbv zeta in E1. remember (normalizeQuery (q i)) as n eqn:En.
  rewrite E1 in Hp1. injection Hp1 as <- <-.
  step_emit H. step_emit H. step_node H p2 g2 Hp2.
  step_emit H. step_emit H. step_node H p3 g3 Hp3.
  step_emit H. step_emit H. step_node H p4 g4 Hp4.
  step_emit H. step_emit H. step_node H p5 g5 Hp5.
  step_emit H. step_emit H. step_node H p6 g6 Hp6.
  step_emit H. unfold ret in H. injection H as <- <-.
  set (st0 := {| input := i; norm := None; aggregates := None |}) in *.
  set (P1 := {| patch_norm := Some n; patch_aggregates := Some a1 |}) in *.
  apply nodeVinInfo_inr in Hp2.
  assert (S2 : exists a2 c2,
             extends a1 a2 /\
             (patch_aggregates p2 = None \/ patch_aggregates p2 = Some a2) /\
             aggregates (apply_patch (apply_patch st0 P1) p2) = Some a2 /\
             webHits a2 = None /\ risks a2 = None /\ markers a2 = None /\
             report a2 = None /\
             g2 = [Enter (js "normalize"); Ran (js "normalize") P1;
                   Enter (js "vin_info")] ++ c2 /\
             calls c2 = c2).
  { destruct Hp2 as [[-> ->] | (a & v & j & f & Ha & Hv & Hj & -> & ->)].
    - exists a1, []. cbn. repeat split; try assumption; try tauto.
      apply extends_refl.
    - cbn in Ha. injection Ha as <-.
      exists (with_nhtsa_facts a1 j f), [CallDecode v]. cbn.
      repeat split; try assumption; try tauto.
      apply extends_with_nhtsa_facts; assumption. }
  clear Hp2.
  destruct S2 as (a2 & c2 & X12 & Hp2a & Ea2 & W3 & W4 & W5 & W6 & -> & Hc2).
  apply nodeWebSearch_inr in Hp3.
  destruct Hp3 as (a & query & h & Ha & -> & ->).
  rewrite Ea2 in Ha. injection Ha as <-.
  apply nodeRisks_inr in Hp4. destruct Hp4 as (a & Ha & -> & ->).
  unfold apply_patch at 1 in Ha. cbn [aggregates patch_aggregates] in Ha.
  injection Ha as <-.
  apply nodeMarkers_inr in Hp5. destruct Hp5 as (n' & a & Hn' & Ha & -> & ->).
  unfold apply_patch at 1 in Ha. cbn [aggregates patch_aggregates] in Ha.
  injection Ha as <-.
  apply nodeReport_inr in Hp6. destruct Hp6 as (a & c & Ha & Hc & -> & ->).
  unfold apply_patch at 1 in Ha. cbn [aggregates patch_aggregates] in Ha.
  injection Ha as <-.
  unfold apply_patch at 1. cbn [aggregates patch_aggregates].
  eexists a1, a2, _, _, _, _, p2, c2, [CallSearch query], [CallModel _].
  split; [exact X12 |].
  split; [apply extends_with_webHits; exact W3 |].
  split; [apply extends_with_risks; exact W4 |].
  split; [apply extends_with_markers; exact W5 |].
  split; [apply extends_with_report; exact W6 |].
  split; [exact Hp2a |].
  split; [reflexivity |].
  split; [| split; [exact Hc2 | split; reflexivity]].
  subst P1. rewrite <- !app_assoc. reflexivity.
Qed.

Lemma calls_only c ev : calls c = c -> In ev c ->
  match ev with
  | CallDecode _ | CallSearch _ | CallModel _ => True
  | _ => False
  end.
Proof.
  intros Hc Hin. rewrite <- Hc in Hin. apply filter_In in Hin.
  destruct Hin as [_ H]. destruct ev; try discriminate H; exact I.
Qed.

Lemma calls_not_completed c : calls c = c -> completed c = [].
Proof.
  intros Hc. unfold completed.
  assert (H : forall ev, In ev c ->
                (match ev with Ran n _ => [n] | _ => [] end) = [])
    by (intros ev Hin; pose proof (calls_only c ev Hc Hin); destruct ev; tauto).
  clear Hc. induction c as [| ev c IH]; [reflexivity |].
  simpl. rewrite (H ev) by (now left). simpl. apply IH.
  intros ev' Hin. apply H. now right.
Qed.

(** *** No node deletes a field *)

Lemma nodeNormalize_inr w st log p log' :
  nodeNormalize w st log = (inr p, log') ->
  exists a',
    patch_aggregates p = Some a' /\
    forall f, field f (or_default (aggregates st) empty_aggregate) <> None ->
              field f a' <> None.
Proof.
  unfold nodeNormalize, ret. intros H. injection H as <- <-.
  eexists. split; [reflexivity |].
  intros f. generalize (or_default (aggregates st) empty_aggregate). intros a.
  destruct (kind (normalizeQuery (q (input st)))); destruct f; cbn;
    try tauto; discriminate.
Qed.

Lemma nodes_keep_fields name node w st log p log' a a' :
  In (name, node) NODES ->
  node w st log = (inr p, log') ->
  aggregates st = Some a -> patch_aggregates p = Some a' ->
  forall f, field f a <> None -> field f a' <> None.
Proof.
  intros Hin H Ha Hp f Hf. unfold NODES in Hin. simpl in Hin.
  destruct Hin as [E | [E | [E | [E | [E | [E | []]]]]]];
    injection E as _ <-.
  - apply nodeNormalize_inr in H. destruct H as (a0 & Hp0 & Hk).
    rewrite Hp0 in Hp. injection Hp as <-.
    apply Hk. rewrite Ha. exact Hf.
  - apply nodeVinInfo_inr in H.
    destruct H as [[-> _] | (a0 & v & j & fs & Ha0 & _ & _ & _ & ->)];
      [discriminate Hp |].
    rewrite Ha in Ha0. injection Ha0 as <-.
    cbn in Hp. injection Hp as <-. destruct f; cbn; try exact Hf; discriminate.
  - apply nodeWebSearch_inr in H. destruct H as (a0 & qy & h & Ha0 & _ & ->).
    rewrite Ha in Ha0. injection Ha0 as <-.
    cbn in Hp. injection Hp as <-. destruct f; cbn; try exact Hf; discriminate.
  - apply nodeRisks_inr in H. destruct H as (a0 & Ha0 & _ & ->).
    rewrite Ha in Ha0. injection Ha0 as <-.
    cbn [patch_aggregates] in Hp. injection Hp as <-.
    destruct f; cbn [field with_risks vin plate vinValid nhtsa facts webHits risks
                     markers report option_map]; try exact Hf; discriminate.
  - apply nodeMarkers_inr in H. destruct H as (n0 & a0 & _ & Ha0 & _ & ->).
    rewrite Ha in Ha0. injection Ha0 as <-.
    cbn [patch_aggregates] in Hp. injection Hp as <-.
    destruct f; cbn [field with_markers vin plate vinValid nhtsa facts webHits
                     risks markers report option_map]; try exact Hf; discriminate.
  - apply nodeReport_inr in H. destruct H as (a0 & c & Ha0 & _ & _ & ->).
    rewrite Ha in Ha0. injection Ha0 as <-.
    cbn in Hp. injection Hp as <-. destruct f; cbn; try exact Hf; discriminate.
Qed.

Lemma invoke_monotone w i final log :
  invoke w i = (inr final, log) ->
  completed log = STAGES /\
  exists fa,
    aggregates final = Some fa /\
    (exists p, In (Ran (js "report") p) log /\ patch_aggregates p = Some fa) /\
    (forall node p a,
       In (Ran node p) log -> patch_aggregates p = Some a -> extends a fa).
Proof.
  intros H. apply invoke_inr in H.
  destruct H as (a1 & a2 & a3 & a4 & a5 & a6 & p2 & c2 & c3 & c6 &
                 X12 & X23 & X34 & X45 & X56 & Hp2 & Hf & -> & Hc2 & Hc3 & Hc6).
  split.
  - unfold completed. rewrite !flat_map_app.
    fold (completed c2). fold (completed c3). fold (completed c6).
    rewrite (calls_not_completed c2 Hc2), (calls_not_completed c3 Hc3),
      (calls_not_completed c6 Hc6). reflexivity.
  - exists a6. split; [exact Hf |]. split.
    + exists {| patch_norm := None; patch_aggregates := Some a6 |}.
      split; [| reflexivity].
      rewrite !in_app_iff. do 6 right. now left.
    + intros node p a Hin Hpa.
      assert (X16 : extends a1 a6)
        by (repeat (eapply extends_trans; [eassumption |]); apply extends_refl).
      assert (X26 : extends a2 a6)
        by (repeat (eapply extends_trans; [eassumption |]); apply extends_refl).
      assert (X36 : extends a3 a6)
        by (repeat (eapply extends_trans; [eassumption |]); apply extends_refl).
      assert (X46 : extends a4 a6)
        by (repeat (eapply extends_trans; [eassumption |]); apply extends_refl).
      rewrite !in_app_iff in Hin. simpl in Hin.
      repeat match goal with
             | H : _ \/ _ |- _ => destruct H as [H | H]
             | H : False |- _ => destruct H
             | H : Enter _ = Ran _ _ |- _ => discriminate H
             | H : In _ ?c, Hc : calls ?c = ?c |- _ =>
                 apply (calls_only _ _ Hc) in H; destruct H
             | H : Ran _ _ = Ran _ _ |- _ => injection H as <- <-
             end;
        cbn [patch_aggregates] in Hpa;
        try (injection Hpa as <-); try assumption;
        try apply extends_refl;
        rewrite Hp2 in Hpa;
        first [discriminate Hpa | injection Hpa as <-; exact X26].
Qed.

(** C5.  No node deletes a field: whatever state a node receives, a field
    of the aggregate it received is a field of the aggregate it returns.
    In a run in which all six stages complete, whatever field the patch of
    a stage holds is in the final aggregate with the same value: no later
    stage erased or changed it, and the final aggregate is the one of the
    last patch. *)
Theorem pipeline_merge_monotone :
  (forall name node w st log p log' a a',
     In (name, node) NODES ->
     node w st log = (inr p, log') ->
     aggregates st = Some a -> patch_aggregates p = Some a' ->
     forall f, field f a <> None -> field f a' <> None) /\
  (forall w i final log,
     invoke w i = (inr final, log) ->
     completed log = STAGES /\
     exists fa,
       aggregates final = Some fa /\
       (exists p, In (Ran (js "report") p) log /\ patch_aggregates p = Some fa) /\
       (forall node p a,
          In (Ran node p) log -> patch_aggregates p = Some a -> extends a fa)).
Proof.
  split.
  - intros name node w st log p log' a a'. apply nodes_keep_fields.
  - exact invoke_monotone.
Qed.

Lemma pipeline_merge_monotone_witness :
  completed (snd (invoke world_up REFERENCE_QUERY)) = STAGES.
Proof.
  destruct (invoke world_up REFERENCE_QUERY) as [[e | final] log] eqn:E.
  - vm_compute in E. discriminate E.
  - exact (proj1 (proj2 pipeline_merge_monotone
                    world_up REFERENCE_QUERY final log E)).
Defined.

(** *** A failing decode *)

Lemma normalizeQuery_vin q0 :
  kind (normalizeQuery q0) = KVin ->
  isLikelyVIN (value (normalizeQuery q0)) = true.
Proof.
  rewrite normalizeQuery_value. unfold normalizeQuery. fold (clean q0).
  destruct (isLikelyVIN (clean q0)); [reflexivity |].
  destruct (PLATE_RE (clean q0)); discriminate.
Qed.

Lemma isLikelyVIN_truthy v : isLikelyVIN v = true -> truthy_str (Some v) = Some v.
Proof.
  intros H. apply andb_true_iff in H. destruct H as [H _].
  apply VIN_RE_well_formed in H. destruct H as [H _].
  destruct v; [discriminate H | reflexivity].
Qed.

Lemma nodeVinInfo_decode_fails w st log n a v e :
  norm st = Some n -> kind n = KVin -> aggregates st = Some a ->
  truthy_str (vin a) = Some v -> nhtsa_get w v = inl e ->
  nodeVinInfo w st log = (inl e, log ++ [CallDecode v]).
Proof.
  intros Hn Hk Ha Hv He. unfold nodeVinInfo.
  rewrite Hn. cbn [defined]. unfold bind at 1, ret at 1. rewrite Hk.
  rewrite Ha. cbn [defined]. unfold bind at 1, ret at 1. rewrite Hv.
  unfold nhtsaDecodeVin, bind, emit, lift. rewrite He. reflexivity.
Qed.



(** A timeout of the decode registry and the same timeout of the search
    service reach the caller as the same value, from different stages. *)
Lemma same_error_from_two_stages :
  fst (invoke world_search_down REFERENCE_QUERY) =
    fst (invoke world_decode_down REFERENCE_QUERY) /\
  entered (snd (invoke world_decode_down REFERENCE_QUERY)) =
    [js "normalize"; js "vin_info"] /\
  entered (snd (invoke world_search_down REFERENCE_QUERY)) =
    [js "normalize"; js "vin_info"; js "web_search"].
Proof. vm_compute. repeat split; reflexivity. Qed.


(** ** The marker computer *)

Lemma falsy_has_no_model row0 :
  truthy_opt row0 = false -> get_prop (js "Model") row0 = None.
Proof.
  destruct row0 as [[| b | n | s | l | props] |]; simpl; try reflexivity;
    discriminate.
Qed.

(** What the decode stage stores as [facts.Model] is the Model of the first
    result of the response it stores as [nhtsa]. *)
Lemma nodeVinInfo_model w st log p log' a' :
  nodeVinInfo w st log = (inr p, log') ->
  patch_aggregates p = Some a' ->
  exists f, facts a' = Some f /\ Model f = decoded_model a'.
Proof.
  unfold nodeVinInfo. intros H Hp.
  apply bind_inr in H. destruct H as (n & l1 & Hn & H).
  destruct (kind n);
    try (unfold ret in H; injection H as <- <-; discriminate Hp).
  apply bind_inr in H. destruct H as (a & l2 & Ha & H).
  destruct (truthy_str (vin a)) as [v |];
    [| unfold ret in H; injection H as <- <-; discriminate Hp].
  apply bind_inr in H. destruct H as (j & l3 & Hj & H).
  unfold ret in H. injection H as <- <-.
  cbn [patch_aggregates] in Hp. injection Hp as <-.
  eexists. split; [reflexivity |].
  unfold decoded_model. cbn [Model nhtsa with_nhtsa_facts].
  match goal with
  | |- context [if ?c then _ else _] => destruct c eqn:E
  end; [reflexivity |].
  apply falsy_has_no_model in E. symmetry. exact E.
Qed.

(** C9, as the code has it.  Without hits web_presence is not ok, with the
    note "no hits"; without labels risk_flags is ok, with the note "none",
    and with labels it is not ok, its note the labels joined with ", ".
    For a VIN, vin_decoded is ok exactly when the first result of the raw
    decode response has a truthy Model, with the note "NHTSA decoded" when
    it is ok and "no decode" otherwise; on an aggregate that comes out of
    the decode stage that Model is [facts.Model]. *)
Theorem markers_rules (n : Norm) (a : Aggregate) :
  let m := compute_markers n a in
  (or_default (webHits a) [] = [] ->
     web_presence m = {| ok := false; note := Some (js "no hits") |}) /\
  (or_default (risks a) [] = [] ->
     risk_flags m = {| ok := true; note := Some (js "none") |}) /\
  (or_default (risks a) [] <> [] ->
     risk_flags m =
     {| ok := false; note := Some (join (js ", ") (or_default (risks a) [])) |}) /\
  (kind n = KVin ->
     vin_decoded m =
     Some {| ok := truthy_opt (decoded_model a);
             note := Some (if truthy_opt (decoded_model a)
                           then js "NHTSA decoded" else js "no decode") |}) /\
  (forall w st log p log' a',
     nodeVinInfo w st log = (inr p, log') -> patch_aggregates p = Some a' ->
     truthy_opt (decoded_model a') = has_model a').
Proof.
  cbv zeta. unfold compute_markers.
  cbn [web_presence risk_flags vin_decoded].
  split; [| split; [| split; [| split]]].
  - intros ->. reflexivity.
  - intros ->. reflexivity.
  - intros H. destruct (or_default (risks a) []) as [| r rs]; [contradiction |].
    reflexivity.
  - intros ->. reflexivity.
  - intros w st log p log' a' H Hp.
    destruct (nodeVinInfo_model _ _ _ _ _ _ H Hp) as (f & Hf & Hm).
    unfold has_model. rewrite Hf, Hm. reflexivity.
Qed.

Lemma markers_rules_witness :
  or_default (webHits FLOODED) [] = [] /\
  web_presence (compute_markers REFERENCE_NORM FLOODED) =
  {| ok := false; note := Some (js "no hits") |}.
Proof.
  split; [reflexivity |].
  exact (proj1 (markers_rules REFERENCE_NORM FLOODED) eq_refl).
Defined.

Lemma FLOODED_RISKS_reached :
  nth_error (snd (invoke world_quiet REFERENCE_QUERY)) 1 =
    Some (Ran (js "normalize")
            {| patch_norm := Some REFERENCE_NORM;
               patch_aggregates :=
                 Some (set_vinValid
                         (set_vin empty_aggregate (js "1HGCM82633A004352"))
                         true) |}) /\
  nth_error (snd (invoke world_quiet REFERENCE_QUERY)) 9 =
    Some (Ran (js "risks")
            {| patch_norm := None; patch_aggregates := Some FLOODED_RISKS |}).
Proof. split; vm_compute; reflexivity. Qed.

(** C9, as the specification words it, fails on the note of vin_decoded:
    for the decoded reference VIN the code writes "NHTSA decoded", not
    "decoded". *)
Lemma vin_decoded_note : ~ vin_decoded_as_stated REFERENCE_NORM FLOODED_RISKS.
Proof.
  intros H. specialize (H eq_refl). vm_compute in H. discriminate H.
Qed.

(** ** More on the checksum *)

Lemma set_nth_length i c s : length (set_nth i c s) = length s.
Proof.
  revert i. induction s as [| x s IH]; intros [| i]; simpl; try reflexivity.
  rewrite IH. reflexivity.
Qed.

Lemma set_nth_Forall (P : Z -> Prop) i c s :
  P c -> Forall P s -> Forall P (set_nth i c s).
Proof.
  intros Hc. revert i. induction s as [| x s IH]; intros [| i] H; simpl;
    try constructor; inversion H; subst; auto.
Qed.

Lemma set_nth_same i c s j :
  j <> i -> nth_error (set_nth i c s) j = nth_error s j.
Proof.
  revert i j. induction s as [| x s IH]; intros [| i] [| j] H; simpl;
    try reflexivity; try contradiction.
  apply IH. congruence.
Qed.

Lemma set_nth_at i c s x :
  nth_error s i = Some x -> nth_error (set_nth i c s) i = Some c.
Proof.
  revert i. induction s as [| y s IH]; intros [| i] H; simpl in *;
    try discriminate; [reflexivity | eauto].
Qed.

(** Replacing one character moves the weighted sum by the difference of
    the two values times the weight of the position. *)
Lemma weighted_sum_set_nth (t : Z -> Z) i c c' s w :
  nth_error s i = Some c -> nth_error weights i = Some w ->
  weighted_sum t (set_nth i c' s) = weighted_sum t s + (t c' - t c) * w.
Proof.
  unfold weighted_sum. generalize weights. revert i.
  induction s as [| x s IH]; intros [| i] ws Hs Hw; simpl in Hs; try discriminate.
  - injection Hs as ->. destruct ws as [| w0 ws]; [discriminate |].
    simpl in Hw. injection Hw as ->. simpl. ring.
  - destruct ws as [| w0 ws]; [discriminate |]. simpl in Hw.
    simpl. rewrite (IH i ws Hs Hw). ring.
Qed.

Lemma expected_check_inj r r' :
  0 <= r < 11 -> 0 <= r' < 11 -> expected_check r = expected_check r' -> r = r'.
Proof.
  unfold expected_check. change (cu "X") with 88. change (cu "0") with 48.
  intros H H'.
  destruct (Z.eqb_spec r 10); destruct (Z.eqb_spec r' 10); lia.
Qed.

(** Eleven is prime: a weight from 1 to 10 times a difference of two digits
    is a multiple of 11 only when the difference is 0. *)
Lemma weight_detects w d S :
  1 <= w <= 10 -> -9 <= d <= 9 ->
  ((S + d * w) mod 11 = S mod 11 <-> d = 0).
Proof.
  intros Hw Hd. split.
  - intros H.
    assert (Hm : (d * w) mod 11 = 0).
    { assert (E : (S + d * w - S) mod 11 = 0).
      { rewrite Zminus_mod, H, Z.sub_diag. reflexivity. }
      replace (S + d * w - S) with (d * w) in E by ring. exact E. }
    assert (Ed : exists n, (n < 19)%nat /\ d = Z.of_nat n - 9)
      by (exists (Z.to_nat (d + 9)); lia).
    assert (Ew : exists n, (n < 10)%nat /\ w = Z.of_nat n + 1)
      by (exists (Z.to_nat (w - 1)); lia).
    destruct Ed as (nd & Hnd & ->). destruct Ew as (nw & Hnw & ->).
    do 19 (destruct nd as [| nd];
           [do 10 (destruct nw as [| nw];
                   [vm_compute in Hm; first [discriminate Hm | reflexivity] |]);
            lia |]).
    lia.
  - intros ->. f_equal. ring.
Qed.

Lemma weights_off_check i w :
  i <> 8%nat -> nth_error weights i = Some w -> 1 <= w <= 10.
Proof.
  intros Hi H. unfold weights in H.
  do 17 (destruct i as [| i]; [try contradiction; simpl in H; injection H as <-; lia |]).
  destruct i; discriminate H.
Qed.

Lemma nth_error_weights i (s : jsstring) x :
  length s = 17%nat -> nth_error s i = Some x -> exists w, nth_error weights i = Some w.
Proof.
  intros Hl H. assert (Hi : (i < 17)%nat).
  { rewrite <- Hl. apply nth_error_Some. congruence. }
  destruct (nth_error weights i) as [w |] eqn:E; [eauto |].
  apply nth_error_None in E. simpl in E. lia.
Qed.

Lemma expected_check_VinChar r : 0 <= r < 11 -> VinChar (expected_check r).
Proof.
  intros H. apply VIN_CLASS_alphabet.
  assert (E : exists n, (n < 11)%nat /\ r = Z.of_nat n)
    by (exists (Z.to_nat r); lia).
  destruct E as (n & Hn & ->).
  do 11 (destruct n as [| n]; [reflexivity |]). lia.
Qed.

Lemma iso_remainder_bound s : 0 <= iso_remainder s < 11.
Proof. unfold iso_remainder. apply Z.mod_pos_bound. lia. Qed.

(** X1.  One character of a valid VIN, outside the check slot, is replaced by
    another character of the alphabet: the result is valid exactly when the
    two characters have the same transliteration value.  So every
    substitution that changes the value is detected, and a substitution
    among characters of one value (1, A and J, say) never is. *)
Theorem substitution_detected vin i c c' :
  vinChecksumValid vin = true -> i <> 8%nat ->
  nth_error vin i = Some c -> VinChar c' ->
  (vinChecksumValid (set_nth i c' vin) = true <->
   iso_translit c' = iso_translit c).
Proof.
  intros Hv Hi Hc Hc'.
  pose proof (proj1 (VIN_RE_well_formed vin) (vinChecksumValid_guard vin Hv)) as Hwf.
  pose proof Hwf as [Hlen Hall].
  assert (Hwf' : well_formed_vin (set_nth i c' vin)).
  { split; [rewrite set_nth_length; exact Hlen | apply set_nth_Forall; assumption]. }
  rewrite (vinChecksumValid_spec _ Hwf').
  apply (vinChecksumValid_spec _ Hwf) in Hv.
  rewrite set_nth_same by congruence. rewrite Hv.
  destruct (nth_error_weights i vin c Hlen Hc) as [w Hw].
  pose proof (weights_off_check i w Hi Hw) as Hwb.
  assert (Hcv : VinChar c).
  { rewrite Forall_forall in Hall. apply Hall. eapply nth_error_In; eassumption. }
  pose proof (iso_translit_nonneg c Hcv). pose proof (iso_translit_nonneg c' Hc').
  assert (Er : iso_remainder (set_nth i c' vin) =
               (weighted_sum iso_translit vin +
                (iso_translit c' - iso_translit c) * w) mod 11).
  { unfold iso_remainder.
    rewrite (weighted_sum_set_nth iso_translit i c c' vin w Hc Hw). reflexivity. }
  rewrite Er. split.
  - intros E. injection E as E.
    apply expected_check_inj in E;
      [| apply iso_remainder_bound | apply Z.mod_pos_bound; lia].
    symmetry in E. apply weight_detects in E; lia.
  - intros E. rewrite E, Z.sub_diag, Z.mul_0_l, Z.add_0_r. reflexivity.
Qed.

Lemma substitution_detected_witness :
  vinChecksumValid (js "AHGCM82633A004352") = true /\
  vinChecksumValid (js "2HGCM82633A004352") = false.
Proof.
  assert (Hv : vinChecksumValid (js "1HGCM82633A004352") = true) by reflexivity.
  assert (H0 : (0 <> 8)%nat) by discriminate.
  assert (Hc : nth_error (js "1HGCM82633A004352") 0 = Some (cu "1")) by reflexivity.
  assert (HA : VinChar (cu "A")) by (apply VIN_CLASS_alphabet; reflexivity).
  assert (H2 : VinChar (cu "2")) by (apply VIN_CLASS_alphabet; reflexivity).
  split.
  - apply (proj2 (substitution_detected _ 0 _ (cu "A") Hv H0 Hc HA)). reflexivity.
  - destruct (vinChecksumValid (js "2HGCM82633A004352")) eqn:E; [| reflexivity].
    apply (proj1 (substitution_detected _ 0 _ (cu "2") Hv H0 Hc H2)) in E.
    discriminate E.
Defined.

(** X2.  The sixteen characters around the check slot determine the check
    character: whatever stands in the slot, the string is valid exactly
    when the slot holds the expected check character, which is a digit or
    X. *)
Theorem check_character_unique vin c :
  well_formed_vin vin ->
  (vinChecksumValid (set_nth 8 c vin) = true <->
   c = expected_check (iso_remainder vin)) /\
  (expected_check (iso_remainder vin) = cu "X" \/
   cu "0" <= expected_check (iso_remainder vin) <= cu "9").
Proof.
  intros Hwf. pose proof Hwf as [Hlen Hall].
  assert (H8 : exists x, nth_error vin 8 = Some x).
  { destruct (nth_error vin 8) as [x |] eqn:E; [eauto |].
    apply nth_error_None in E. lia. }
  destruct H8 as [x Hx].
  assert (Hr : iso_remainder (set_nth 8 c vin) = iso_remainder vin).
  { unfold iso_remainder.
    rewrite (weighted_sum_set_nth iso_translit 8 x c vin 0 Hx eq_refl).
    rewrite Z.mul_0_r, Z.add_0_r. reflexivity. }
  pose proof (iso_remainder_bound vin) as Hb.
  split.
  - split.
    + intros Hv.
      pose proof (proj1 (VIN_RE_well_formed _) (vinChecksumValid_guard _ Hv)) as Hwf'.
      apply (vinChecksumValid_spec _ Hwf') in Hv.
      rewrite (set_nth_at 8 c vin x Hx), Hr in Hv. congruence.
    + intros ->.
      assert (Hwf' : well_formed_vin
                       (set_nth 8 (expected_check (iso_remainder vin)) vin)).
      { split; [rewrite set_nth_length; exact Hlen |].
        apply set_nth_Forall; [apply expected_check_VinChar; exact Hb | exact Hall]. }
      apply (vinChecksumValid_spec _ Hwf').
      rewrite (set_nth_at 8 _ vin x Hx), Hr. reflexivity.
  - unfold expected_check. change (cu "X") with 88. change (cu "0") with 48.
    change (cu "9") with 57. destruct (Z.eqb_spec (iso_remainder vin) 10); lia.
Qed.

Lemma check_character_unique_witness :
  vinChecksumValid (set_nth 8 (cu "0") (js "WVWZZZ1JZXW000001")) = true.
Proof.
  assert (Hwf : well_formed_vin (js "WVWZZZ1JZXW000001"))
    by (apply VIN_RE_well_formed; reflexivity).
  apply (proj2 (proj1 (check_character_unique _ (cu "0") Hwf))). reflexivity.
Defined.

(** ** The normalizer on ASCII input *)

Lemma upper_cp_ascii c : 0 <= c < 128 -> upper_cp c = [ascii_upper c].
Proof.
  intros H.
  assert (E : exists n, (n < 128)%nat /\ c = Z.of_nat n)
    by (exists (Z.to_nat c); lia).
  destruct E as (n & Hn & ->).
  do 128 (destruct n as [| n]; [vm_compute; reflexivity |]). lia.
Qed.

Lemma ascii_upper_bound c : 0 <= c < 128 -> 0 <= ascii_upper c < 128.
Proof.
  unfold ascii_upper. intros H.
  destruct ((97 <=? c) && (c <=? 122)) eqn:E; [| exact H].
  apply andb_true_iff in E. lia.
Qed.

Lemma toUpperCase_ascii s : Ascii s -> toUpperCase s = map ascii_upper s.
Proof.
  intros H. unfold toUpperCase.
  rewrite code_points_no_surrogate
    by (eapply Forall_impl; [| exact H]; simpl; lia).
  assert (E : flat_map upper_cp s = map ascii_upper s).
  { induction H as [| c s Hc _ IH]; [reflexivity |].
    simpl. rewrite IH, upper_cp_ascii by exact Hc. reflexivity. }
  rewrite E. apply utf16_bmp. apply Forall_map.
  eapply Forall_impl; [| exact H]. intros c Hc.
  apply ascii_upper_bound in Hc. simpl. lia.
Qed.

Lemma trimStart_Forall (P : Z -> Prop) s : Forall P s -> Forall P (trimStart s).
Proof.
  induction 1 as [| c s Hc Hs IH]; [constructor |].
  cbn [trimStart]. destruct (in_class WHITE_SPACE c); [exact IH |].
  constructor; assumption.
Qed.

Lemma trim_Forall (P : Z -> Prop) s : Forall P s -> Forall P (trim s).
Proof.
  intros H. unfold trim, trimEnd.
  apply Forall_rev. apply trimStart_Forall. apply Forall_rev.
  apply trimStart_Forall. exact H.
Qed.

Lemma filter_trimStart (Q : Z -> bool) s :
  (forall c, in_class WHITE_SPACE c = true -> Q c = false) ->
  filter Q (trimStart s) = filter Q s.
Proof.
  intros HQ. induction s as [| c s IH]; [reflexivity |].
  cbn [trimStart]. destruct (in_class WHITE_SPACE c) eqn:E; [| reflexivity].
  cbn [filter]. rewrite (HQ c E). exact IH.
Qed.

(** What [trim] removes, a filter that drops white space drops anyway. *)
Lemma filter_trim (Q : Z -> bool) s :
  (forall c, in_class WHITE_SPACE c = true -> Q c = false) ->
  filter Q (trim s) = filter Q s.
Proof.
  intros HQ. unfold trim, trimEnd.
  rewrite filter_rev, (filter_trimStart Q _ HQ), <- filter_rev, rev_involutive.
  apply filter_trimStart. exact HQ.
Qed.

Lemma space_not_alnum c :
  in_class WHITE_SPACE c = true -> in_class ALNUM c = false.
Proof.
  intros H. apply in_class_ranges in H. destruct H as (lo & hi & Hin & H).
  destruct (in_class ALNUM c) eqn:E; [| reflexivity].
  apply in_class_ALNUM in E. unfold WHITE_SPACE in Hin. simpl in Hin.
  repeat (destruct Hin as [Hin | Hin]; [inversion Hin; subst; lia |]).
  contradiction.
Qed.

Lemma ALNUM_ascii_upper c : in_class ALNUM (ascii_upper c) = in_class ALNUM c.
Proof.
  unfold ascii_upper.
  destruct ((97 <=? c) && (c <=? 122)) eqn:E; [| reflexivity].
  apply andb_true_iff in E.
  transitivity true; [| symmetry]; apply in_class_ALNUM; lia.
Qed.

Lemma clean_ascii q :
  Ascii q -> clean q = map ascii_upper (filter (in_class ALNUM) q).
Proof.
  intros H. unfold clean. rewrite str_or_empty.
  rewrite toUpperCase_ascii by (apply trim_Forall; exact H).
  unfold remove_all, NON_ALNUM, outside.
  rewrite (filter_ext _ (in_class ALNUM)) by (intros c; apply negb_involutive).
  rewrite <- (filter_trim (in_class ALNUM) q space_not_alnum).
  induction (trim q) as [| c s IH]; [reflexivity |].
  cbn [map filter]. rewrite ALNUM_ascii_upper.
  destruct (in_class ALNUM c); cbn [map]; rewrite IH; reflexivity.
Qed.

Lemma normalizeQuery_clean q q' : clean q = clean q' -> normalizeQuery q = normalizeQuery q'.
Proof.
  intros H. unfold normalizeQuery. fold (clean q). fold (clean q').
  rewrite H. reflexivity.
Qed.

(** X3.  On ASCII input the cleaned value is the letters and digits of the
    input, in their order, with the letters capitalised; so two ASCII
    inputs that differ only in letter case, in blanks and in punctuation
    are normalized to the same result. *)
Theorem normalizeQuery_ascii q :
  Ascii q ->
  value (normalizeQuery q) = map ascii_upper (filter (in_class ALNUM) q) /\
  (forall q', Ascii q' ->
     map ascii_upper (filter (in_class ALNUM) q') =
     map ascii_upper (filter (in_class ALNUM) q) ->
     normalizeQuery q' = normalizeQuery q).
Proof.
  intros H. split.
  - rewrite normalizeQuery_value. apply clean_ascii. exact H.
  - intros q' H' E. apply normalizeQuery_clean.
    rewrite !clean_ascii by assumption. exact E.
Qed.

Lemma Ascii_forallb s :
  forallb (fun c => (0 <=? c) && (c <? 128)) s = true -> Ascii s.
Proof.
  intros H. apply Forall_forall. intros c Hc.
  rewrite forallb_forall in H. specialize (H c Hc).
  apply andb_true_iff in H. lia.
Qed.

Lemma normalizeQuery_ascii_witness :
  normalizeQuery (js "1hg-cm8 2633.a004352") = normalizeQuery (js "1HGCM82633A004352").
Proof.
  assert (H1 : Ascii (js "1HGCM82633A004352"))
    by (apply Ascii_forallb; reflexivity).
  assert (H2 : Ascii (js "1hg-cm8 2633.a004352"))
    by (apply Ascii_forallb; reflexivity).
  apply (proj2 (normalizeQuery_ascii _ H1) _ H2). vm_compute. reflexivity.
Defined.

(** ** The run, case by case *)

Lemma nodeNormalize_eq w i log :
  nodeNormalize w {| input := i; norm := None; aggregates := None |} log =
  (inr {| patch_norm := Some (normalizeQuery (q i));
          patch_aggregates := Some (normalized (normalizeQuery (q i))) |}, log).
Proof.
  unfold nodeNormalize, ret, normalized. cbn [input aggregates or_default].
  destruct (kind (normalizeQuery (q i))); reflexivity.
Qed.

Lemma nodeVinInfo_eq w i n a log :
  nodeVinInfo w {| input := i; norm := Some n; aggregates := Some a |} log =
  match kind n, truthy_str (vin a) with
  | KVin, Some v =>
      match nhtsa_get w v with
      | inl e => (inl e, log ++ [CallDecode v])
      | inr j =>
          (inr {| patch_norm := None;
                  patch_aggregates :=
                    Some (with_nhtsa_facts a j (facts_of_response j)) |},
           log ++ [CallDecode v])
      end
  | _, _ => (inr empty_patch, log)
  end.
Proof.
  unfold nodeVinInfo, bind, defined, ret, nhtsaDecodeVin, emit, lift.
  cbn [norm aggregates].
  destruct (kind n); try reflexivity.
  destruct (truthy_str (vin a)) as [v |]; reflexivity.
Qed.

Lemma nodeWebSearch_eq w i n a log :
  nodeWebSearch w {| input := i; norm := Some n; aggregates := Some a |} log =
  if negb (TAVILY_API_KEY w)
  then (inl (Error (js "Set TAVILY_API_KEY")), log)
  else
    match tavily_search w (search_query n a i) with
    | inl e => (inl e, log ++ [CallSearch (search_query n a i)])
    | inr res =>
        (inr {| patch_norm := None;
                patch_aggregates :=
                  Some (with_webHits a (map hit_of_result
                                            (or_default (results res) []))) |},
         log ++ [CallSearch (search_query n a i)])
    end.
Proof.
  unfold nodeWebSearch, webSearch, bind, defined, ret, throw, emit, lift.
  cbn [norm aggregates input]. fold (search_query n a i).
  destruct (negb (TAVILY_API_KEY w)); [reflexivity |].
  destruct (tavily_search w (search_query n a i)); reflexivity.
Qed.

Lemma nodeRisks_eq w i n a log :
  nodeRisks w {| input := i; norm := Some n; aggregates := Some a |} log =
  (inr {| patch_norm := None;
          patch_aggregates := Some (with_risks a (compute_risks a)) |}, log).
Proof. reflexivity. Qed.

Lemma nodeMarkers_eq w i n a log :
  nodeMarkers w {| input := i; norm := Some n; aggregates := Some a |} log =
  (inr {| patch_norm := None;
          patch_aggregates := Some (with_markers a (compute_markers n a)) |}, log).
Proof. reflexivity. Qed.

Lemma nodeReport_eq w i n a log :
  nodeReport w {| input := i; norm := Some n; aggregates := Some a |} log =
  match model_invoke w (report_data a) with
  | inl e => (inl e, log ++ [CallModel (report_data a)])
  | inr content =>
      (inr {| patch_norm := None;
              patch_aggregates := Some (with_report a content) |},
       log ++ [CallModel (report_data a)])
  end.
Proof.
  unfold nodeReport, bind, defined, ret, emit, lift. cbn [aggregates].
  destruct (model_invoke w (report_data a)); reflexivity.
Qed.

Lemma bind_unfold {A B} (m : M A) (k : A -> M B) log :
  bind m k log =
  match m log with
  | (inr x, log') => k x log'
  | (inl e, log') => (inl e, log')
  end.
Proof. reflexivity. Qed.

Lemma search_onwards_eq w i n a2 log :
  (emit (Enter (js "web_search")) ;;;
   p3 <- nodeWebSearch w {| input := i; norm := Some n; aggregates := Some a2 |} ;;
   emit (Ran (js "web_search") p3) ;;;
   let st3 := apply_patch {| input := i; norm := Some n; aggregates := Some a2 |} p3 in
   emit (Enter (js "risks")) ;;;
   p4 <- nodeRisks w st3 ;;
   emit (Ran (js "risks") p4) ;;;
   let st4 := apply_patch st3 p4 in
   emit (Enter (js "markers")) ;;;
   p5 <- nodeMarkers w st4 ;;
   emit (Ran (js "markers") p5) ;;;
   let st5 := apply_patch st4 p5 in
   emit (Enter (js "report")) ;;;
   p6 <- nodeReport w st5 ;;
   emit (Ran (js "report") p6) ;;;
   ret (apply_patch st5 p6)) log =
  search_onwards w i n a2 (log ++ [Enter (js "web_search")]).
Proof.
  cbv zeta. unfold search_onwards.
  rewrite (bind_step _ _ _ _ _ (emit_run _ _)).
  rewrite bind_unfold, nodeWebSearch_eq.
  destruct (negb (TAVILY_API_KEY w)); [reflexivity |].
  destruct (tavily_search w (search_query n a2 i)) as [e | res]; [reflexivity |].
  cbv iota beta.
  rewrite (bind_step _ _ _ _ _ (emit_run _ _)).
  unfold apply_patch; cbn [patch_norm patch_aggregates norm aggregates input].
  rewrite (bind_step _ _ _ _ _ (emit_run _ _)).
  rewrite (bind_step _ _ _ _ _ (nodeRisks_eq _ _ _ _ _)).
  rewrite (bind_step _ _ _ _ _ (emit_run _ _)).
  unfold apply_patch; cbn [patch_norm patch_aggregates norm aggregates input].
  rewrite (bind_step _ _ _ _ _ (emit_run _ _)).
  rewrite (bind_step _ _ _ _ _ (nodeMarkers_eq _ _ _ _ _)).
  rewrite (bind_step _ _ _ _ _ (emit_run _ _)).
  unfold apply_patch; cbn [patch_norm patch_aggregates norm aggregates input].
  rewrite (bind_step _ _ _ _ _ (emit_run _ _)).
  rewrite bind_unfold, nodeReport_eq.
  match goal with
  | |- context [model_invoke w ?d] => destruct (model_invoke w d) as [e | c]
  end.
  - rewrite <- !app_assoc. reflexivity.
  - cbv iota beta. rewrite (bind_step _ _ _ _ _ (emit_run _ _)).
    unfold ret. rewrite <- !app_assoc. reflexivity.
Qed.

(** [invoke] is the case analysis of [run_summary]. *)
Lemma invoke_summary w i : invoke w i = run_summary w i.
Proof.
  rewrite invoke_unfold. cbv zeta. unfold run_summary.
  rewrite (bind_step _ _ _ _ _ (emit_run _ _)).
  rewrite (bind_step _ _ _ _ _ (nodeNormalize_eq _ _ _)).
  set (n := normalizeQuery (q i)). set (a1 := normalized n).
  rewrite (bind_step _ _ _ _ _ (emit_run _ _)).
  unfold apply_patch; cbn [patch_norm patch_aggregates norm aggregates input].
  rewrite (bind_step _ _ _ _ _ (emit_run _ _)).
  rewrite bind_unfold, nodeVinInfo_eq.
  destruct (kind n);
    [destruct (truthy_str (vin a1)) as [v |];
     [destruct (nhtsa_get w v) as [e | j]; [reflexivity |] |] | |];
    cbv iota beta;
    rewrite (bind_step _ _ _ _ _ (emit_run _ _));
    unfold apply_patch;
    cbn [patch_norm patch_aggregates norm aggregates input empty_patch];
    rewrite search_onwards_eq; rewrite <- ?app_assoc; reflexivity.
Qed.

Lemma normalizeQuery_plate_re q0 :
  kind (normalizeQuery q0) = KPlate -> PLATE_RE (value (normalizeQuery q0)) = true.
Proof.
  rewrite normalizeQuery_value. unfold normalizeQuery. fold (clean q0).
  destruct (isLikelyVIN (clean q0)); [discriminate |].
  destruct (PLATE_RE (clean q0)); [reflexivity | discriminate].
Qed.

Lemma PLATE_RE_truthy v : PLATE_RE v = true -> truthy_str (Some v) = Some v.
Proof.
  intros H. apply PLATE_RE_shape in H. destruct H as [H _].
  destruct v; [simpl in H; lia | reflexivity].
Qed.

(** Either the decode call fails, or the run reaches the search. *)
Lemma invoke_cases w i :
  let n := normalizeQuery (q i) in
  (exists e,
     kind n = KVin /\ nhtsa_get w (value n) = inl e /\
     invoke w i =
       (inl e, [Enter (js "normalize");
                Ran (js "normalize")
                  {| patch_norm := Some n; patch_aggregates := Some (normalized n) |};
                Enter (js "vin_info"); CallDecode (value n)])) \/
  (exists a2 t2,
     invoke w i = search_onwards w i n a2 t2 /\ at_search w i a2 t2).
Proof.
  cbv zeta. rewrite invoke_summary. unfold run_summary, at_search. cbv zeta.
  remember (normalizeQuery (q i)) as n eqn:En.
  destruct (kind n) eqn:Ek.
  - assert (Hv : truthy_str (vin (normalized n)) = Some (value n)).
    { unfold normalized. rewrite Ek. cbn [vin set_vinValid set_vin].
      subst n. apply isLikelyVIN_truthy, normalizeQuery_vin, Ek. }
    assert (Hvalid : vinChecksumValid (value n) = true).
    { subst n. pose proof (normalizeQuery_vin _ Ek) as H.
      apply andb_true_iff in H. tauto. }
    rewrite Hv. destruct (nhtsa_get w (value n)) as [e | j] eqn:Ed.
    + left. exists e. repeat split; reflexivity.
    + right. do 2 eexists. split; [reflexivity |].
      unfold search_query, query_text, decode_call, normalized. rewrite Ek.
      cbn [vin plate vinValid nhtsa facts webHits risks markers report
           with_nhtsa_facts set_vinValid set_vin empty_aggregate].
      rewrite Hvalid.
      repeat split; try reflexivity; try discriminate.
      exists j. repeat split; reflexivity.
  - right. do 2 eexists. split; [reflexivity |].
    assert (Hp : truthy_str (Some (value n)) = Some (value n))
      by (subst n; apply PLATE_RE_truthy, normalizeQuery_plate_re, Ek).
    unfold search_query, query_text, decode_call, normalized. rewrite Ek.
    cbn [vin plate vinValid nhtsa facts webHits risks markers report
         set_plate empty_aggregate].
    rewrite Hp.
    repeat split; try reflexivity; try discriminate.
  - right. do 2 eexists. split; [reflexivity |].
    unfold search_query, query_text, decode_call, normalized. rewrite Ek.
    cbn [vin plate vinValid nhtsa facts webHits risks markers report
         empty_aggregate truthy_str].
    repeat split; try reflexivity; try discriminate.
Qed.

Ltac search_cases H Ekey Es Em :=
  unfold search_onwards in H;
  destruct (TAVILY_API_KEY _) eqn:Ekey; cbn [negb] in H;
  [ match type of H with
    | context [tavily_search ?w ?x] =>
        destruct (tavily_search w x) as [? | ?] eqn:Es;
        [ | cbv zeta in H;
            match type of H with
            | context [model_invoke ?w' ?d] =>
                destruct (model_invoke w' d) as [? | ?] eqn:Em
            end ]
    end
  | ].



(** *** What the later stages read *)

Lemma compute_risks_reads a b :
  webHits a = webHits b -> nhtsa a = nhtsa b -> compute_risks a = compute_risks b.
Proof.
  intros H1 H2. unfold compute_risks, risk_text, auctionCount.
  rewrite H1, H2. reflexivity.
Qed.

Lemma compute_markers_reads n a b :
  vin a = vin b -> vinValid a = vinValid b -> nhtsa a = nhtsa b ->
  webHits a = webHits b -> risks a = risks b ->
  compute_markers n a = compute_markers n b.
Proof.
  intros H1 H2 H3 H4 H5. unfold compute_markers, decoded_model.
  rewrite H1, H2, H3, H4, H5. reflexivity.
Qed.

Lemma report_data_reads a b :
  vin a = vin b -> plate a = plate b -> facts a = facts b ->
  markers a = markers b -> webHits a = webHits b ->
  report_data a = report_data b.
Proof.
  intros H1 H2 H3 H4 H5. unfold report_data.
  rewrite H1, H2, H3, H4, H5. reflexivity.
Qed.

(** A completed run, with the final aggregate spelled out. *)
Lemma invoke_completed w i final log :
  invoke w i = (inr final, log) ->
  let n := normalizeQuery (q i) in
  exists a2 t2 res c,
    at_search w i a2 t2 /\
    TAVILY_API_KEY w = true /\
    tavily_search w (Some (query_text n i)) = inr res /\
    let a3 := with_webHits a2 (map hit_of_result (or_default (results res) [])) in
    let a4 := with_risks a3 (compute_risks a3) in
    let a5 := with_markers a4 (compute_markers n a4) in
    model_invoke w (report_data a5) = inr c /\
    final = {| input := i; norm := Some n;
               aggregates := Some (with_report a5 c) |} /\
    calls log = decode_call n ++
                [CallSearch (Some (query_text n i)); CallModel (report_data a5)].
Proof.
  intros H. cbv zeta.
  destruct (invoke_cases w i) as [(e0 & Hk & Hd & E) | (a2 & t2 & E & Hs)];
    [rewrite E in H; discriminate H |].
  pose proof Hs as (Hq & _ & _ & _ & _ & _ & _ & _ & Hc & _).
  rewrite E in H. search_cases H Ekey Es Em; try discriminate H.
  injection H as <- <-.
  exists a2, t2. do 2 eexists.
  split; [exact Hs |]. split; [reflexivity |].
  rewrite <- Hq. split; [exact Es |]. cbv zeta.
  split; [exact Em |]. split; [reflexivity |].
  unfold calls in *. rewrite !filter_app, Hc, Hq. cbn [filter app].
  rewrite app_nil_r. reflexivity.
Qed.

(** X5.  The search key is read only when the search stage runs: without it a
    run whose decode call (made for a VIN) does not fail is rejected with
    the error of the missing key, after the decode call and before any
    search or model call. *)
Theorem missing_search_key w i :
  let n := normalizeQuery (q i) in
  TAVILY_API_KEY w = false ->
  (kind n = KVin -> exists j, nhtsa_get w (value n) = inr j) ->
  fst (invoke w i) = inl (Error (js "Set TAVILY_API_KEY")) /\
  entered (snd (invoke w i)) = [js "normalize"; js "vin_info"; js "web_search"] /\
  calls (snd (invoke w i)) = decode_call n.
Proof.
  cbv zeta. intros Hkey Hdec.
  destruct (invoke_cases w i) as [(e0 & Hk & Hd & E) | (a2 & t2 & E & Hs)].
  - destruct (Hdec Hk) as [j Hj]. rewrite Hj in Hd. discriminate Hd.
  - destruct Hs as (_ & _ & _ & _ & _ & _ & _ & _ & Hc & He & _).
    rewrite E. unfold search_onwards. rewrite Hkey. cbn [negb fst snd].
    repeat split; assumption.
Qed.

Lemma missing_search_key_witness :
  fst (invoke world_no_key REFERENCE_QUERY) = inl (Error (js "Set TAVILY_API_KEY")).
Proof.
  refine (proj1 (missing_search_key world_no_key REFERENCE_QUERY eq_refl _)).
  intros _. eexists. reflexivity.
Defined.

Lemma run_completes w i :
  let n := normalizeQuery (q i) in
  (kind n = KVin -> exists j, nhtsa_get w (value n) = inr j) ->
  TAVILY_API_KEY w = true ->
  (exists res, tavily_search w (Some (query_text n i)) = inr res) ->
  (forall d, exists c, model_invoke w d = inr c) ->
  exists final,
    fst (invoke w i) = inr final /\
    entered (snd (invoke w i)) = STAGES /\
    completed (snd (invoke w i)) = STAGES.
Proof.
  cbv zeta. intros Hdec Hkey [res Hres] Hmodel.
  destruct (invoke_cases w i) as [(e0 & Hk & Hd & E) | (a2 & t2 & E & Hs)].
  - destruct (Hdec Hk) as [j Hj]. rewrite Hj in Hd. discriminate Hd.
  - destruct Hs as (Hq & _ & _ & _ & _ & _ & _ & _ & _ & He & Hc).
    rewrite E. unfold search_onwards. rewrite Hkey, Hq, Hres. cbn [negb]. cbv zeta.
    match goal with
    | |- context [model_invoke w ?d] => destruct (Hmodel d) as [c Hc']; rewrite Hc'
    end.
    eexists. split; [reflexivity |]. cbn [snd].
    unfold entered, completed in *. rewrite !flat_map_app, He, Hc.
    split; reflexivity.
Qed.

Lemma world_up_run :
  exists final log, invoke world_up REFERENCE_QUERY = (inr final, log).
Proof.
  destruct (run_completes world_up REFERENCE_QUERY) as (final & H & _).
  - intros _. eexists. reflexivity.
  - reflexivity.
  - eexists. reflexivity.
  - intros d. eexists. reflexivity.
  - exists final, (snd (invoke world_up REFERENCE_QUERY)).
    rewrite <- H. apply surjective_pairing.
Qed.

Lemma reference_is_vin : kind (normalizeQuery (q REFERENCE_QUERY)) = KVin.
Proof. vm_compute. reflexivity. Qed.

(** X6.  When every collaborator that is asked answers, the run returns a state
    after all six stages. *)
Theorem invoke_completes w i :
  let n := normalizeQuery (q i) in
  (kind n = KVin -> exists j, nhtsa_get w (value n) = inr j) ->
  TAVILY_API_KEY w = true ->
  (exists res, tavily_search w (Some (query_text n i)) = inr res) ->
  (forall d, exists c, model_invoke w d = inr c) ->
  exists final,
    fst (invoke w i) = inr final /\
    entered (snd (invoke w i)) = STAGES /\
    completed (snd (invoke w i)) = STAGES.
Proof. exact (run_completes w i). Qed.

Lemma invoke_completes_witness :
  exists final, fst (invoke world_up PLATE_QUERY) = inr final.
Proof.
  destruct (invoke_completes world_up PLATE_QUERY) as (final & H & _).
  - intros _. eexists. reflexivity.
  - reflexivity.
  - eexists. reflexivity.
  - intros d. eexists. reflexivity.
  - exists final. exact H.
Defined.

Lemma run_result w i final log :
  invoke w i = (inr final, log) ->
  let n := normalizeQuery (q i) in
  input final = i /\ norm final = Some n /\
  exists fa res content,
    aggregates final = Some fa /\
    tavily_search w (Some (query_text n i)) = inr res /\
    webHits fa = Some (map hit_of_result (or_default (results res) [])) /\
    risks fa = Some (compute_risks fa) /\
    markers fa = Some (compute_markers n fa) /\
    model_invoke w (report_data fa) = inr content /\
    report fa = Some content.
Proof.
  intros H. cbv zeta.
  destruct (invoke_completed w i final log H)
    as (a2 & t2 & res & c & Hs & Hkey & Hres & Hm & -> & _).
  cbv zeta in Hm. cbn [input norm aggregates].
  split; [reflexivity |]. split; [reflexivity |].
  eexists _, res, c. split; [reflexivity |]. split; [exact Hres |].
  split; [reflexivity |].
  split; [cbn [risks with_report with_markers with_risks]; f_equal;
          try (apply compute_risks_reads; reflexivity) |].
  split; [cbn [markers with_report with_markers]; f_equal;
          try (apply compute_markers_reads; reflexivity) |].
  split; [| reflexivity].
  rewrite <- Hm. f_equal; try (apply report_data_reads; reflexivity).
Qed.

(** X7.  The state a completed run returns is consistent with itself: it holds
    the input and its normal form; its hits are the results of the search
    for the query text, converted in order; its labels and markers are the
    ones computed from this very aggregate; its report is what the model
    answered to the data of this very aggregate. *)
Theorem result_consistent w i final log :
  invoke w i = (inr final, log) ->
  let n := normalizeQuery (q i) in
  input final = i /\ norm final = Some n /\
  exists fa res content,
    aggregates final = Some fa /\
    tavily_search w (Some (query_text n i)) = inr res /\
    webHits fa = Some (map hit_of_result (or_default (results res) [])) /\
    risks fa = Some (compute_risks fa) /\
    markers fa = Some (compute_markers n fa) /\
    model_invoke w (report_data fa) = inr content /\
    report fa = Some content.
Proof. exact (run_result w i final log). Qed.

Lemma result_consistent_witness :
  exists final, fst (invoke world_up REFERENCE_QUERY) = inr final /\
                input final = REFERENCE_QUERY.
Proof.
  destruct world_up_run as (final & log & E).
  exists final. split; [rewrite E; reflexivity |].
  exact (proj1 (result_consistent world_up REFERENCE_QUERY final log E)).
Defined.

(** X8.  The collaborators are called at most once each and in the order
    decode, search, model: the calls of a run are an initial part of the
    decode call for the cleaned VIN (made for a VIN only), the search for
    the query text, and one model call. *)
Theorem call_sequence w i :
  let n := normalizeQuery (q i) in
  exists d k,
    calls (snd (invoke w i)) =
    firstn k (decode_call n ++
              [CallSearch (Some (query_text n i)); CallModel d]).
Proof.
  cbv zeta.
  destruct (invoke_cases w i) as [(e0 & Hk & Hd & E) | (a2 & t2 & E & Hs)].
  - rewrite E. exists (report_data empty_aggregate), 1%nat.
    unfold decode_call. rewrite Hk. reflexivity.
  - destruct Hs as (Hq & _ & _ & _ & _ & _ & _ & _ & Hc & _).
    assert (Hl : forall r, firstn (length (decode_call (normalizeQuery (q i))))
                             (decode_call (normalizeQuery (q i)) ++ r) =
                           decode_call (normalizeQuery (q i))).
    { intros r. rewrite firstn_app, Nat.sub_diag, firstn_all. cbn [firstn].
      apply app_nil_r. }
    rewrite E. unfold search_onwards. rewrite Hq.
    destruct (TAVILY_API_KEY w); cbn [negb].
    + destruct (tavily_search w _) as [e | res].
      * exists (report_data empty_aggregate),
          (length (decode_call (normalizeQuery (q i))) + 1)%nat.
        cbn [snd]. unfold calls in *. rewrite filter_app, Hc. cbn [filter].
        rewrite firstn_app_2. reflexivity.
      * cbv zeta.
        match goal with
        | |- context [model_invoke w ?d] =>
            exists d, (length (decode_call (normalizeQuery (q i))) + 2)%nat;
            destruct (model_invoke w d) as [e | c]
        end; cbn [snd]; unfold calls in *;
          rewrite ?filter_app, Hc; cbn [filter app]; rewrite ?app_nil_r;
          rewrite firstn_app_2; reflexivity.
    + exists (report_data empty_aggregate),
        (length (decode_call (normalizeQuery (q i))))%nat.
      cbn [snd]. rewrite Hc. symmetry. apply Hl.
Qed.

Lemma completed_run_calls_model w i final log :
  invoke w i = (inr final, log) -> exists d, In (CallModel d) log.
Proof.
  intros H.
  destruct (invoke_completed w i final log H)
    as (a2 & t2 & res & c & _ & _ & _ & _ & _ & Hcalls).
  cbv zeta in Hcalls. eexists.
  assert (Hin : In (CallModel _) (calls log))
    by (rewrite Hcalls; apply in_or_app; right; right; left; reflexivity).
  unfold calls in Hin. apply filter_In in Hin. exact (proj1 Hin).
Qed.



(** X10.  The checksum marker of a run never warns: [vinValid] is computed on a
    value that has already passed the checksum, so in a completed run
    vin_checksum, present exactly for a VIN, is ok, with the VIN as note. *)
Theorem vin_checksum_never_warns w i final log fa m :
  invoke w i = (inr final, log) ->
  aggregates final = Some fa -> markers fa = Some m ->
  let n := normalizeQuery (q i) in
  (kind n = KVin ->
     vinValid fa = Some true /\
     vin_checksum m = Some {| ok := true; note := Some (value n) |}) /\
  (kind n <> KVin -> vinValid fa = None /\ vin_checksum m = None).
Proof.
  intros H Hfa Hm. cbv zeta.
  destruct (invoke_completed w i final log H)
    as (a2 & t2 & res & c & Hs & _ & _ & _ & -> & _).
  cbn [aggregates] in Hfa. injection Hfa as <-.
  cbn [markers with_report with_markers] in Hm. injection Hm as <-.
  destruct Hs as (_ & HV & HP & HU & _).
  cbn [vinValid with_report with_markers with_risks with_webHits].
  unfold compute_markers. cbn [vin_checksum].
  cbn [vinValid vin with_report with_markers with_risks with_webHits].
  split.
  - intros Hk. destruct (HV Hk) as (Hv & Hvv & _). rewrite Hk, Hv, Hvv.
    split; reflexivity.
  - intros Hk. destruct (kind (normalizeQuery (q i))) eqn:Ek;
      [contradiction | |].
    + destruct (HP eq_refl) as (_ & _ & Hvv & _). rewrite Hvv. split; reflexivity.
    + destruct (HU eq_refl) as (_ & _ & Hvv & _). rewrite Hvv. split; reflexivity.
Qed.

Lemma vin_checksum_never_warns_witness :
  exists final fa,
    fst (invoke world_up REFERENCE_QUERY) = inr final /\
    aggregates final = Some fa /\ vinValid fa = Some true.
Proof.
  destruct world_up_run as (final & log & E).
  destruct (run_result _ _ _ _ E) as (_ & _ & fa & res & c & Ha & _ & _ & _ & Hm & _).
  exists final, fa. split; [rewrite E; reflexivity |]. split; [exact Ha |].
  exact (proj1 (proj1 (vin_checksum_never_warns world_up REFERENCE_QUERY
                         final log fa _ E Ha Hm) reference_is_vin)).
Defined.

(** X11.  A decode response without a first result (no Results, an empty array,
    a null first row or any other falsy one) is no error: the run goes on,
    the six facts are all undefined, and vin_decoded says "no decode". *)
Theorem unusable_decode_response w i final log j :
  invoke w i = (inr final, log) ->
  let n := normalizeQuery (q i) in
  kind n = KVin -> nhtsa_get w (value n) = inr j ->
  truthy_opt (get_index0 (get_prop (js "Results") (Some j))) = false ->
  exists fa m,
    aggregates final = Some fa /\ nhtsa fa = Some j /\
    facts fa = Some empty_facts /\ markers fa = Some m /\
    vin_decoded m = Some {| ok := false; note := Some (js "no decode") |}.
Proof.
  intros H. cbv zeta. intros Hk Hj Hrow.
  destruct (invoke_completed w i final log H)
    as (a2 & t2 & res & c & Hs & _ & _ & _ & -> & _).
  destruct Hs as (_ & HV & _).
  destruct (HV Hk) as (_ & _ & _ & j' & Hj' & Hn & Hf).
  rewrite Hj in Hj'. injection Hj' as <-.
  do 2 eexists. split; [reflexivity |].
  cbn [nhtsa facts markers with_report with_markers with_risks with_webHits].
  split; [exact Hn |]. split; [| split; [reflexivity |]].
  - rewrite Hf. unfold facts_of_response. rewrite Hrow. reflexivity.
  - unfold compute_markers, decoded_model. cbn [vin_decoded].
    cbn [nhtsa with_risks with_webHits]. rewrite Hk, Hn.
    rewrite (falsy_has_no_model _ Hrow). reflexivity.
Qed.

Lemma unusable_decode_response_witness :
  exists final fa,
    fst (invoke world_blank REFERENCE_QUERY) = inr final /\
    aggregates final = Some fa /\ facts fa = Some empty_facts.
Proof.
  destruct (run_completes world_blank REFERENCE_QUERY) as (final & H & _).
  - intros _. eexists. reflexivity.
  - reflexivity.
  - eexists. reflexivity.
  - intros d. eexists. reflexivity.
  - assert (E : invoke world_blank REFERENCE_QUERY =
                (inr final, snd (invoke world_blank REFERENCE_QUERY)))
      by (rewrite <- H; apply surjective_pairing).
    destruct (unusable_decode_response world_blank REFERENCE_QUERY final _
                (JObj [(js "Count", JNum 0); (js "Results", JArr [])])
                E reference_is_vin eq_refl eq_refl)
      as (fa & m & Ha & _ & Hf & _).
    exists final, fa. split; [exact H |]. split; assumption.
Defined.

(** ** A keyword in a hit is always flagged *)

Lemma startsWith_prefix p s : startsWith p s = true <-> exists y, s = p ++ y.
Proof.
  revert s. induction p as [| a p IH]; intros s.
  - split; [intros _; exists s; reflexivity | destruct s; reflexivity].
  - destruct s as [| b s]; cbn [startsWith].
    + split; [discriminate | intros [y Hy]; discriminate Hy].
    + rewrite andb_true_iff, Z.eqb_eq, IH. split.
      * intros [-> [y ->]]. exists y. reflexivity.
      * intros [y Hy]. injection Hy as -> ->. split; [reflexivity | eauto].
Qed.

Lemma includes_occurs p s : includes p s = true <-> occurs_in p s.
Proof.
  unfold occurs_in. induction s as [| b s IH].
  - cbn [includes]. rewrite orb_false_r, startsWith_prefix. split.
    + intros [y Hy]. exists [], y. exact Hy.
    + intros (x & y & H). destruct x; [exists y; exact H | discriminate H].
  - cbn [includes]. rewrite orb_true_iff, startsWith_prefix, IH. split.
    + intros [[y Hy] | (x & y & H)].
      * exists [], y. exact Hy.
      * exists (b :: x), y. rewrite H. reflexivity.
    + intros (x & y & H). destruct x as [| c x].
      * left. exists y. exact H.
      * right. injection H as _ H. exists x, y. exact H.
Qed.

Lemma occurs_in_refl p : occurs_in p p.
Proof. exists [], []. rewrite app_nil_r. reflexivity. Qed.

Lemma occurs_in_trans p s t : occurs_in p s -> occurs_in s t -> occurs_in p t.
Proof.
  intros (x & y & ->) (x' & y' & ->). exists (x' ++ x), (y ++ y').
  rewrite <- !app_assoc. reflexivity.
Qed.

Lemma occurs_in_app_l p s t : occurs_in p s -> occurs_in p (s ++ t).
Proof.
  intros (x & y & ->). exists x, (y ++ t). rewrite <- !app_assoc. reflexivity.
Qed.

Lemma occurs_in_app_r p s t : occurs_in p t -> occurs_in p (s ++ t).
Proof.
  intros (x & y & ->). exists (s ++ x), y. rewrite <- !app_assoc. reflexivity.
Qed.

Lemma occurs_in_join sep p parts : In p parts -> occurs_in p (join sep parts).
Proof.
  induction parts as [| a parts IH]; [intros [] |].
  intros [-> | Hin].
  - destruct parts; cbn [join]; [apply occurs_in_refl |].
    apply occurs_in_app_l, occurs_in_refl.
  - destruct parts as [| b parts]; [destruct Hin |].
    cbn [join]. apply occurs_in_app_r, occurs_in_app_r. apply IH. exact Hin.
Qed.

(** *** Letters pass through [JSON.stringify] and [toLowerCase] *)

Lemma Plain_cases c :
  Plain c <-> (65 <= c <= 90) \/ (97 <= c <= 122) \/ c = 32 \/ c = 45.
Proof.
  unfold Plain, KeywordUnit, ascii_lower.
  destruct ((65 <=? c) && (c <=? 90)) eqn:E.
  - apply andb_true_iff in E. lia.
  - apply andb_false_iff in E. lia.
Qed.

Lemma letter_plain c :
  Plain c ->
  is_lead c = false /\ is_trail c = false /\ escape_unit c = [c] /\
  lower_cp c = [ascii_lower c] /\ (c =? 0x3A3) = false /\ 0 <= c < 128.
Proof.
  intros H. apply Plain_cases in H.
  assert (E : exists n, (n < 123)%nat /\ (32 <= n)%nat /\ c = Z.of_nat n)
    by (exists (Z.to_nat c); lia).
  destruct E as (n & Hn & Hn' & ->).
  do 32 (destruct n as [| n]; [lia |]).
  do 91 (destruct n as [| n];
         [first [ exfalso; lia
                | vm_compute; repeat split; congruence ] |]).
  lia.
Qed.

Lemma escape_cons h t :
  escape (h :: t) =
  match t with
  | l :: t' =>
      if is_lead h && is_trail l then h :: l :: escape t'
      else escape_unit h ++ escape t
  | [] => escape_unit h
  end.
Proof. destruct t; reflexivity. Qed.

Lemma escape_letter c r : Plain c -> escape (c :: r) = c :: escape r.
Proof.
  intros H. destruct (letter_plain c H) as (Hl & _ & He & _).
  rewrite escape_cons. destruct r as [| l r]; [exact He |].
  rewrite Hl, He. reflexivity.
Qed.

Lemma escape_letters L r : Forall Plain L -> escape (L ++ r) = L ++ escape r.
Proof.
  induction 1 as [| c L Hc _ IH]; [reflexivity |].
  cbn [app]. rewrite escape_letter by exact Hc. rewrite IH. reflexivity.
Qed.

(** What follows a code unit that is no trail surrogate is escaped on its
    own. *)
Lemma escape_app u c r :
  is_trail c = false -> exists x, escape (u ++ c :: r) = x ++ escape (c :: r).
Proof.
  intros Hc.
  assert (H : forall n u, (length u <= n)%nat ->
                exists x, escape (u ++ c :: r) = x ++ escape (c :: r)).
  { induction n as [| n IH]; intros v Hv.
    - destruct v; [exists []; reflexivity | simpl in Hv; lia].
    - destruct v as [| h [| l v]].
      + exists []. reflexivity.
      + cbn [app]. rewrite (escape_cons h). rewrite Hc, andb_false_r.
        eexists. reflexivity.
      + cbn [app]. rewrite (escape_cons h). cbn [app].
        destruct (is_lead h && is_trail l).
        * destruct (IH v) as [x Hx]; [cbn [length] in *; lia |].
          exists (h :: l :: x). rewrite Hx. reflexivity.
        * destruct (IH (l :: v)) as [x Hx]; [cbn [length] in *; lia |].
          cbn [app] in Hx. rewrite Hx. exists (escape_unit h ++ x).
          rewrite <- app_assoc. reflexivity. }
  apply (H (length u)). lia.
Qed.

Lemma escape_keeps_letters L s :
  Forall Plain L -> L <> [] -> occurs_in L s -> occurs_in L (escape s).
Proof.
  intros HL Hne (x & y & ->). destruct L as [| c L]; [contradiction |].
  inversion HL as [| ? ? Hc HL']; subst.
  destruct (letter_plain c Hc) as (_ & Ht & _).
  cbn [app]. destruct (escape_app x c (L ++ y) Ht) as [x' Hx'].
  rewrite Hx'. change (c :: L ++ y) with ((c :: L) ++ y).
  rewrite escape_letters by exact HL.
  exists x', (escape y). reflexivity.
Qed.

Lemma code_points_letter c r : Plain c -> code_points (c :: r) = c :: code_points r.
Proof.
  intros H. destruct (letter_plain c H) as (Hl & _).
  destruct r as [| l r]; [reflexivity |].
  rewrite code_points_cons, Hl. reflexivity.
Qed.

Lemma code_points_letters L y :
  Forall Plain L -> code_points (L ++ y) = L ++ code_points y.
Proof.
  induction 1 as [| d D Hd _ IH]; [reflexivity |].
  cbn [app]. rewrite code_points_letter by exact Hd. rewrite IH. reflexivity.
Qed.

Lemma code_points_app u c r :
  is_trail c = false ->
  code_points (u ++ c :: r) = code_points u ++ code_points (c :: r).
Proof.
  intros Hc.
  assert (H : forall n u, (length u <= n)%nat ->
                code_points (u ++ c :: r) = code_points u ++ code_points (c :: r)).
  { induction n as [| n IH]; intros v Hv.
    - destruct v; [reflexivity | simpl in Hv; lia].
    - destruct v as [| h [| l v]].
      + reflexivity.
      + cbn [app]. rewrite (code_points_cons h c r). rewrite Hc, andb_false_r.
        reflexivity.
      + cbn [app]. rewrite !code_points_cons. cbn [app].
        destruct (is_lead h && is_trail l).
        * rewrite (IH v) by (cbn [length] in *; lia). reflexivity.
        * change (l :: v ++ c :: r) with ((l :: v) ++ c :: r).
          rewrite (IH (l :: v)) by (cbn [length] in *; lia). reflexivity. }
  apply (H (length u)). lia.
Qed.

Lemma lower_from_app ctx P R :
  exists F, lower_from ctx (P ++ R) = F ++ lower_from (rev P ++ ctx) R.
Proof.
  revert ctx. induction P as [| c P IH]; intros ctx.
  - exists []. reflexivity.
  - cbn [app lower_from rev]. destruct (IH (c :: ctx)) as [F HF].
    rewrite <- (app_assoc (rev P) [c] ctx). cbn [app].
    rewrite HF. eexists (_ ++ F). rewrite <- app_assoc. reflexivity.
Qed.

Lemma lower_from_letters ctx L R :
  Forall Plain L ->
  lower_from ctx (L ++ R) = map ascii_lower L ++ lower_from (rev L ++ ctx) R.
Proof.
  intros HL. revert ctx. induction HL as [| c L Hc _ IH]; intros ctx.
  - reflexivity.
  - destruct (letter_plain c Hc) as (_ & _ & _ & Hlow & Hsig & _).
    cbn [app lower_from map rev]. rewrite Hsig, Hlow, IH.
    rewrite <- !app_assoc. reflexivity.
Qed.

Lemma ascii_lower_letter c : Plain c -> 0 <= ascii_lower c < 128.
Proof. unfold Plain, KeywordUnit. lia. Qed.

Lemma toLowerCase_keeps_letters L s :
  Forall Plain L -> L <> [] -> occurs_in L s ->
  occurs_in (map ascii_lower L) (toLowerCase s).
Proof.
  intros HL Hne (x & y & ->). destruct L as [| c L]; [contradiction |].
  pose proof HL as HL0. inversion HL as [| ? ? Hc HL']; subst.
  destruct (letter_plain c Hc) as (_ & Ht & _).
  unfold toLowerCase. cbn [app]. rewrite (code_points_app x c (L ++ y) Ht).
  change (c :: L ++ y) with ((c :: L) ++ y).
  rewrite (code_points_letters (c :: L) y HL0).
  destruct (lower_from_app [] (code_points x) ((c :: L) ++ code_points y)) as [F HF].
  rewrite HF, lower_from_letters by exact HL0.
  unfold utf16. rewrite !flat_map_app.
  fold (utf16 (map ascii_lower (c :: L))).
  rewrite (utf16_bmp (map ascii_lower (c :: L))).
  - eexists _, _. reflexivity.
  - apply Forall_map. eapply Forall_impl; [| exact HL0].
    intros d Hd. apply ascii_lower_letter in Hd. simpl. lia.
Qed.

Lemma stringify_arr items :
  stringify (JArr items) = js "[" ++ join (js ",") (map stringify items) ++ js "]".
Proof. reflexivity. Qed.

Lemma stringify_obj props :
  stringify (JObj props) =
  js "{" ++
  join (js ",") (map (fun kv => quote (fst kv) ++ js ":" ++ stringify (snd kv)) props)
  ++ js "}".
Proof. reflexivity. Qed.

Lemma stringify_str s : stringify (JStr s) = [0x22] ++ escape s ++ [0x22].
Proof. reflexivity. Qed.

(** The title, the link and the snippet of a hit are in the serialization
    of the hits, escaped. *)
Lemma hit_text_occurs hits h text :
  In h hits -> In text (hit_texts h) ->
  occurs_in (escape text) (stringify (hits_json hits)).
Proof.
  intros Hin Ht. unfold hits_json. rewrite stringify_arr.
  apply occurs_in_app_r, occurs_in_app_l.
  apply occurs_in_trans with (stringify (hit_json h));
    [| apply occurs_in_join, in_map, in_map; exact Hin].
  unfold hit_json, object_of. rewrite stringify_obj.
  apply occurs_in_app_r, occurs_in_app_l.
  assert (Hk : exists key,
             In (key, JStr text)
                (flat_map (fun kv : jsstring * option JSON =>
                             match snd kv with
                             | Some v => [(fst kv, v)]
                             | None => []
                             end)
                   [(js "title", opt_str (title h)); (js "link", opt_str (link h));
                    (js "snippet", opt_str (snippet h))])).
  { unfold hit_texts in Ht. cbn [flat_map] in Ht. cbn [flat_map snd fst].
    destruct (title h) as [t |]; destruct (link h) as [l |];
      destruct (snippet h) as [s |]; cbn [opt_str app] in *;
      simpl in Ht; intuition (subst; eexists; simpl; eauto). }
  destruct Hk as [key Hk].
  apply occurs_in_trans with (quote key ++ js ":" ++ stringify (JStr text)).
  - rewrite stringify_str. apply occurs_in_app_r, occurs_in_app_r.
    apply occurs_in_app_r, occurs_in_app_l, occurs_in_refl.
  - apply occurs_in_join.
    apply (in_map (fun kv => quote (fst kv) ++ js ":" ++ stringify (snd kv))
                  _ (key, JStr text)).
    exact Hk.
Qed.

Lemma keyword_units kw : In kw RISK_KEYWORDS -> Forall KeywordUnit kw /\ kw <> [].
Proof.
  intros H.
  assert (Hb : forallb (fun c => ((97 <=? c) && (c <=? 122)) || (c =? 32) || (c =? 45))
                       kw = true /\ kw <> []).
  { unfold RISK_KEYWORDS in H. simpl in H.
    repeat (destruct H as [H | H]; [subst kw; split; [reflexivity | discriminate] |]).
    destruct H. }
  destruct Hb as [Hb Hne]. split; [| exact Hne].
  apply Forall_forall. intros c Hc. rewrite forallb_forall in Hb.
  specialize (Hb c Hc). unfold KeywordUnit.
  rewrite !orb_true_iff, andb_true_iff, !Z.eqb_eq, !Z.leb_le in Hb. tauto.
Qed.

(** A text that holds a keyword, ASCII capitals folded, holds it written
    in plain code units. *)
Lemma folded_occurrence kw text :
  Forall KeywordUnit kw -> kw <> [] ->
  includes kw (map ascii_lower text) = true ->
  exists L, Forall Plain L /\ L <> [] /\ map ascii_lower L = kw /\ occurs_in L text.
Proof.
  intros Hkw Hne Hinc.
  apply includes_occurs in Hinc. destruct Hinc as (x & y & E).
  apply map_eq_app in E. destruct E as (x' & r & -> & _ & E).
  apply map_eq_app in E. destruct E as (L & y' & -> & EL & _).
  exists L. split; [| split; [| split; [exact EL | exists x', y'; reflexivity]]].
  - apply Forall_forall. intros c Hc. unfold Plain.
    rewrite Forall_forall in Hkw. apply Hkw. rewrite <- EL.
    apply in_map. exact Hc.
  - intros ->. simpl in EL. congruence.
Qed.

Lemma keyword_in_hit a h text kw :
  In h (or_default (webHits a) []) -> In text (hit_texts h) ->
  In kw RISK_KEYWORDS ->
  includes kw (map ascii_lower text) = true ->
  In kw (compute_risks a).
Proof.
  intros Hh Ht Hkw Hinc.
  destruct (keyword_units kw Hkw) as [Hu Hne].
  destruct (folded_occurrence kw text Hu Hne Hinc) as (L & HL & HLne & EL & Hocc).
  rewrite compute_risks_eq. apply in_or_app. left. apply filter_In.
  split; [exact Hkw |].
  apply includes_occurs. rewrite <- EL.
  apply toLowerCase_keeps_letters; [exact HL | exact HLne |].
  unfold risk_text. apply occurs_in_app_l.
  apply occurs_in_trans with (escape text);
    [apply escape_keeps_letters; assumption |].
  eapply hit_text_occurs; eassumption.
Qed.

(** X12.  A keyword that stands in the title, the link or the snippet of a hit,
    in whatever mix of ASCII capitals and small letters, is among the
    labels. *)
Theorem keyword_in_hit_is_flagged a h text kw :
  In h (or_default (webHits a) []) -> In text (hit_texts h) ->
  In kw RISK_KEYWORDS ->
  includes kw (map ascii_lower text) = true ->
  In kw (compute_risks a).
Proof. exact (keyword_in_hit a h text kw). Qed.

Lemma keyword_in_hit_is_flagged_witness :
  In (js "salvage") (compute_risks LISTED).
Proof.
  apply (keyword_in_hit_is_flagged LISTED
           {| title := Some (js "Cars");
              link := Some (js "https://example.org/salvage/2");
              snippet := None |}
           (js "https://example.org/salvage/2")).
  - right. left. reflexivity.
  - right. left. reflexivity.
  - unfold RISK_KEYWORDS. simpl. tauto.
  - vm_compute. reflexivity.
Defined.

(** X13.  A hit that is counted leaves a label: when the link of some hit
    matches the auction pattern, one of copart, iaai, auction and salvage
    is among the labels; so multiple_auctions never comes alone. *)
Theorem counted_hit_is_labelled a :
  ((1 <= auctionCount a)%nat \/ In (js "multiple_auctions") (compute_risks a)) ->
  In (js "copart") (compute_risks a) \/ In (js "iaai") (compute_risks a) \/
  In (js "auction") (compute_risks a) \/ In (js "salvage") (compute_risks a).
Proof.
  intros H.
  assert (Hc : (1 <= auctionCount a)%nat).
  { destruct H as [H | H]; [exact H |].
    rewrite compute_risks_eq, in_app_iff in H.
    destruct H as [H | H].
    - apply filter_In in H. destruct (multiple_auctions_no_keyword (proj1 H)).
    - destruct (2 <=? auctionCount a)%nat eqn:E; [| destruct H].
      apply Nat.leb_le in E. lia. }
  clear H. unfold auctionCount in Hc.
  destruct (filter _ _) as [| h rest] eqn:Ef; [simpl in Hc; lia |].
  assert (Hh : In h (h :: rest)) by (left; reflexivity).
  rewrite <- Ef in Hh. apply filter_In in Hh. destruct Hh as [Hin Hre].
  rewrite AUCTION_RE_mentions in Hre.
  destruct (link h) as [l |] eqn:El; [| discriminate Hre].
  cbn [or_default] in Hre.
  unfold mentions_auction in Hre. apply existsb_exists in Hre.
  destruct Hre as (word & Hw & Hinc).
  assert (Ht : In l (hit_texts h)).
  { unfold hit_texts. apply in_flat_map. exists (Some l).
    split; [rewrite El; right; left; reflexivity | left; reflexivity]. }
  assert (Hkw : In word RISK_KEYWORDS).
  { unfold RISK_KEYWORDS. simpl in Hw. simpl.
    destruct Hw as [<- | [<- | [<- | [<- | []]]]]; tauto. }
  pose proof (keyword_in_hit a h l word Hin Ht Hkw Hinc) as Hlab.
  simpl in Hw. destruct Hw as [<- | [<- | [<- | [<- | []]]]]; tauto.
Qed.

Lemma counted_hit_is_labelled_witness :
  In (js "copart") (compute_risks AUCTIONED) \/
  In (js "iaai") (compute_risks AUCTIONED) \/
  In (js "auction") (compute_risks AUCTIONED) \/
  In (js "salvage") (compute_risks AUCTIONED).
Proof.
  apply counted_hit_is_labelled. left. vm_compute. lia.
Defined.

(** X14.  The labels are the matching keywords in the order of the keyword
    list, then multiple_auctions when it applies: no label comes twice,
    and there are at most eighteen. *)
Theorem risk_labels_order a :
  compute_risks a =
  filter (fun kw => includes kw (toLowerCase (risk_text a))) RISK_KEYWORDS ++
  (if (2 <=? auctionCount a)%nat then [js "multiple_auctions"] else []) /\
  NoDup (compute_risks a) /\
  (length (compute_risks a) <= 18)%nat.
Proof.
  split; [exact (compute_risks_eq a) |].
  rewrite compute_risks_eq.
  set (P := fun kw => includes kw (toLowerCase (risk_text a))).
  assert (Hnd : NoDup (filter P RISK_KEYWORDS))
    by (apply NoDup_filter, RISK_KEYWORDS_NoDup).
  assert (Hlen : (length (filter P RISK_KEYWORDS) <= 17)%nat)
    by (apply (Nat.le_trans _ _ _ (filter_length_le P RISK_KEYWORDS)); reflexivity).
  destruct (2 <=? auctionCount a)%nat.
  - split.
    + apply NoDup_app; [exact Hnd | repeat constructor; intros [] |].
      intros x Hx [<- | []]. apply filter_In in Hx.
      exact (multiple_auctions_no_keyword (proj1 Hx)).
    + rewrite length_app. cbn [length]. lia.
  - rewrite app_nil_r. split; [exact Hnd | lia].
Qed.

(** ** Command line *)

(** X15.  The run is started on what follows [--q=] in the first argument that
    starts with it, be it empty; arguments before it that do not start with
    [--q=] and all arguments after it are ignored; there is no input, and
    the usage exit is taken, exactly when no argument starts with [--q=]. *)
Theorem cli_q_first_wins pre x post :
  Forall (fun a => startsWith (js "--q=") a = false) pre ->
  cli_q (pre ++ (js "--q=" ++ x) :: post) = Some x /\
  (cli_q pre = None) /\
  (forall argv, cli_q argv = None <->
                Forall (fun a => startsWith (js "--q=") a = false) argv).
Proof.
  intros Hpre.
  assert (Hnone : forall argv,
             Forall (fun a => startsWith (js "--q=") a = false) argv ->
             find (startsWith (js "--q=")) argv = None).
  { induction 1 as [| a argv Ha _ IH]; [reflexivity |].
    cbn [find]. rewrite Ha. exact IH. }
  split; [| split].
  - unfold cli_q. induction Hpre as [| a pre Ha _ IH].
    + cbn [app find].
      replace (startsWith (js "--q=") (js "--q=" ++ x)) with true
        by (symmetry; apply startsWith_prefix; exists x; reflexivity).
      reflexivity.
    + cbn [app find]. rewrite Ha. exact IH.
  - unfold cli_q. rewrite (Hnone pre Hpre). reflexivity.
  - intros argv. unfold cli_q. split.
    + intros H. apply Forall_forall. intros a Ha.
      destruct (find (startsWith (js "--q=")) argv) as [arg |] eqn:E;
        [discriminate H |].
      apply (find_none _ _ E). exact Ha.
    + intros H. rewrite (Hnone argv H). reflexivity.
Qed.

Lemma cli_q_first_wins_witness :
  cli_q ([js "node"; js "vinAgent.js"] ++
         (js "--q=" ++ js "AB1234CD") :: [js "--q=other"]) = Some (js "AB1234CD").
Proof.
  refine (proj1 (cli_q_first_wins [js "node"; js "vinAgent.js"] (js "AB1234CD")
                   [js "--q=other"] _)).
  repeat constructor.
Defined.

(** ** The marker lines of a run *)

Lemma join_nonempty sep l :
  l <> [] -> Forall (fun p : jsstring => p <> []) l -> join sep l <> [].
Proof.
  intros Hl HF. destruct l as [| p r]; [congruence |].
  inversion HF as [| ? ? Hp _]; subst.
  destruct p as [| c p]; [congruence |].
  destruct r; simpl; discriminate.
Qed.

Lemma compute_risks_labels a : Forall (fun p : jsstring => p <> []) (compute_risks a).
Proof.
  rewrite compute_risks_eq. apply Forall_app. split.
  - apply Forall_forall. intros kw H. apply filter_In in H.
    exact (proj2 (keyword_units kw (proj1 H))).
  - destruct (2 <=? auctionCount a)%nat; repeat constructor. discriminate.
Qed.

Lemma vin_value_nonempty q0 :
  kind (normalizeQuery q0) = KVin -> value (normalizeQuery q0) <> [].
Proof.
  intros Hk. apply normalizeQuery_vin in Hk. unfold isLikelyVIN in Hk.
  apply andb_true_iff in Hk. destruct Hk as [Hre _].
  apply VIN_RE_well_formed in Hre. destruct Hre as [Hlen _].
  intros E. rewrite E in Hlen. discriminate Hlen.
Qed.

Lemma marker_line_noted k b text :
  text <> [] ->
  exists status,
    marker_line (k, {| ok := b; note := Some text |}) =
    js "- " ++ k ++ js ": " ++ status ++ js " (" ++ text ++ js ")" /\
    (status = js "OK" \/ status = js "WARN").
Proof.
  intros Hn. destruct text as [| c text]; [congruence |].
  exists (if b then js "OK" else js "WARN").
  split; [reflexivity | destruct b; auto].
Qed.

(** X16.  Every marker line that is printed after a completed run carries a
    note: there are five lines for a VIN (input_type, vin_checksum,
    vin_decoded, web_presence, risk_flags, in this order) and three
    otherwise, and each reads [- key: OK (note)] or [- key: WARN (note)]
    with a note that is not empty. *)
Theorem marker_lines_carry_notes w i final log :
  invoke w i = (inr final, log) ->
  let n := normalizeQuery (q i) in
  exists notes,
    map fst notes =
      (if Kind_eqb (kind n) KVin
       then [js "input_type"; js "vin_checksum"; js "vin_decoded";
             js "web_presence"; js "risk_flags"]
       else [js "input_type"; js "web_presence"; js "risk_flags"]) /\
    Forall2 (fun line kt =>
               exists status,
                 line = js "- " ++ fst kt ++ js ": " ++ status ++
                        js " (" ++ snd kt ++ js ")" /\
                 (status = js "OK" \/ status = js "WARN") /\ snd kt <> [])
            (markers_section final) notes.
Proof.
  intros H. cbv zeta.
  destruct (invoke_completed w i final log H)
    as (a2 & t2 & res & c & Hs & _ & _ & _ & -> & _).
  destruct Hs as (_ & HV & _).
  unfold markers_section.
  cbn [aggregates or_default markers with_report with_markers].
  set (n := normalizeQuery (q i)) in *.
  set (a4 := with_risks _ _).
  assert (Hvin : kind n = KVin -> vin a4 = Some (value n) /\ value n <> []).
  { intros Hk. destruct (HV Hk) as (Hv & _). split; [exact Hv |].
    apply vin_value_nonempty. exact Hk. }
  assert (Hrisk : or_default (risks a4) [] = compute_risks
                    (with_webHits a2 (map hit_of_result (or_default (results res) []))))
    by reflexivity.
  pose proof (compute_risks_labels
                (with_webHits a2 (map hit_of_result (or_default (results res) []))))
    as Hlab.
  rewrite <- Hrisk in Hlab.
  assert (Hinput : kind_name (kind n) <> []) by (destruct (kind n); discriminate).
  assert (Hweb : (if (0 <? length (or_default (webHits a4) []))%nat
                  then String_of_Z (Z.of_nat (length (or_default (webHits a4) [])))
                       ++ js " hits"
                  else js "no hits") <> []).
  { destruct (0 <? _)%nat; [| discriminate].
    intros E. apply app_eq_nil in E. destruct E as [_ E]. discriminate E. }
  assert (Hflags : (if (0 <? length (or_default (risks a4) []))%nat
                    then join (js ", ") (or_default (risks a4) [])
                    else js "none") <> []).
  { revert Hlab. generalize (or_default (risks a4) []).
    intros [| r0 rs] Hlab; [discriminate |].
    apply join_nonempty; [discriminate | exact Hlab]. }
  unfold marker_entries, compute_markers.
  cbn [input_type vin_checksum vin_decoded web_presence risk_flags].
  destruct (marker_line_noted (js "input_type")
              (negb (Kind_eqb (kind n) KUnknown)) _ Hinput) as (s1 & E1 & Hs1).
  destruct (marker_line_noted (js "web_presence")
              (0 <? length (or_default (webHits a4) []))%nat _ Hweb) as (s4 & E4 & Hs4).
  destruct (marker_line_noted (js "risk_flags")
              (negb (0 <? length (or_default (risks a4) []))%nat) _ Hflags)
    as (s5 & E5 & Hs5).
  destruct (kind n) eqn:Ek.
  - destruct (Hvin eq_refl) as [Hv Hne]. rewrite Hv.
    destruct (marker_line_noted (js "vin_checksum")
                (or_default (vinValid a4) false) _ Hne) as (s2 & E2 & Hs2).
    set (text3 := if truthy_opt (decoded_model a4)
                  then js "NHTSA decoded" else js "no decode").
    assert (H3 : text3 <> [])
      by (unfold text3; destruct (truthy_opt _); discriminate).
    destruct (marker_line_noted (js "vin_decoded")
                (truthy_opt (decoded_model a4)) _ H3) as (s3 & E3 & Hs3).
    eexists [(_, _); (_, _); (_, _); (_, _); (_, _)].
    split; [reflexivity |].
    cbn [app map Kind_eqb].
    repeat (apply Forall2_cons; [eexists; split; [eassumption | split; assumption] |]).
    apply Forall2_nil.
  - eexists [(_, _); (_, _); (_, _)].
    split; [reflexivity |].
    cbn [app map Kind_eqb].
    repeat (apply Forall2_cons; [eexists; split; [eassumption | split; assumption] |]).
    apply Forall2_nil.
  - eexists [(_, _); (_, _); (_, _)].
    split; [reflexivity |].
    cbn [app map Kind_eqb].
    repeat (apply Forall2_cons; [eexists; split; [eassumption | split; assumption] |]).
    apply Forall2_nil.
Qed.

Lemma marker_lines_carry_notes_witness :
  exists final,
    fst (invoke world_up REFERENCE_QUERY) = inr final /\
    List.length (markers_section final) = 5%nat.
Proof.
  destruct world_up_run as (final & log & E).
  destruct (marker_lines_carry_notes world_up REFERENCE_QUERY final log E)
    as (notes & Hk & HF).
  exists final. rewrite E. split; [reflexivity |].
  transitivity (List.length (map fst notes)).
  - rewrite length_map. exact (Forall2_length HF).
  - rewrite Hk, reference_is_vin. reflexivity.
Defined.
